(** * Repository tree-fetch subsystem of [GithubService]

    A shallow embedding of
    [app/modules/code_provider/github/github_service.py]:
    the tree walker [_fetch_repo_structure_async], the tree formatter
    [_format_tree_structure], the credential fallback [get_repo] and the
    cache-aside orchestrator [get_project_structure_async].

    Conventions.
    - A Python [str] is a [string]; one [ascii] stands for one character.
      Splitting on "/", suffix and prefix tests and lexicographic
      comparison read the same on characters and on UTF-8 bytes.
    - A Python exception is a value of [exn]; a call that may raise
      returns an [outcome].
    - The remote handle, the project table and the credential resolver are
      external collaborators: they are fields of [Repository] and [Env].
    - The cache store is a finite map from keys to the stored text.
    - Every remote interaction is recorded in a list of [event]s, so that
      "this call was not made" is a statement about that list. *)

From Stdlib Require Import String Ascii ZArith List Bool Lia.
From Stdlib Require Import Permutation Sorted.
From stdpp Require Import gmap strings pretty.
Import ListNotations.

Local Open Scope string_scope.
Local Open Scope list_scope.

(** ** Python string primitives *)

Module Py.

(** The one-character string "/" as a character. *)
Definition slash : ascii := "/"%char.

(** The newline character used by ["\n".join]. *)
Definition newline : string := String (ascii_of_nat 10) "".

(** Truthiness of a [str]: the empty string is falsy. *)
Definition truthy (s : string) : bool :=
  match s with
  | EmptyString => false
  | String _ _ => true
  end.

(** Truthiness of an [Optional[str]]: [None] and the empty string are falsy. *)
Definition truthy_opt (o : option string) : bool :=
  match o with
  | None => false
  | Some s => truthy s
  end.

(** [s.split("/")]: never empty, one more piece than there are slashes. *)
Fixpoint split_slash (s : string) : list string :=
  match s with
  | EmptyString => [EmptyString]
  | String c r =>
      if Ascii.eqb c slash then EmptyString :: split_slash r
      else match split_slash r with
           | h :: t => String c h :: t
           | [] => [String c EmptyString]
           end
  end.

(** [s[n:]] for a non-negative [n]. *)
Fixpoint drop_chars (n : nat) (s : string) : string :=
  match n, s with
  | O, _ => s
  | S n', String _ r => drop_chars n' r
  | S _, EmptyString => EmptyString
  end.

(** [s.lstrip("/")]. *)
Fixpoint lstrip_slash (s : string) : string :=
  match s with
  | String c r => if Ascii.eqb c slash then lstrip_slash r else s
  | EmptyString => EmptyString
  end.

(** [s.rstrip("/")]. *)
Fixpoint rstrip_slash (s : string) : string :=
  match s with
  | EmptyString => EmptyString
  | String c r =>
      let r' := rstrip_slash r in
      if Ascii.eqb c slash && negb (truthy r') then EmptyString
      else String c r'
  end.

(** [s.strip("/")]. *)
Definition strip_slash (s : string) : string :=
  rstrip_slash (lstrip_slash s).

(** [s.endswith(suffix)]. *)
Fixpoint endswith (s suffix : string) : bool :=
  String.eqb s suffix ||
  match s with
  | EmptyString => false
  | String _ r => endswith r suffix
  end.

(** [s.startswith(p)]. *)
Definition startswith (s p : string) : bool := String.prefix p s.

(** [s.split("/")[-1]]. *)
Definition last_segment (s : string) : string :=
  List.last (split_slash s) EmptyString.

(** [a or b] on strings. *)
Definition or_else (a b : string) : string :=
  if truthy a then a else b.

(** [s * n]. *)
Fixpoint repeat_str (s : string) (n : nat) : string :=
  match n with
  | O => EmptyString
  | S n' => s +:+ repeat_str s n'
  end.

(** ["\n".join(lines)]. *)
Definition join_lines (lines : list string) : string :=
  String.concat newline lines.

End Py.

(** ** Exceptions *)

(** [fastapi.HTTPException] carries a status code and a detail; every other
    exception is represented by its [str(e)]. *)
Inductive exn : Type :=
| HTTPException (status_code : Z) (detail : string)
| OtherException (message : string).

Inductive outcome (A : Type) : Type :=
| Ret (a : A)
| Raise (e : exn).

Arguments Ret {A} a.
Arguments Raise {A} e.

(** [str(e)]. *)
Definition exn_str (e : exn) : string :=
  match e with
  | HTTPException _ d => d
  | OtherException m => m
  end.

(** ** Data model *)

(** One entry of a directory listing ([github.ContentFile]). *)
Record ContentFile : Type := mkContentFile {
  item_type : string;
  item_name : string;
  item_path : string
}.

(** [repo.get_contents] answers with a lone entry or with a list. *)
Inductive contents : Type :=
| Single (item : ContentFile)
| Listing (items : list ContentFile).

(** The repository handle: its [name] and its [get_contents]. *)
Record Repository : Type := mkRepository {
  repo_name : string;
  get_contents : string -> outcome contents
}.

(** The walker's dictionaries: [{"type": "directory", "name", "children"}]
    and [{"type": "file", "name", "path"}]. The induction principle that
    reaches into the children list is [node_ind'] below. *)
#[warnings="-register-all"]
Inductive node : Type :=
| Directory (name : string) (children : list node)
| FileEntry (name : string) (path : string).

Definition node_name (n : node) : string :=
  match n with
  | Directory name _ => name
  | FileEntry name _ => name
  end.

Definition node_children (n : node) : list node :=
  match n with
  | Directory _ cs => cs
  | FileEntry _ _ => []
  end.

(** The child that marks a directory cut at the depth limit. *)
Definition truncated_marker : node := FileEntry "..." "truncated".

(** Remote interactions, in the order they are issued. *)
Inductive event : Type :=
| EvCacheGet (key : string)
| EvProjectLookup (project_id : string)
| EvResolve (repo : string)
| EvProbe (path : string)
| EvWalk (path : string)
| EvList (path : string)
| EvCacheSet (key : string) (ttl : Z).

(** ** The tree walker *)

(** [self.max_depth]. *)
Definition max_depth : Z := 4.

(** The local list [exclude_extensions]. *)
Definition exclude_extensions : list string :=
  ["png"; "jpg"; "jpeg"; "gif"; "bmp"; "tiff"; "webp"; "ico"; "svg";
   "mp4"; "avi"; "mov"; "wmv"; "flv"; "ipynb"; "zlib"].

(** [any(name.endswith(ext) for ext in exclude_extensions)]. *)
Definition has_excluded_extension (name : string) : bool :=
  existsb (fun ext => Py.endswith name ext) exclude_extensions.

(** [item.type == "dir"]. *)
Definition is_dir (item : ContentFile) : bool :=
  String.eqb (item_type item) "dir".

(** The condition of the list comprehension that filters [contents]. *)
Definition keep_item (item : ContentFile) : bool :=
  is_dir item || negb (has_excluded_extension (item_name item)).

(** The depth the walker computes on entry, from [path] and [base_path]. *)
Definition compute_depth (path : string) (base_path : option string) : Z :=
  match base_path with
  | Some base =>
      if Py.truthy base then
        let relative_path :=
          Py.strip_slash (Py.drop_chars (String.length base) path) in
        if Py.truthy relative_path
        then Z.of_nat (length (Py.split_slash relative_path))
        else 0%Z
      else
        if Py.truthy path then Z.of_nat (length (Py.split_slash path))
        else 0%Z
  | None =>
      if Py.truthy path then Z.of_nat (length (Py.split_slash path))
      else 0%Z
  end.

(** [path.split("/")[-1] or repo.name]. *)
Definition structure_name (repo : Repository) (path : string) : string :=
  Py.or_else (Py.last_segment path) (repo_name repo).

(** The guard [base_path and not item.path.startswith(base_path)]. *)
Definition out_of_scope (base_path : option string) (item : ContentFile) : bool :=
  match base_path with
  | Some base => Py.truthy base && negb (Py.startswith (item_path item) base)
  | None => false
  end.

(** One turn of [for item in contents]: the state is the children appended
    so far and the paths of the sub-walks queued so far. *)
Definition loop_step (base_path : option string)
    (st : list node * list string) (item : ContentFile)
    : list node * list string :=
  if out_of_scope base_path item then st
  else if is_dir item then (fst st, snd st ++ [item_path item])
  else (fst st ++ [FileEntry (item_name item) (item_path item)], snd st).

(** The whole [for] loop, from no children and no queued sub-walk. *)
Definition loop (base_path : option string) (items : list ContentFile)
    : list node * list string :=
  fold_left (loop_step base_path) items ([], []).

(** [if not isinstance(contents, list): contents = [contents]]. *)
Definition as_list (c : contents) : list ContentFile :=
  match c with
  | Single item => [item]
  | Listing items => items
  end.

(** [asyncio.gather]: all queued sub-walks, results in the order queued. *)
Fixpoint gather {A : Type} (tasks : list (option A)) : option (list A) :=
  match tasks with
  | [] => Some []
  | t :: rest =>
      match t, gather rest with
      | Some r, Some rs => Some (r :: rs)
      | _, _ => None
      end
  end.

(** The walker. [fuel] bounds the nesting of recursive calls; [None] means
    the bound was hit. The [current_depth] argument is shadowed at once, as
    in the source. The [try] block has one raising operation,
    [repo.get_contents]; the handler logs and falls through to
    [return structure]. *)
Fixpoint _fetch_repo_structure_async (fuel : nat) (repo : Repository)
    (path : string) (current_depth : Z) (base_path : option string)
    {struct fuel} : option (node * list event) :=
  match fuel with
  | O => None
  | S fuel' =>
      let current_depth := compute_depth path base_path in
      if (max_depth <=? current_depth)%Z then
        Some (Directory (structure_name repo path) [truncated_marker],
              [EvWalk path])
      else
        match get_contents repo path with
        | Raise _ =>
            Some (Directory (structure_name repo path) [],
                  [EvWalk path; EvList path])
        | Ret contents =>
            let contents := List.filter keep_item (as_list contents) in
            let '(files, tasks) := loop base_path contents in
            match gather (map (fun p =>
                     _fetch_repo_structure_async fuel' repo p
                       current_depth base_path) tasks) with
            | None => None
            | Some results =>
                Some (Directory (structure_name repo path)
                        (files ++ map fst results),
                      EvWalk path :: EvList path :: concat (map snd results))
            end
        end
  end.

(** ** The tree formatter *)

(** [sorted(xs, key=...)] on string keys: a stable sort, ascending. An
    element is placed before the first element whose key is not smaller, so
    elements with equal keys keep their input order. *)
Fixpoint insert_by {A : Type} (key : A -> string) (x : A) (l : list A)
    : list A :=
  match l with
  | [] => [x]
  | y :: r =>
      if String.leb (key x) (key y) then x :: y :: r
      else y :: insert_by key x r
  end.

(** [sorted(l, key=key)]. *)
Fixpoint sorted_by {A : Type} (key : A -> string) (l : list A) : list A :=
  match l with
  | [] => []
  | x :: r => insert_by key x (sorted_by key r)
  end.

(** ["  " * depth]. *)
Definition indent (depth : nat) : string := Py.repeat_str "  " depth.

(** The inner function [_format_node]. The lines of every child are
    computed next to the child's sort key and the pairs are sorted, which is
    the source's "sort, then format each child" ([_format_node_children]
    below) in a form that recurses on the children list itself. *)
Fixpoint _format_node (n : node) (depth : nat) {struct n} : list string :=
  let output :=
    if (0 <? depth)%nat then [indent depth +:+ node_name n] else [] in
  match n with
  | Directory _ children =>
      output ++
      concat (map snd
        (sorted_by fst
           (map (fun child => (node_name child, _format_node child (S depth)))
                children)))
  | FileEntry _ _ => output
  end.

(** ["\n".join(_format_node(structure))]. *)
Definition _format_tree_structure (structure : node) : string :=
  Py.join_lines (_format_node structure 0).

(** ** The orchestrator *)

(** The project row, as far as this module reads it. *)
Record Project : Type := mkProject {
  project_name : option string
}.

(** External collaborators of one request. [authenticated_repo] is the
    app-installation attempt of [get_repo], [public_repo] the token-pool
    attempt; [setex_error] is the error the cache store answers a write
    with, if any. *)
Record Env : Type := mkEnv {
  get_project_from_db_by_id : string -> option Project;
  authenticated_repo : string -> outcome Repository;
  public_repo : string -> outcome Repository;
  setex_error : option string
}.

(** [str(path)] inside the f-string of the cache key. *)
Definition str_opt (path : option string) : string :=
  match path with
  | None => "None"
  | Some p => p
  end.

(** The f-string that builds the cache key. *)
Definition cache_key (project_id : string) (path : option string) : string :=
  "project_structure:" +:+ project_id +:+ ":exact_path_" +:+ str_opt path
  +:+ ":depth_" +:+ pretty max_depth.

(** [get_repo]: authenticated access first, then public access; when both
    raise, a 404. *)
Definition get_repo (env : Env) (repo_name : string) : outcome Repository :=
  match authenticated_repo env repo_name with
  | Ret repo => Ret repo
  | Raise _ =>
      match public_repo env repo_name with
      | Ret repo => Ret repo
      | Raise _ =>
          Raise (HTTPException 404
                   ("Repository " +:+ repo_name
                    +:+ " not found or inaccessible on GitHub"))
      end
  end.

(** The result of one request: what is returned or raised, the cache store
    afterwards, and the interactions made. *)
Definition response : Type :=
  (outcome string * gmap string string * list event)%type.

(** The body of the [try] block of [get_project_structure_async]. *)
Definition try_body (fuel : nat) (env : Env) (cache : gmap string string)
    (key : string) (repo_name : string) (path : option string)
    : option response :=
  match get_repo env repo_name with
  | Raise e => Some (Raise e, cache, [EvResolve repo_name])
  | Ret repo =>
      let probe :=
        if Py.truthy_opt path then
          match get_contents repo (default "" path) with
          | Raise _ =>
              Some (HTTPException 404
                      ("Path " +:+ default "" path
                       +:+ " not found in repository"))
          | Ret _ => None
          end
        else None in
      let probed :=
        if Py.truthy_opt path then [EvProbe (default "" path)] else [] in
      match probe with
      | Some e => Some (Raise e, cache, EvResolve repo_name :: probed)
      | None =>
          match _fetch_repo_structure_async fuel repo (default "" path)
                  0 path with
          | None => None
          | Some (structure, walked) =>
              let formatted_structure := _format_tree_structure structure in
              let trace :=
                EvResolve repo_name :: probed ++ walked
                ++ [EvCacheSet key 3600] in
              match setex_error env with
              | Some msg => Some (Raise (OtherException msg), cache, trace)
              | None =>
                  Some (Ret formatted_structure,
                        <[key := formatted_structure]> cache, trace)
              end
          end
      end
  end.

(** The two [except] clauses: an [HTTPException] is raised again as it is,
    anything else becomes a 500. *)
Definition except_clauses (o : outcome string) : outcome string :=
  match o with
  | Ret s => Ret s
  | Raise (HTTPException status detail) => Raise (HTTPException status detail)
  | Raise e =>
      Raise (HTTPException 500
               ("Failed to fetch project structure: " +:+ exn_str e))
  end.

(** [get_project_structure_async]. The cache is read first; [if
    cached_structure:] is a truthiness test, false for a missing entry and
    for an empty one. An entry written by [setex] is taken to be still
    there at the next request: expiry after the 3600 seconds is not
    modelled. *)
Definition get_project_structure_async (fuel : nat) (env : Env)
    (cache : gmap string string) (project_id : string)
    (path : option string) : option response :=
  let cache_key := cache_key project_id path in
  let cached_structure := cache !! cache_key in
  if Py.truthy_opt cached_structure then
    Some (Ret (default "" cached_structure), cache, [EvCacheGet cache_key])
  else
    let lookup := [EvCacheGet cache_key; EvProjectLookup project_id] in
    match get_project_from_db_by_id env project_id with
    | None =>
        Some (Raise (HTTPException 404 "Project not found"), cache, lookup)
    | Some project =>
        let repo_name := default "" (project_name project) in
        if negb (Py.truthy repo_name) then
          Some (Raise (HTTPException 400
                         "Project has no associated GitHub repository"),
                cache, lookup)
        else
          match try_body fuel env cache cache_key repo_name path with
          | None => None
          | Some (o, cache', trace) =>
              Some (except_clauses o, cache', lookup ++ trace)
          end
    end.

(** * The other operations of the service *)

(** ** Sequencing of calls that may raise *)

(** Run [m]; if it returns, go on with [k]; if it raises, the exception
    propagates. *)
Definition bind {A B : Type} (m : outcome A) (k : A -> outcome B)
    : outcome B :=
  match m with
  | Ret a => k a
  | Raise e => Raise e
  end.

Notation "'do' x <- m ; k" := (bind m (fun x => k))
  (at level 10, x name, m at level 100, k at level 200).

(** ** More string primitives *)

Module PyStr.

(** [s.split(sep)] for a one-character separator. *)
Fixpoint split_on (sep : ascii) (s : string) : list string :=
  match s with
  | EmptyString => [EmptyString]
  | String c r =>
      if Ascii.eqb c sep then EmptyString :: split_on sep r
      else match split_on sep r with
           | h :: t => String c h :: t
           | [] => [String c EmptyString]
           end
  end.

(** [c.isspace()] for the characters of a [string]: tab to carriage return,
    the four separators 28 to 31, space, next line (133) and no-break space
    (160). *)
Definition is_space (c : ascii) : bool :=
  let n := nat_of_ascii c in
  (Nat.leb 9 n && Nat.leb n 13) || (Nat.leb 28 n && Nat.leb n 32)
  || Nat.eqb n 133 || Nat.eqb n 160.

(** [s.lstrip()]. *)
Fixpoint lstrip (s : string) : string :=
  match s with
  | String c r => if is_space c then lstrip r else s
  | EmptyString => EmptyString
  end.

(** [s.rstrip()]. *)
Fixpoint rstrip (s : string) : string :=
  match s with
  | EmptyString => EmptyString
  | String c r =>
      let r' := rstrip r in
      if is_space c && negb (Py.truthy r') then EmptyString
      else String c r'
  end.

(** [s.strip()]. *)
Definition strip (s : string) : string := rstrip (lstrip s).

(** [sep.join(l)]. *)
Definition join (sep : string) (l : list string) : string :=
  String.concat sep l.

(** [l[start:stop]] with Python's treatment of negative and oversized
    bounds; [stop = None] is an omitted bound. *)
Definition slice {A : Type} (l : list A) (start : Z) (stop : option Z)
    : list A :=
  let len := Z.of_nat (length l) in
  let clamp i :=
    if (i <? 0)%Z then Z.max (i + len) 0 else Z.min i len in
  let first := clamp start in
  let last := match stop with
              | Some e => clamp e
              | None => len
              end in
  firstn (Z.to_nat (last - first)) (skipn (Z.to_nat first) l).

End PyStr.

(** ** Token pool: [initialize_tokens], [get_public_github_instance] *)

(** The list comprehension of [initialize_tokens]: the pieces between
    commas, stripped, the empty ones left out. *)
Definition parse_tokens (token_string : string) : list string :=
  map PyStr.strip
    (List.filter (fun token => Py.truthy (PyStr.strip token))
       (PyStr.split_on ","%char token_string)).

(** [initialize_tokens]. [GH_TOKEN_LIST] is the value of the environment
    variable, if set. The class attribute is assigned before the emptiness
    test, so the second component is the token list after the call in both
    cases; the [ValueError] is an [OtherException] carrying its message. *)
Definition initialize_tokens (GH_TOKEN_LIST : option string)
    : outcome unit * list string :=
  let token_string := default "" GH_TOKEN_LIST in
  let gh_token_list := parse_tokens token_string in
  match gh_token_list with
  | [] =>
      (Raise (OtherException
                "GitHub token list is empty or not set in environment variables"),
       gh_token_list)
  | _ :: _ => (Ret tt, gh_token_list)
  end.

(** [random.choice(l)] for a non-empty [l], with [r] the random draw. *)
Definition random_choice (r : nat) (l : list string) : string :=
  nth (r mod length l) l "".

(** [get_public_github_instance]: the token the client is built with, and
    the token list afterwards. *)
Definition get_public_github_instance (GH_TOKEN_LIST : option string)
    (r : nat) (gh_token_list : list string)
    : outcome string * list string :=
  match gh_token_list with
  | [] =>
      match initialize_tokens GH_TOKEN_LIST with
      | (Raise e, l) => (Raise e, l)
      | (Ret _, l) => (Ret (random_choice r l), l)
      end
  | _ :: _ => (Ret (random_choice r gh_token_list), gh_token_list)
  end.

(** ** [check_public_repo] and [get_branch_list] *)

(** [check_public_repo]: a client is built with a token drawn from the
    pool by [get_public_github_instance] and the repository is opened with
    it; any exception, that of an empty pool included, is answered with
    [False]. [open_repo token repo_name] is what GitHub answers the client
    built with [token]; [r] is the random draw of this call. The second
    component is the token list afterwards. *)
Definition check_public_repo (GH_TOKEN_LIST : option string) (r : nat)
    (gh_token_list : list string)
    (open_repo : string -> string -> outcome Repository)
    (repo_name : string) : bool * list string :=
  match get_public_github_instance GH_TOKEN_LIST r gh_token_list with
  | (Ret token, l) =>
      (match open_repo token repo_name with
       | Ret _ => true
       | Raise _ => false
       end, l)
  | (Raise _, l) => (false, l)
  end.

(** What [get_branch_list] reads from a repository handle:
    [repo.default_branch] and the names of [repo.get_branches()]. *)
Record BranchApi : Type := mkBranchApi {
  default_branch : Repository -> outcome string;
  get_branches : Repository -> outcome (list string)
}.

(** The two [except] clauses of [get_branch_list]. *)
Definition branch_except (o : outcome (list string)) : outcome (list string) :=
  match o with
  | Ret l => Ret l
  | Raise (HTTPException status detail) => Raise (HTTPException status detail)
  | Raise (OtherException message) =>
      Raise (HTTPException 404
               ("Repository not found or error fetching branches: "
                +:+ message))
  end.

(** [get_branch_list]: the value under the key ["branches"]. *)
Definition get_branch_list (env : Env) (api : BranchApi)
    (repo_name : string) : outcome (list string) :=
  branch_except
    (do repo <- get_repo env repo_name;
     do default_branch <- default_branch api repo;
     do branches <- get_branches api repo;
     let branch_list :=
       List.filter (fun name => negb (String.eqb name default_branch))
         branches in
     Ret (default_branch :: branch_list)).

(** ** [get_file_content] and [_detect_encoding] *)

(** What [repo.get_contents(path, ref)] answers for [get_file_content]: a
    list for a directory, otherwise a file whose [decoded_content] is read
    later and may raise. *)
Inductive file_contents : Type :=
| DirectoryContents
| FileContents (decoded_content : outcome string).

(** The answer of [chardet.detect]: the encoding, if one was found, and
    whether the confidence is below 0.5. *)
Record detection : Type := mkDetection {
  encoding : option string;
  low_confidence : bool
}.

(** Library calls of [get_file_content]: reading a path at a ref
    ([None]: no ref given), [chardet.detect], [bytes.decode],
    [str.splitlines], and [str(e)] for an [HTTPException]. *)
Record FileApi : Type := mkFileApi {
  read_contents : Repository -> string -> option string
                  -> outcome file_contents;
  chardet_detect : string -> detection;
  decode : string -> string -> outcome string;
  splitlines : string -> list string;
  http_exception_str : Z -> string -> string
}.

(** [str(e)]. *)
Definition exception_str (api : FileApi) (e : exn) : string :=
  match e with
  | HTTPException status detail => http_exception_str api status detail
  | OtherException message => message
  end.

(** [_detect_encoding]. *)
Definition _detect_encoding (api : FileApi) (content_bytes : string)
    : outcome string :=
  let detection := chardet_detect api content_bytes in
  if negb (Py.truthy_opt (encoding detection)) || low_confidence detection
  then Raise (HTTPException 400
                "Unable to determine file encoding or low confidence")
  else Ret (default "" (encoding detection)).

(** The two attempts to read the file: with the resolved repository at the
    requested branch, then with the public client and no ref. *)
Definition fetch_file (env : Env) (api : FileApi)
    (repo_name file_path branch_name : string) : outcome file_contents :=
  match (do repo <- get_repo env repo_name;
         read_contents api repo file_path (Some branch_name)) with
  | Ret file_contents => Ret file_contents
  | Raise _ =>
      match (do repo <- public_repo env repo_name;
             read_contents api repo file_path None) with
      | Ret file_contents => Ret file_contents
      | Raise _ =>
          Raise (HTTPException 404
                   ("Repository or file not found or inaccessible: "
                    +:+ repo_name +:+ "/" +:+ file_path))
      end
  end.

(** The line selection at the end of the [try] block. [start_line] and
    [end_line] are [None] when the caller passes [None]. *)
Definition select_lines (api : FileApi) (decoded_content : string)
    (start_line end_line : option Z) : outcome string :=
  let lines := splitlines api decoded_content in
  match start_line, end_line with
  | None, None => Ret decoded_content
  | None, Some _ =>
      Raise (OtherException
               "unsupported operand type(s) for -: 'NoneType' and 'int'")
  | Some s, _ =>
      if match end_line with
         | Some e => (s =? e)%Z && (e =? 0)%Z
         | None => false
         end
      then Ret decoded_content
      else
        let start := if (0 <? s - 2)%Z then (s - 2)%Z else 0%Z in
        let selected_lines := PyStr.slice lines start end_line in
        Ret (PyStr.join Py.newline selected_lines)
  end.

(** The body of the second [try] block. *)
Definition process_content (api : FileApi) (decoded_content : outcome string)
    (start_line end_line : option Z) : outcome string :=
  do content_bytes <- decoded_content;
  do encoding <- _detect_encoding api content_bytes;
  do decoded_content <- decode api content_bytes encoding;
  select_lines api decoded_content start_line end_line.

(** [get_file_content]. The argument [project_id] is not used. *)
Definition get_file_content (env : Env) (api : FileApi)
    (repo_name file_path : string) (start_line end_line : option Z)
    (branch_name project_id : string) : outcome string :=
  do file_contents <- fetch_file env api repo_name file_path branch_name;
  match file_contents with
  | DirectoryContents =>
      Raise (HTTPException 400 "Provided path is a directory, not a file")
  | FileContents decoded_content =>
      match process_content api decoded_content start_line end_line with
      | Ret text => Ret text
      | Raise e =>
          Raise (HTTPException 500
                   ("Error processing file content: "
                    +:+ exception_str api e))
      end
  end.

(** ** [get_github_oauth_token], [get_repos_for_user],
       [get_combined_user_repos] *)

(** The columns of a [User] row that the service reads; [provider_info] is
    a dictionary. *)
Record User : Type := mkUser {
  uid : string;
  provider_username : option string;
  provider_info : gmap string string
}.

(** An installation of the GitHub App, as listed by the API. *)
Record Installation : Type := mkInstallation {
  installation_id : Z;
  account_login : string;
  account_type : string;
  repositories_url : string
}.

(** A repository, as listed for an installation. *)
Record GithubRepo : Type := mkGithubRepo {
  gh_id : Z;
  gh_name : string;
  gh_full_name : string;
  gh_private : bool;
  gh_html_url : string;
  gh_owner_login : string
}.

(** An identifier: a number for a GitHub repository, the primary key for a
    project. *)
Inductive ident : Type :=
| IntId (n : Z)
| StrId (s : string).

(** The dictionaries of the repository lists that are returned. *)
Record RepoEntry : Type := mkRepoEntry {
  entry_id : ident;
  entry_name : string;
  entry_full_name : string;
  entry_private : bool;
  entry_url : string;
  entry_owner : string
}.

(** The [id] and [repo_name] of a [Project] row. *)
Record ProjectRow : Type := mkProjectRow {
  row_id : ident;
  row_repo_name : string
}.

(** An HTTP response: status code, body text and decoded body. *)
Record response_of (A : Type) : Type := mkResponse {
  resp_status : Z;
  resp_text : string;
  resp_json : A
}.

Arguments mkResponse {A} _ _ _.
Arguments resp_status {A} _.
Arguments resp_text {A} _.
Arguments resp_json {A} _.

(** Collaborators of the repository lists: the user table, the project
    query of [get_combined_user_repos], the organisations of the user's
    own client, the JWT of the App, the two HTTP requests (the second with
    the installation's token, its body read as
    [json().get("repositories", [])]), [str.lower], and [str(e)] for an
    [HTTPException]. *)
Record UserApi : Type := mkUserApi {
  find_user : string -> option User;
  user_projects : string -> list ProjectRow;
  user_org_logins : string -> outcome (list string);
  create_jwt : outcome string;
  get_installations : string -> outcome (response_of (list Installation));
  get_installation_repos :
    Installation -> outcome (response_of (list GithubRepo));
  lower : string -> string;
  user_http_exception_str : Z -> string -> string
}.

(** [str(e)]. *)
Definition user_exception_str (api : UserApi) (e : exn) : string :=
  match e with
  | HTTPException status detail => user_http_exception_str api status detail
  | OtherException message => message
  end.

(** [get_github_oauth_token]; a missing key raises [KeyError]. *)
Definition get_github_oauth_token (api : UserApi) (uid : string)
    : outcome string :=
  match find_user api uid with
  | None => Raise (HTTPException 404 "User not found")
  | Some user =>
      match provider_info user !! "access_token" with
      | Some token => Ret token
      | None => Raise (OtherException "'access_token'")
      end
  end.

(** The test of the loop that filters the installations. *)
Definition is_user_installation (api : UserApi) (github_username : string)
    (org_logins : list string) (installation : Installation) : bool :=
  let login := lower api (account_login installation) in
  (String.eqb (account_type installation) "User"
   && String.eqb login (lower api github_username))
  || (String.eqb (account_type installation) "Organization"
      && existsb (String.eqb login) org_logins).

(** The loop that fetches the repositories of the installations, from the
    repositories gathered so far: a response other than 200 is logged and
    skipped, an exception ends the loop. *)
Fixpoint collect_repos (api : UserApi) (installations : list Installation)
    (repos : list GithubRepo) : outcome (list GithubRepo) :=
  match installations with
  | [] => Ret repos
  | installation :: rest =>
      do repos_response <- get_installation_repos api installation;
      if (resp_status repos_response =? 200)%Z
      then collect_repos api rest (repos ++ resp_json repos_response)
      else collect_repos api rest repos
  end.

(** [d[k] = v] on a dictionary kept as the list of its items in insertion
    order: a key that is present keeps its place. *)
Fixpoint dict_set {V : Type} (k : Z) (v : V) (d : list (Z * V))
    : list (Z * V) :=
  match d with
  | [] => [(k, v)]
  | (k', v') :: rest =>
      if (k' =? k)%Z then (k, v) :: rest else (k', v') :: dict_set k v rest
  end.

(** [{repo["id"]: repo for repo in repos}.values()]. *)
Definition unique_repos (repos : list GithubRepo) : list GithubRepo :=
  map snd (fold_left (fun d repo => dict_set (gh_id repo) repo d) repos []).

(** The dictionary built for a listed repository. *)
Definition repo_entry (repo : GithubRepo) : RepoEntry :=
  mkRepoEntry (IntId (gh_id repo)) (gh_name repo) (gh_full_name repo)
    (gh_private repo) (gh_html_url repo) (gh_owner_login repo).

(** [raise HTTPException(...)] unless the condition holds. *)
Definition require (condition : bool) (status : Z) (detail : string)
    : outcome unit :=
  if condition then Ret tt else Raise (HTTPException status detail).

(** The [try] block of [get_repos_for_user]. *)
Definition repos_try_body (api : UserApi) (user_id : string)
    : outcome (list RepoEntry) :=
  do user <- match find_user api user_id with
             | Some user => Ret user
             | None => Raise (HTTPException 404 "User not found")
             end;
  let firebase_uid := uid user in
  let github_username := default "" (provider_username user) in
  do _ <- require (Py.truthy github_username) 400
            "GitHub username not found for this user";
  do github_oauth_token <- get_github_oauth_token api firebase_uid;
  do _ <- require (Py.truthy github_oauth_token) 400
            "GitHub OAuth token not found for this user";
  do user_orgs <- user_org_logins api github_oauth_token;
  let org_logins := map (lower api) user_orgs in
  do jwt <- create_jwt api;
  do response <- get_installations api jwt;
  do _ <- require (resp_status response =? 200)%Z (resp_status response)
            ("Failed to get installations: " +:+ resp_text response);
  let all_installations := resp_json response in
  let user_installations :=
    List.filter (is_user_installation api github_username org_logins)
      all_installations in
  do repos <- collect_repos api user_installations [];
  Ret (map repo_entry (unique_repos repos)).

(** [get_repos_for_user]: the value under ["repositories"]. Whatever the
    [try] block raises is caught by [except Exception]. *)
Definition get_repos_for_user (api : UserApi) (user_id : string)
    : outcome (list RepoEntry) :=
  match repos_try_body api user_id with
  | Ret repo_list => Ret repo_list
  | Raise e =>
      Raise (HTTPException 500
               ("Failed to fetch repositories: "
                +:+ user_exception_str api e))
  end.

(** The dictionary built for a project row. *)
Definition project_entry (project : ProjectRow) : RepoEntry :=
  mkRepoEntry (row_id project)
    (Py.last_segment (row_repo_name project))
    (row_repo_name project)
    false
    ("https://github.com/" +:+ row_repo_name project)
    (hd "" (Py.split_slash (row_repo_name project))).

(** [{**user_repo, "private": True}]. *)
Definition mark_private (r : RepoEntry) : RepoEntry :=
  mkRepoEntry (entry_id r) (entry_name r) (entry_full_name r) true
    (entry_url r) (entry_owner r).

(** [get_combined_user_repos]: the value under ["repositories"], given the
    rows the project query returned ([user_projects]), each with a
    repository name that is a string. A query that raises, or a row whose
    repository name is missing, ends the call before the repositories of
    the user are listed; that is outside this definition. *)
Definition get_combined_user_repos (api : UserApi) (user_id : string)
    : outcome (list RepoEntry) :=
  let projects := user_projects api user_id in
  let project_list := map project_entry projects in
  do user_repos <- get_repos_for_user api user_id;
  let db_project_full_names := map entry_full_name project_list in
  let filtered_user_repos :=
    map mark_private
      (List.filter
         (fun user_repo =>
            negb (existsb (String.eqb (entry_full_name user_repo))
                    db_project_full_names))
         user_repos) in
  Ret (rev (project_list ++ filtered_user_repos)).

(** * Notions used in the statements *)

(** ** The loop and the listing, as comprehensions *)

(** The child appended for an entry that is not a directory. *)
Definition file_of (item : ContentFile) : node :=
  FileEntry (item_name item) (item_path item).

(** Entries the loop appends as files. *)
Definition in_scope_file (base_path : option string) (item : ContentFile)
    : bool :=
  negb (out_of_scope base_path item) && negb (is_dir item).

(** Directory entries the loop queues a sub-walk for. *)
Definition in_scope_dir (base_path : option string) (item : ContentFile)
    : bool :=
  negb (out_of_scope base_path item) && is_dir item.

(** The sub-walks queued and the file children appended for a listing. *)
Definition queued (base_path : option string) (c : contents) : list string :=
  map item_path
    (List.filter (in_scope_dir base_path) (List.filter keep_item (as_list c))).

Definition appended (base_path : option string) (c : contents) : list node :=
  map file_of
    (List.filter (in_scope_file base_path) (List.filter keep_item (as_list c))).

(** ** Occurrence in a tree, handles that descend *)

(** [occurs x t]: [x] is [t] or one of its descendants. *)
Inductive occurs (x : node) : node -> Prop :=
| occurs_here : occurs x x
| occurs_child (name : string) (children : list node) (c : node) :
    In c children -> occurs x c -> occurs x (Directory name children).

(** A handle descends when every directory entry it lists, and the walker
    queues, lies deeper than the directory listed. The hosting service lists
    [p/name] under [p], so its handles descend. *)
Definition descends (repo : Repository) (base_path : option string) : Prop :=
  forall path c sub,
    get_contents repo path = Ret c ->
    In sub (as_list c) ->
    in_scope_dir base_path sub = true ->
    (compute_depth path base_path
     < compute_depth (item_path sub) base_path)%Z.

(** [path] lies under [base_path]: it starts with it when it is set. *)
Definition under_base (base_path : option string) (path : string) : Prop :=
  Py.truthy_opt base_path = true ->
  Py.startswith path (default "" base_path) = true.

(** ** The depth rule, in the specification's words *)

(** The number of "/" characters of a string. *)
Fixpoint count_slash (s : string) : nat :=
  match s with
  | EmptyString => O
  | String c r => ((if Ascii.eqb c Py.slash then 1 else 0) + count_slash r)%nat
  end.

(** Number of "/"-separated segments, 0 for the empty string. *)
Definition spec_segments (s : string) : Z :=
  if String.eqb s "" then 0%Z else Z.of_nat (S (count_slash s)).

(** What is left of [path] behind the prefix [base], if [path] starts with
    it. *)
Fixpoint spec_after_prefix (base path : string) : option string :=
  match base, path with
  | EmptyString, _ => Some path
  | String c b, String c' p =>
      if Ascii.eqb c c' then spec_after_prefix b p else None
  | String _ _, EmptyString => None
  end.

(** [path] with the prefix [base] taken off. *)
Definition spec_strip_prefix (base path : string) : string :=
  default path (spec_after_prefix base path).

(** A list of characters without its leading slashes. *)
Fixpoint spec_without_leading (l : list ascii) : list ascii :=
  match l with
  | c :: r => if Ascii.eqb c "/"%char then spec_without_leading r else l
  | [] => []
  end.

(** A string with leading and trailing slashes trimmed: the trailing
    slashes are the leading ones of the string read backwards. *)
Definition spec_trim_slashes (s : string) : string :=
  string_of_list_ascii
    (rev (spec_without_leading
            (rev (spec_without_leading (list_ascii_of_string s))))).

(** Effective depth: segments of [path] after the [base_path] prefix and the
    surrounding slashes are taken off when [base_path] is set, segments of
    [path] otherwise. *)
Definition spec_effective_depth (path : string) (base_path : option string)
    : Z :=
  match base_path with
  | Some (String c b) =>
      spec_segments (spec_trim_slashes (spec_strip_prefix (String c b) path))
  | _ => spec_segments path
  end.

(** ** Order of siblings and reordered trees *)

(** The order [sorted] compares keys with. *)
Definition key_le {A : Type} (key : A -> string) (a b : A) : Prop :=
  String.leb (key a) (key b) = true.

(** The line of a node at a given depth; none at depth 0. *)
Definition own_line (n : node) (depth : nat) : list string :=
  if (0 <? depth)%nat then [indent depth +:+ node_name n] else [].

(** [reordered t t']: [t'] is [t] with the children list of every node
    permuted. *)
#[warnings="-register-all"]
Inductive reordered : node -> node -> Prop :=
| reordered_file (name path : string) :
    reordered (FileEntry name path) (FileEntry name path)
| reordered_directory (name : string) (children mid children' : list node) :
    Forall2 reordered children mid ->
    Permutation mid children' ->
    reordered (Directory name children) (Directory name children').

(** No two strings of the list are equal. *)
Fixpoint all_distinct (l : list string) : bool :=
  match l with
  | [] => true
  | x :: r => negb (existsb (String.eqb x) r) && all_distinct r
  end.

(** At every node of the tree, the children carry pairwise distinct names. *)
Fixpoint distinct_siblings (t : node) : bool :=
  match t with
  | FileEntry _ _ => true
  | Directory _ children =>
      all_distinct (map node_name children)
      && forallb distinct_siblings children
  end.

(** ** Requests *)

(** The interactions every request that misses the cache starts with. *)
Definition lookup_events (project_id : string) (path : option string)
    : list event :=
  [EvCacheGet (cache_key project_id path); EvProjectLookup project_id].

(** The status code of a raised [HTTPException]. *)
Definition raised_status (o : outcome string) : option Z :=
  match o with
  | Raise (HTTPException status _) => Some status
  | _ => None
  end.

(** ** Example handles, trees and environments *)

(** A listing entry, written [type name path]. *)
Definition entry (type name path : string) : ContentFile :=
  mkContentFile type name path.

(** A handle with a healthy directory [good], a directory [bad] whose
    listing raises, and one file at the root. *)
Definition repo_partial : Repository :=
  mkRepository "demo" (fun p =>
    if String.eqb p "" then
      Ret (Listing [entry "dir" "good" "good"; entry "dir" "bad" "bad";
                    entry "file" "README.md" "README.md"])
    else if String.eqb p "good" then
      Ret (Listing [entry "file" "a.py" "good/a.py"])
    else Raise (OtherException "502 Bad Gateway")).

(** A handle whose directory [src] lists under the paths the hosting service
    reports, which carry no leading slash. *)
Definition repo_src : Repository :=
  mkRepository "demo" (fun p =>
    if String.eqb p "/src" then
      Ret (Listing [entry "dir" "lib" "src/lib";
                    entry "file" "main.py" "src/main.py"])
    else Raise (OtherException "404 Not Found")).

(** A handle with media files, a directory whose name carries an excluded
    extension, and files whose whole name is an excluded extension. *)
Definition repo_media : Repository :=
  mkRepository "demo" (fun p =>
    if String.eqb p "" then
      Ret (Listing [entry "file" "diagram.svg" "diagram.svg";
                    entry "dir" "images.svg" "images.svg";
                    entry "file" "png" "png";
                    entry "file" "mysvg" "mysvg";
                    entry "file" "notes.txt" "notes.txt"])
    else if String.eqb p "images.svg" then
      Ret (Listing [entry "file" "logo.png" "images.svg/logo.png";
                    entry "file" "index.txt" "images.svg/index.txt"])
    else Raise (OtherException "404 Not Found")).

(** A repository with no commit: every listing raises. *)
Definition repo_empty : Repository :=
  mkRepository "empty"
    (fun _ => Raise (OtherException "404 This repository is empty.")).

(** Two trees that differ only in the order of two equally named siblings. *)
Definition tree_dir_first : node :=
  Directory "repo" [Directory "a" [FileEntry "x" "a/x"]; FileEntry "a" "a"].

(** The same tree with the file listed first. *)
Definition tree_file_first : node :=
  Directory "repo" [FileEntry "a" "a"; Directory "a" [FileEntry "x" "a/x"]].

(** Two orders of the same listing, with distinct names. *)
Definition tree_listed : node :=
  Directory "repo"
    [FileEntry "b.txt" "b.txt";
     Directory "a" [FileEntry "z.py" "a/z.py"; FileEntry "m.py" "a/m.py"]].

(** [tree_listed] with the children of both directories swapped. *)
Definition tree_relisted : node :=
  Directory "repo"
    [Directory "a" [FileEntry "m.py" "a/m.py"; FileEntry "z.py" "a/z.py"];
     FileEntry "b.txt" "b.txt"].

(** An environment whose project table, credentials and cache store answer
    every request the same way. *)
Definition env_of (project : option Project) (repo : outcome Repository)
    (write_error : option string) : Env :=
  mkEnv (fun _ => project) (fun _ => repo) (fun _ => repo) write_error.

(** The answer of a credential that cannot open the repository. *)
Definition unreachable : outcome Repository :=
  Raise (OtherException "401 Bad credentials").

(** Project linked to the empty repository. *)
Definition env_empty_repo : Env :=
  env_of (Some (mkProject (Some "acme/empty"))) (Ret repo_empty) None.

(** Project row without a repository name. *)
Definition env_unlinked : Env :=
  env_of (Some (mkProject None)) unreachable None.

(** No project row. *)
Definition env_no_project : Env := env_of None unreachable None.

(** Project linked to [repo_partial]; the cache store refuses the write. *)
Definition env_cache_down : Env :=
  env_of (Some (mkProject (Some "acme/demo"))) (Ret repo_partial)
    (Some "Connection refused").

(** Project linked to [repo_partial]; the cache store accepts the write. *)
Definition env_partial : Env :=
  env_of (Some (mkProject (Some "acme/demo"))) (Ret repo_partial) None.

(** Project linked to a repository neither credential can open. *)
Definition env_locked : Env :=
  env_of (Some (mkProject (Some "acme/private"))) unreachable None.

(** The cache key of project [p1] with no scope path. *)
Definition key_p1 : string := cache_key "p1" None.

(** ** Well-formed tokens *)

(** [c in s]. *)
Fixpoint has_char (c : ascii) (s : string) : bool :=
  match s with
  | EmptyString => false
  | String x r => Ascii.eqb x c || has_char c r
  end.

(** A token is clean when it is not empty, carries no white space at either
    end and holds no comma. *)
Definition clean_token (t : string) : bool :=
  Py.truthy t && String.eqb (PyStr.strip t) t && negb (has_char ","%char t).

(** The first character, if any, is not white space. *)
Definition starts_clean (s : string) : bool :=
  match s with
  | EmptyString => true
  | String c _ => negb (PyStr.is_space c)
  end.

(** A branch API that answers every handle the same way. *)
Definition branches_of (default : outcome string)
    (names : outcome (list string)) : BranchApi :=
  mkBranchApi (fun _ => default) (fun _ => names).

(** ** Example file API *)

(** Five lines of text separated by newlines. *)
Definition five_lines : string :=
  PyStr.join Py.newline ["l1"; "l2"; "l3"; "l4"; "l5"].

(** A file API over a repository that has the directory [src] and, on its
    default branch only, files with the text [five_lines]: every read at
    an explicit ref raises. Text is detected as UTF-8 unless it is empty,
    decoding changes nothing, lines are split at newlines, and an
    [HTTPException] prints as its status and detail. *)
Definition file_api_demo : FileApi :=
  mkFileApi
    (fun _ path ref =>
       match ref with
       | Some _ => Raise (OtherException "404 No commit found for the ref")
       | None =>
           if String.eqb path "src" then Ret DirectoryContents
           else if String.eqb path "empty.bin" then Ret (FileContents (Ret ""))
           else Ret (FileContents (Ret five_lines))
       end)
    (fun content =>
       if Py.truthy content then mkDetection (Some "utf-8") false
       else mkDetection None true)
    (fun content _ => Ret content)
    (PyStr.split_on (ascii_of_nat 10))
    (fun status detail => pretty status +:+ ": " +:+ detail).

(** The same API, with every read answered as on the default branch. *)
Definition file_api_any_ref : FileApi :=
  mkFileApi
    (fun repo path _ => read_contents file_api_demo repo path None)
    (chardet_detect file_api_demo) (decode file_api_demo)
    (splitlines file_api_demo) (http_exception_str file_api_demo).

(** ** Dictionaries as item lists; example user API *)

(** [d.get(k)]. *)
Fixpoint dict_get {V : Type} (k : Z) (d : list (Z * V)) : option V :=
  match d with
  | [] => None
  | (k', v) :: rest => if (k' =? k)%Z then Some v else dict_get k rest
  end.

(** The dictionary of the comprehension, after the repositories [repos]
    have been entered into [d]. *)
Definition enter_repos (repos : list GithubRepo)
    (d : list (Z * GithubRepo)) : list (Z * GithubRepo) :=
  fold_left (fun d repo => dict_set (gh_id repo) repo d) repos d.

(** The last repository of the list that carries the id [k]. *)
Definition last_with_id (k : Z) (repos : list GithubRepo)
    : option GithubRepo :=
  List.find (fun repo => (gh_id repo =? k)%Z) (rev repos).

(** What an installation contributes to the list: its repositories when
    the response is a 200, nothing otherwise. *)
Definition contribution (api : UserApi) (installation : Installation)
    : list GithubRepo :=
  match get_installation_repos api installation with
  | Ret r => if (resp_status r =? 200)%Z then resp_json r else []
  | Raise _ => []
  end.

(** Lower case for the letters A to Z. *)
Definition ascii_lower (c : ascii) : ascii :=
  let n := nat_of_ascii c in
  if Nat.leb 65 n && Nat.leb n 90 then ascii_of_nat (n + 32) else c.

Fixpoint string_lower (s : string) : string :=
  match s with
  | EmptyString => EmptyString
  | String c r => String (ascii_lower c) (string_lower r)
  end.

(** A user API with one user, member of the organisation Acme. The App has
    four installations: the user's own, Acme's, a stranger's, and one of
    Acme's whose repositories cannot be listed. Repository 11 is listed by
    two installations. *)
Definition user_api_demo : UserApi :=
  mkUserApi
    (fun id =>
       if String.eqb id "u1"
       then Some (mkUser "u1" (Some "Alice") {[ "access_token" := "gho_x" ]})
       else if String.eqb id "u2"
       then Some (mkUser "u2" (Some "Bob") ∅)
       else None)
    (fun _ => [mkProjectRow (StrId "p1") "acme/api";
               mkProjectRow (StrId "p2") "alice/old"])
    (fun _ => Ret ["Acme"])
    (Ret "jwt")
    (fun _ =>
       Ret (mkResponse 200 ""
              [mkInstallation 1 "alice" "User" "url1";
               mkInstallation 2 "ACME" "Organization" "url2";
               mkInstallation 3 "mallory" "User" "url3";
               mkInstallation 4 "acme" "Organization" "url4"]))
    (fun installation =>
       if (installation_id installation =? 1)%Z then
         Ret (mkResponse 200 ""
                [mkGithubRepo 10 "site" "alice/site" false "h10" "alice";
                 mkGithubRepo 11 "lib" "alice/lib" false "h11" "alice"])
       else if (installation_id installation =? 2)%Z then
         Ret (mkResponse 200 ""
                [mkGithubRepo 11 "lib" "acme/lib" true "h11b" "acme";
                 mkGithubRepo 12 "api" "acme/api" true "h12" "acme"])
       else Ret (mkResponse 503 "unavailable" []))
    string_lower
    (fun status detail => pretty status +:+ ": " +:+ detail).

(** Every item is filed under the id of its repository. *)
Definition filed_by_id (d : list (Z * GithubRepo)) : Prop :=
  List.Forall (fun item => fst item = gh_id (snd item)) d.

(** The installations of [user_api_demo] that belong to the user Alice or
    to Acme. *)
Definition demo_installations : list Installation :=
  [mkInstallation 1 "alice" "User" "url1";
   mkInstallation 2 "ACME" "Organization" "url2";
   mkInstallation 4 "acme" "Organization" "url4"].

(** The repositories that [user_api_demo] lists for the user [u1]. *)
Definition demo_repo_list : list RepoEntry :=
  [mkRepoEntry (IntId 10) "site" "alice/site" false "h10" "alice";
   mkRepoEntry (IntId 11) "lib" "acme/lib" true "h11b" "acme";
   mkRepoEntry (IntId 12) "api" "acme/api" true "h12" "acme"].

(** The user repositories that are kept beside the projects: those whose
    full name is not the repository name of a project. *)
Definition kept_user_repos (projects : list ProjectRow)
    (user_repos : list RepoEntry) : list RepoEntry :=
  List.filter
    (fun user_repo =>
       negb (existsb (String.eqb (entry_full_name user_repo))
               (map row_repo_name projects)))
    user_repos.

(** GitHub as seen through the token pool: one token is valid, every other
    one is refused. *)
Definition demo_open_repo (token repo_name : string) : outcome Repository :=
  if String.eqb token "ghp_valid" then Ret repo_partial
  else Raise (OtherException "401 Bad credentials").

(** ** Measures of trees and traces *)

(** Number of nodes of a tree, the root included. *)
Fixpoint node_count (t : node) : nat :=
  match t with
  | FileEntry _ _ => 1
  | Directory _ children => S (list_sum (map node_count children))
  end.

(** Number of directory nodes of a tree. *)
Fixpoint directory_count (t : node) : nat :=
  match t with
  | FileEntry _ _ => 0
  | Directory _ children => S (list_sum (map directory_count children))
  end.

Definition is_directory (t : node) : bool :=
  match t with
  | Directory _ _ => true
  | FileEntry _ _ => false
  end.

Definition is_walk (e : event) : bool :=
  match e with
  | EvWalk _ => true
  | _ => false
  end.

(** Number of entries into the walker recorded in a trace. *)
Definition walk_count (tr : list event) : nat :=
  length (List.filter is_walk tr).

(** ** Induction on trees *)

(** The induction principle that reaches into the children list. *)
Section NodeInduction.

Variable P : node -> Prop.
Hypothesis P_directory :
  forall name children, Forall P children -> P (Directory name children).
Hypothesis P_file : forall name path, P (FileEntry name path).

Fixpoint node_ind' (n : node) : P n :=
  match n with
  | Directory name children =>
      P_directory name children
        ((fix all (l : list node) : Forall P l :=
            match l with
            | [] => @List.Forall_nil node P
            | c :: r => @List.Forall_cons node P c r (node_ind' c) (all r)
            end) children)
  | FileEntry name path => P_file name path
  end.

End NodeInduction.

(** * Properties *)

(** ** Facts about the string primitives *)

Lemma append_cons (c : ascii) (s t : string) :
  String c s +:+ t = String c (s +:+ t).
Proof. reflexivity. Qed.

Lemma drop_chars_app (a b : string) :
  Py.drop_chars (String.length a) (a +:+ b) = b.
Proof.
  induction a as [|x a IH]; [reflexivity |].
  rewrite append_cons. simpl. exact IH.
Qed.

Lemma endswith_refl (s : string) : Py.endswith s s = true.
Proof.
  destruct s as [|c s]; [reflexivity |].
  change (String.eqb (String c s) (String c s)
          || Py.endswith s (String c s) = true).
  now rewrite String.eqb_refl.
Qed.

Lemma endswith_app (pre suffix : string) :
  Py.endswith (pre +:+ suffix) suffix = true.
Proof.
  induction pre as [|c pre IH].
  - apply endswith_refl.
  - rewrite append_cons. cbn [Py.endswith]. rewrite IH. apply orb_true_r.
Qed.

Lemma endswith_inv (s suffix : string) :
  Py.endswith s suffix = true -> exists pre, s = pre +:+ suffix.
Proof.
  induction s as [|c s IH]; cbn [Py.endswith]; intros H.
  - rewrite orb_false_r in H. apply String.eqb_eq in H. now exists "".
  - apply orb_true_iff in H as [H | H].
    + apply String.eqb_eq in H. now exists "".
    + destruct (IH H) as [pre ->]. now exists (String c pre).
Qed.

Lemma split_slash_nonempty (s : string) : Py.split_slash s <> [].
Proof.
  induction s as [|c s IH]; simpl; [discriminate |].
  destruct (Ascii.eqb c Py.slash); [discriminate |].
  destruct (Py.split_slash s); [contradiction | discriminate].
Qed.

Lemma split_slash_length (s : string) :
  length (Py.split_slash s) = S (count_slash s).
Proof.
  induction s as [|c s IH]; simpl; [reflexivity |].
  destruct (Ascii.eqb c Py.slash); simpl.
  - now rewrite IH.
  - pose proof (split_slash_nonempty s) as Hne.
    destruct (Py.split_slash s); [contradiction | exact IH].
Qed.

(** Every excluded extension, with any prefix at all in front, is caught by
    the suffix test. *)
Lemma has_excluded_extension_app (pre ext : string) :
  In ext exclude_extensions -> has_excluded_extension (pre +:+ ext) = true.
Proof.
  intros Hin. unfold has_excluded_extension.
  apply existsb_exists. exists ext. split; [exact Hin | apply endswith_app].
Qed.

Lemma has_excluded_extension_endswith (name ext : string) :
  In ext exclude_extensions -> Py.endswith name ext = true ->
  has_excluded_extension name = true.
Proof.
  intros Hin Hend. unfold has_excluded_extension.
  apply existsb_exists. now exists ext.
Qed.

(** ** The loop over a listing, as two comprehensions *)

Lemma loop_from (base_path : option string) (items : list ContentFile)
    (files : list node) (tasks : list string) :
  fold_left (loop_step base_path) items (files, tasks) =
  (files ++ map file_of (List.filter (in_scope_file base_path) items),
   tasks ++ map item_path (List.filter (in_scope_dir base_path) items)).
Proof.
  revert files tasks.
  induction items as [|item items IH]; intros files tasks; simpl.
  - now rewrite !app_nil_r.
  - unfold loop_step at 2, in_scope_file, in_scope_dir.
    destruct (out_of_scope base_path item); simpl.
    + apply IH.
    + destruct (is_dir item); simpl; rewrite IH; simpl;
        now rewrite <- ?app_assoc.
Qed.

Lemma loop_spec (base_path : option string) (items : list ContentFile) :
  loop base_path items =
  (map file_of (List.filter (in_scope_file base_path) items),
   map item_path (List.filter (in_scope_dir base_path) items)).
Proof. unfold loop. now rewrite loop_from. Qed.

(** ** [gather] *)

Lemma gather_map_Some {A B : Type} (f : A -> option B) (l : list A)
    (rs : list B) :
  gather (map f l) = Some rs -> Forall2 (fun x r => f x = Some r) l rs.
Proof.
  revert rs. induction l as [|x l IH]; simpl; intros rs H.
  - injection H as <-. constructor.
  - destruct (f x) as [r|] eqn:Hx; [|discriminate].
    destruct (gather (map f l)) as [rs'|]; [|discriminate].
    injection H as <-. constructor; [exact Hx | now apply IH].
Qed.

Lemma gather_map_total {A B : Type} (f : A -> option B) (l : list A) :
  (forall x, In x l -> exists r, f x = Some r) ->
  exists rs, gather (map f l) = Some rs.
Proof.
  induction l as [|x l IH]; simpl; intros H.
  - now exists [].
  - destruct (H x (or_introl eq_refl)) as [r ->].
    destruct IH as [rs ->]; [intros y Hy; apply H; now right |].
    now exists (r :: rs).
Qed.

Lemma Forall2_In_l {A B : Type} (R : A -> B -> Prop) (l : list A)
    (rs : list B) (x : A) :
  Forall2 R l rs -> In x l -> exists r, In r rs /\ R x r.
Proof.
  induction 1 as [|a b l rs Hab _ IH]; simpl; [contradiction |].
  intros [-> | Hin].
  - exists b. auto.
  - destruct (IH Hin) as (r & Hr & HR). exists r. auto.
Qed.

Lemma Forall2_In_r {A B : Type} (R : A -> B -> Prop) (l : list A)
    (rs : list B) (r : B) :
  Forall2 R l rs -> In r rs -> exists x, In x l /\ R x r.
Proof.
  induction 1 as [|a b l rs Hab _ IH]; simpl; [contradiction |].
  intros [-> | Hin].
  - exists a. auto.
  - destruct (IH Hin) as (x & Hx & HR). exists x. auto.
Qed.

(** ** Occurrence of a node in a tree *)

Lemma occurs_file_inv (x : node) (name path : string) :
  occurs x (FileEntry name path) -> x = FileEntry name path.
Proof. inversion 1; reflexivity. Qed.

Lemma occurs_file_in_directory (fname fpath name : string)
    (children : list node) :
  occurs (FileEntry fname fpath) (Directory name children) ->
  exists c, In c children /\ occurs (FileEntry fname fpath) c.
Proof. inversion 1; subst. exists c. auto. Qed.

(** ** The walker, one call unfolded *)

Lemma walker_unfold (fuel : nat) (repo : Repository) (path : string)
    (current_depth : Z) (base_path : option string) :
  _fetch_repo_structure_async (S fuel) repo path current_depth base_path =
  if (max_depth <=? compute_depth path base_path)%Z then
    Some (Directory (structure_name repo path) [truncated_marker],
          [EvWalk path])
  else
    match get_contents repo path with
    | Raise _ =>
        Some (Directory (structure_name repo path) [],
              [EvWalk path; EvList path])
    | Ret c =>
        match gather (map (fun p =>
                 _fetch_repo_structure_async fuel repo p
                   (compute_depth path base_path) base_path)
                 (queued base_path c)) with
        | None => None
        | Some results =>
            Some (Directory (structure_name repo path)
                    (appended base_path c ++ map fst results),
                  EvWalk path :: EvList path :: concat (map snd results))
        end
    end.
Proof.
  cbn [_fetch_repo_structure_async].
  destruct (max_depth <=? compute_depth path base_path)%Z; [reflexivity |].
  destruct (get_contents repo path) as [c | e]; [| reflexivity].
  rewrite loop_spec. reflexivity.
Qed.

Lemma walker_depth_irrelevant (fuel : nat) (repo : Repository)
    (path : string) (d1 d2 : Z) (base_path : option string) :
  _fetch_repo_structure_async fuel repo path d1 base_path =
  _fetch_repo_structure_async fuel repo path d2 base_path.
Proof. destruct fuel; reflexivity. Qed.

Lemma walker_returns_directory (fuel : nat) (repo : Repository)
    (path : string) (d : Z) (base_path : option string) (t : node)
    (tr : list event) :
  _fetch_repo_structure_async fuel repo path d base_path = Some (t, tr) ->
  t = Directory (structure_name repo path) (node_children t).
Proof.
  destruct fuel as [|fuel]; [discriminate |].
  rewrite walker_unfold.
  destruct (max_depth <=? compute_depth path base_path)%Z.
  - now intros [= <- <-].
  - destruct (get_contents repo path) as [c | e].
    + destruct (gather _) as [results |]; [| discriminate].
      now intros [= <- <-].
    + now intros [= <- <-].
Qed.

(** Fuel is only a bound: more of it never changes a result. *)
Lemma walker_fuel_mono (fuel : nat) :
  forall (repo : Repository) (path : string) (d : Z)
         (base_path : option string) (r : node * list event),
  _fetch_repo_structure_async fuel repo path d base_path = Some r ->
  _fetch_repo_structure_async (S fuel) repo path d base_path = Some r.
Proof.
  induction fuel as [|fuel IH]; intros repo path d base_path r;
    [discriminate |].
  rewrite (walker_unfold fuel), (walker_unfold (S fuel)).
  destruct (max_depth <=? compute_depth path base_path)%Z; [trivial |].
  destruct (get_contents repo path) as [c | e]; [| trivial].
  generalize (queued base_path c) as tasks. intros tasks.
  assert (Hg : forall rs,
    gather (map (fun p => _fetch_repo_structure_async fuel repo p
                   (compute_depth path base_path) base_path) tasks) = Some rs ->
    gather (map (fun p => _fetch_repo_structure_async (S fuel) repo p
                   (compute_depth path base_path) base_path) tasks) = Some rs).
  { induction tasks as [|p tasks IHt]; intros rs; [trivial |].
    cbn [map gather].
    destruct (_fetch_repo_structure_async fuel repo p _ _) as [r0|] eqn:Hp;
      [| discriminate].
    rewrite (IH _ _ _ _ _ Hp).
    destruct (gather (map _ tasks)) as [rs0|]; [| discriminate].
    now rewrite (IHt rs0 eq_refl). }
  destruct (gather (map (fun p => _fetch_repo_structure_async fuel _ _ _ _) _))
    as [rs|]; [| discriminate].
  now rewrite (Hg rs eq_refl).
Qed.

(** No file entry of a returned tree carries an excluded extension. *)
Lemma walker_files_kept (fuel : nat) :
  forall (repo : Repository) (path : string) (d : Z)
         (base_path : option string) (t : node) (tr : list event),
  _fetch_repo_structure_async fuel repo path d base_path = Some (t, tr) ->
  forall name p, occurs (FileEntry name p) t ->
  has_excluded_extension name = false.
Proof.
  induction fuel as [|fuel IH]; intros repo path d base_path t tr;
    [discriminate |].
  rewrite walker_unfold.
  destruct (max_depth <=? compute_depth path base_path)%Z.
  { intros [= <- <-] name p Hocc.
    apply occurs_file_in_directory in Hocc as (c & [<- | []] & Hc).
    apply occurs_file_inv in Hc. now injection Hc as -> ->. }
  destruct (get_contents repo path) as [c | e].
  2:{ intros [= <- <-] name p Hocc.
      now apply occurs_file_in_directory in Hocc as (c & [] & _). }
  destruct (gather _) as [results |] eqn:Hg; [| discriminate].
  intros [= <- <-] name p Hocc.
  apply occurs_file_in_directory in Hocc as (ch & Hin & Hch).
  apply in_app_or in Hin as [Hin | Hin].
  - unfold appended in Hin. apply in_map_iff in Hin as (item & <- & Hitem).
    apply filter_In in Hitem as [Hitem Hscope].
    apply filter_In in Hitem as [_ Hkeep].
    apply occurs_file_inv in Hch. injection Hch as -> ->.
    unfold in_scope_file in Hscope. unfold keep_item in Hkeep.
    apply andb_true_iff in Hscope as [_ Hnd].
    destruct (is_dir item); [discriminate |].
    now destruct (has_excluded_extension (item_name item)).
  - apply in_map_iff in Hin as ([sub tr'] & <- & Hr).
    apply gather_map_Some in Hg.
    destruct (Forall2_In_r _ _ _ _ Hg Hr) as (q & _ & Hq).
    exact (IH _ _ _ _ _ _ Hq name p Hch).
Qed.

Lemma segments_of_split (s : string) :
  (if Py.truthy s then Z.of_nat (length (Py.split_slash s)) else 0%Z)
  = spec_segments s.
Proof.
  unfold spec_segments. destruct s as [|c s]; [reflexivity |].
  now rewrite split_slash_length.
Qed.

(** ** Claims about the walker *)

(** C1. When the depth computed from [path] (relative to [base_path] when it
    is set, from the root otherwise) is at least 4, the walker returns a
    directory node whose only child is the entry named "..." with path
    "truncated". The only interaction is the entry into the walker: nothing
    is listed, and one unit of fuel suffices, so no call is nested. *)
Theorem C1_truncated_at_max_depth (fuel : nat) (repo : Repository)
    (path : string) (current_depth : Z) (base_path : option string) :
  (4 <= compute_depth path base_path)%Z ->
  _fetch_repo_structure_async (S fuel) repo path current_depth base_path =
  Some (Directory (structure_name repo path) [FileEntry "..." "truncated"],
        [EvWalk path]).
Proof.
  intros Hdepth. rewrite walker_unfold.
  destruct (max_depth <=? compute_depth path base_path)%Z eqn:Hcmp;
    [reflexivity |].
  apply Z.leb_gt in Hcmp. unfold max_depth in Hcmp. lia.
Qed.

Lemma C1_truncated_at_max_depth_witness :
  (4 <= compute_depth "src/a/b/c/d" (Some "src"))%Z /\
  _fetch_repo_structure_async 1 repo_partial "src/a/b/c/d" 0 (Some "src") =
  Some (Directory "d" [FileEntry "..." "truncated"], [EvWalk "src/a/b/c/d"]).
Proof.
  split; [vm_compute; discriminate |].
  apply (C1_truncated_at_max_depth 0 repo_partial "src/a/b/c/d" 0
           (Some "src")).
  vm_compute; discriminate.
Defined.

(** A walk started under [base_path] enters the walker only at paths under
    [base_path]: the scope guard lets no other path be queued. *)
Lemma walker_calls_under_base (fuel : nat) :
  forall (repo : Repository) (path : string) (d : Z)
         (base_path : option string) (t : node) (tr : list event),
  under_base base_path path ->
  _fetch_repo_structure_async fuel repo path d base_path = Some (t, tr) ->
  forall p, In (EvWalk p) tr -> under_base base_path p.
Proof.
  induction fuel as [|fuel IH]; intros repo path d base_path t tr Hpath;
    [discriminate |].
  rewrite walker_unfold.
  destruct (max_depth <=? compute_depth path base_path)%Z.
  { intros [= <- <-] p [[= <-] | []]. exact Hpath. }
  destruct (get_contents repo path) as [c | e].
  2:{ intros [= <- <-] p [[= <-] | [[=] | []]]. exact Hpath. }
  destruct (gather _) as [results |] eqn:Hg; [| discriminate].
  intros [= <- <-] p [[= <-] | [[=] | Hin]]; [exact Hpath |].
  apply in_concat in Hin as (tr' & Htr' & Hp).
  apply in_map_iff in Htr' as ([t' tr''] & <- & Hr).
  apply gather_map_Some in Hg.
  destruct (Forall2_In_r _ _ _ _ Hg Hr) as (q & Hq & Hrun).
  apply (IH _ _ _ _ _ _) with (p := p) in Hrun; [exact Hrun | | exact Hp].
  unfold queued in Hq. apply in_map_iff in Hq as (sub & <- & Hsub).
  apply filter_In in Hsub as [_ Hscope].
  unfold in_scope_dir in Hscope. apply andb_true_iff in Hscope as [Hscope _].
  apply negb_true_iff in Hscope. intros Hset.
  unfold out_of_scope in Hscope.
  destruct base_path as [base |]; [| discriminate Hset].
  cbn [Py.truthy_opt] in Hset. rewrite Hset in Hscope.
  cbn [andb] in Hscope. apply negb_false_iff in Hscope. exact Hscope.
Qed.

(** The prefix test and the slice of the code against the specification's
    "prefix stripped". *)
Lemma after_prefix_drop (base : string) :
  forall path,
  String.prefix base path = true ->
  spec_after_prefix base path =
  Some (Py.drop_chars (String.length base) path).
Proof.
  induction base as [|c b IH]; intros path; [reflexivity |].
  destruct path as [|c' p]; cbn [String.prefix]; [discriminate |].
  destruct (ascii_dec c c') as [<- | Hne]; [| discriminate].
  intros Hpre. cbn [spec_after_prefix String.length Py.drop_chars].
  rewrite Ascii.eqb_refl. now apply IH.
Qed.

(** [lstrip("/")] and [rstrip("/")] against the specification's "leading
    and trailing slashes trimmed". *)
Lemma lstrip_slash_chars (s : string) :
  list_ascii_of_string (Py.lstrip_slash s) =
  spec_without_leading (list_ascii_of_string s).
Proof.
  induction s as [|c s IH]; [reflexivity |].
  cbn [Py.lstrip_slash list_ascii_of_string spec_without_leading].
  unfold Py.slash. now destruct (Ascii.eqb c "/"%char).
Qed.

Lemma without_leading_snoc (l : list ascii) (c : ascii) :
  spec_without_leading (l ++ [c]) =
  match spec_without_leading l with
  | [] => if Ascii.eqb c "/"%char then [] else [c]
  | x :: r => (x :: r) ++ [c]
  end.
Proof.
  induction l as [|a l IH]; cbn [app spec_without_leading].
  - now destruct (Ascii.eqb c "/"%char).
  - destruct (Ascii.eqb a "/"%char); [exact IH | reflexivity].
Qed.

Lemma chars_nil (s : string) : list_ascii_of_string s = [] -> s = "".
Proof. destruct s; [reflexivity | discriminate]. Qed.

Lemma rstrip_slash_chars (s : string) :
  list_ascii_of_string (Py.rstrip_slash s) =
  rev (spec_without_leading (rev (list_ascii_of_string s))).
Proof.
  induction s as [|c s IH]; [reflexivity |].
  cbn [Py.rstrip_slash list_ascii_of_string rev]. cbv zeta.
  rewrite without_leading_snoc. unfold Py.slash.
  destruct (spec_without_leading (rev (list_ascii_of_string s)))
    as [|x r] eqn:Hw.
  - cbn [rev] in IH. apply chars_nil in IH. rewrite IH.
    cbn [Py.truthy negb]. rewrite andb_true_r.
    now destruct (Ascii.eqb c "/"%char).
  - destruct (Py.rstrip_slash s) as [|y t] eqn:Hr.
    + exfalso. cbn [list_ascii_of_string] in IH.
      apply (f_equal (@length ascii)) in IH.
      rewrite length_rev in IH. discriminate IH.
    + cbn [Py.truthy negb]. rewrite andb_false_r.
      cbn [list_ascii_of_string]. rewrite rev_app_distr.
      cbn [rev app]. f_equal. exact IH.
Qed.

Lemma strip_slash_trim (s : string) :
  Py.strip_slash s = spec_trim_slashes s.
Proof.
  unfold Py.strip_slash, spec_trim_slashes.
  rewrite <- lstrip_slash_chars, <- rstrip_slash_chars.
  now rewrite string_of_list_ascii_of_string.
Qed.

(** The depth computed by the code is the depth of the specification for
    every path under the base path. *)
Lemma compute_depth_spec (path : string) (base_path : option string) :
  under_base base_path path ->
  compute_depth path base_path = spec_effective_depth path base_path.
Proof.
  destruct base_path as [[|c b] |]; intros Hpre;
    cbn [compute_depth Py.truthy].
  - apply segments_of_split.
  - specialize (Hpre eq_refl).
    change (String.prefix (String c b) path = true) in Hpre.
    cbv zeta. rewrite segments_of_split.
    unfold spec_effective_depth, spec_strip_prefix.
    rewrite (after_prefix_drop _ _ Hpre). cbn [default].
    now rewrite strip_slash_trim.
  - apply segments_of_split.
Qed.

(** A listing is issued only by a call whose computed depth is below the
    limit, and that call is recorded. *)
Lemma walker_listed_below_limit (fuel : nat) :
  forall (repo : Repository) (path : string) (d : Z)
         (base_path : option string) (t : node) (tr : list event),
  _fetch_repo_structure_async fuel repo path d base_path = Some (t, tr) ->
  forall p, In (EvList p) tr ->
    (compute_depth p base_path < max_depth)%Z.
Proof.
  induction fuel as [|fuel IH]; intros repo path d base_path t tr;
    [discriminate |].
  rewrite walker_unfold.
  destruct (max_depth <=? compute_depth path base_path)%Z eqn:Hcmp.
  { intros [= <- <-] p [[=] | []]. }
  apply Z.leb_gt in Hcmp.
  destruct (get_contents repo path) as [c | e].
  2:{ intros [= <- <-] p [[=] | [[= <-] | []]]. exact Hcmp. }
  destruct (gather _) as [results |] eqn:Hg; [| discriminate].
  intros [= <- <-] p [[=] | [[= <-] | Hin]]; [exact Hcmp |].
  apply in_concat in Hin as (tr' & Htr' & Hp).
  apply in_map_iff in Htr' as ([t' tr''] & <- & Hr).
  apply gather_map_Some in Hg.
  destruct (Forall2_In_r _ _ _ _ Hg Hr) as (q & _ & Hrun).
  exact (IH _ _ _ _ _ _ Hrun p Hp).
Qed.

(** Every call of a walk lists its directory exactly when its computed
    depth is below the limit. *)
Lemma walker_lists_iff_below_limit (fuel : nat) :
  forall (repo : Repository) (path : string) (d : Z)
         (base_path : option string) (t : node) (tr : list event),
  _fetch_repo_structure_async fuel repo path d base_path = Some (t, tr) ->
  forall p, In (EvWalk p) tr ->
    (In (EvList p) tr <-> (compute_depth p base_path < max_depth)%Z).
Proof.
  intros repo path d base_path t tr Hrun p Hwalk.
  split; [exact (walker_listed_below_limit _ _ _ _ _ _ _ Hrun p) |].
  revert repo path d base_path t tr Hrun p Hwalk.
  induction fuel as [|fuel IH]; intros repo path d base_path t tr;
    [discriminate |].
  rewrite walker_unfold.
  destruct (max_depth <=? compute_depth path base_path)%Z eqn:Hcmp.
  { intros [= <- <-] p [[= <-] | []] Hlt. apply Z.leb_le in Hcmp. lia. }
  destruct (get_contents repo path) as [c | e].
  2:{ intros [= <- <-] p [[= <-] | [[=] | []]] _. right. now left. }
  destruct (gather _) as [results |] eqn:Hg; [| discriminate].
  intros [= <- <-] p [[= <-] | [[=] | Hin]] Hlt; [right; now left |].
  apply in_concat in Hin as (tr' & Htr' & Hp).
  apply in_map_iff in Htr' as ([t' tr''] & <- & Hr).
  apply gather_map_Some in Hg.
  destruct (Forall2_In_r _ _ _ _ Hg Hr) as (q & _ & Hrun).
  right. right. apply in_concat. exists tr''.
  split; [now apply (in_map snd) in Hr |].
  exact (IH _ _ _ _ _ _ Hrun p Hp Hlt).
Qed.

(** C2. The walker's result does not depend on the [current_depth] it is
    called with. The depth it computes from [path] is the number of
    "/"-separated segments of [path] once the [base_path] prefix and the
    surrounding slashes are taken off when [base_path] is set, the number
    of segments of [path] otherwise, 0 for an empty remainder. That depth
    decides what a call does: at 4 or more the call returns the truncated
    node without listing, below 4 it lists [path] and walks the queued
    directories. The same holds at every entry into the walker made during
    a walk that was started under [base_path]: the directory entered is
    listed exactly when its depth, counted that way, is below 4. *)
Theorem C2_depth_recomputed_from_path :
  (forall (fuel : nat) (repo : Repository) (path : string) (d1 d2 : Z)
          (base_path : option string),
     _fetch_repo_structure_async fuel repo path d1 base_path =
     _fetch_repo_structure_async fuel repo path d2 base_path) /\
  (forall (path : string) (base_path : option string),
     (Py.truthy_opt base_path = true ->
      Py.startswith path (default "" base_path) = true) ->
     compute_depth path base_path = spec_effective_depth path base_path) /\
  (forall (fuel : nat) (repo : Repository) (path : string) (d : Z)
          (base_path : option string),
     (Py.truthy_opt base_path = true ->
      Py.startswith path (default "" base_path) = true) ->
     _fetch_repo_structure_async (S fuel) repo path d base_path =
     if (4 <=? spec_effective_depth path base_path)%Z then
       Some (Directory (structure_name repo path)
               [FileEntry "..." "truncated"],
             [EvWalk path])
     else
       match get_contents repo path with
       | Raise _ =>
           Some (Directory (structure_name repo path) [],
                 [EvWalk path; EvList path])
       | Ret c =>
           match gather (map (fun p =>
                    _fetch_repo_structure_async fuel repo p
                      (spec_effective_depth path base_path) base_path)
                    (queued base_path c)) with
           | None => None
           | Some results =>
               Some (Directory (structure_name repo path)
                       (appended base_path c ++ map fst results),
                     EvWalk path :: EvList path :: concat (map snd results))
           end
       end) /\
  (forall (fuel : nat) (repo : Repository) (path : string) (d : Z)
          (base_path : option string) (t : node) (tr : list event),
     (Py.truthy_opt base_path = true ->
      Py.startswith path (default "" base_path) = true) ->
     _fetch_repo_structure_async fuel repo path d base_path = Some (t, tr) ->
     forall p, In (EvWalk p) tr ->
       compute_depth p base_path = spec_effective_depth p base_path /\
       (In (EvList p) tr <-> (spec_effective_depth p base_path < 4)%Z)).
Proof.
  split; [| split; [| split]].
  - intros. apply walker_depth_irrelevant.
  - intros path base_path Hpre. now apply compute_depth_spec.
  - intros fuel repo path d base_path Hpre.
    rewrite walker_unfold. rewrite (compute_depth_spec _ _ Hpre).
    reflexivity.
  - intros fuel repo path d base_path t tr Hpre Hrun p Hp.
    assert (Hspec : compute_depth p base_path
                    = spec_effective_depth p base_path).
    { apply compute_depth_spec.
      exact (walker_calls_under_base _ _ _ _ _ _ _ Hpre Hrun p Hp). }
    split; [exact Hspec |]. rewrite <- Hspec.
    exact (walker_lists_iff_below_limit _ _ _ _ _ _ _ Hrun p Hp).
Qed.

Lemma C2_depth_recomputed_from_path_witness :
  (spec_effective_depth "src/a/b/c/d" (Some "src") = 4%Z /\
   _fetch_repo_structure_async 1 repo_partial "src/a/b/c/d" 0 (Some "src") =
   Some (Directory "d" [FileEntry "..." "truncated"],
         [EvWalk "src/a/b/c/d"])) /\
  (spec_effective_depth "good" None = 1%Z /\
   In (EvList "good")
      [EvWalk ""; EvList ""; EvWalk "good"; EvList "good";
       EvWalk "bad"; EvList "bad"]).
Proof.
  split.
  - split; [reflexivity |].
    rewrite (proj1 (proj2 (proj2 C2_depth_recomputed_from_path))
               0%nat repo_partial "src/a/b/c/d" 0%Z (Some "src"));
      [reflexivity |].
    intros _. reflexivity.
  - split; [reflexivity |].
    apply (proj2 (proj2 (proj2 (proj2 C2_depth_recomputed_from_path))
                    2%nat repo_partial "" 0%Z None
                    (Directory "demo"
                       [FileEntry "README.md" "README.md";
                        Directory "good" [FileEntry "a.py" "good/a.py"];
                        Directory "bad" []])
                    [EvWalk ""; EvList ""; EvWalk "good"; EvList "good";
                     EvWalk "bad"; EvList "bad"]
                    (fun H => False_ind _ (Bool.diff_false_true H))
                    eq_refl "good"
                    (or_intror (or_intror (or_introl eq_refl))))).
    reflexivity.
Defined.

(** C3. A listing that raises is absorbed by the call that issued it: that
    call returns its directory node with the children collected so far,
    which are none. Hence a directory whose listing succeeds returns its
    node whenever every queued sub-walk either hits a raising listing or
    returns, and that node holds every retained file of the listing and the
    node of every queued sub-directory, the failed ones included. *)
Theorem C3_listing_failure_is_contained :
  (forall (fuel : nat) (repo : Repository) (path : string) (d : Z)
          (base_path : option string) (e : exn),
     get_contents repo path = Raise e ->
     (compute_depth path base_path < max_depth)%Z ->
     _fetch_repo_structure_async (S fuel) repo path d base_path =
     Some (Directory (structure_name repo path) [],
           [EvWalk path; EvList path])) /\
  (forall (fuel : nat) (repo : Repository) (path : string) (d : Z)
          (base_path : option string) (c : contents),
     get_contents repo path = Ret c ->
     (compute_depth path base_path < max_depth)%Z ->
     (forall sub, In sub (as_list c) -> in_scope_dir base_path sub = true ->
        (exists e, get_contents repo (item_path sub) = Raise e) \/
        (exists r, _fetch_repo_structure_async (S fuel) repo (item_path sub)
                     d base_path = Some r)) ->
     exists t tr,
       _fetch_repo_structure_async (S (S fuel)) repo path d base_path
       = Some (t, tr) /\
       node_name t = structure_name repo path /\
       (forall f, In f (as_list c) -> keep_item f = true ->
          in_scope_file base_path f = true ->
          In (file_of f) (node_children t)) /\
       (forall sub, In sub (as_list c) -> in_scope_dir base_path sub = true ->
          exists t' tr',
            _fetch_repo_structure_async (S fuel) repo (item_path sub)
              d base_path = Some (t', tr') /\
            node_name t' = structure_name repo (item_path sub) /\
            In t' (node_children t))).
Proof.
  split.
  - intros fuel repo path d base_path e Hget Hdepth.
    rewrite walker_unfold, Hget.
    destruct (max_depth <=? compute_depth path base_path)%Z eqn:Hcmp;
      [| reflexivity].
    apply Z.leb_le in Hcmp. lia.
  - intros fuel repo path d base_path c Hget Hdepth Hsubs.
    assert (Hkeep : forall sub, in_scope_dir base_path sub = true ->
                    keep_item sub = true).
    { intros sub H. unfold in_scope_dir in H. unfold keep_item.
      apply andb_true_iff in H as [_ ->]. reflexivity. }
    assert (Hrun : forall p, In p (queued base_path c) ->
      exists r, _fetch_repo_structure_async (S fuel) repo p
                  (compute_depth path base_path) base_path = Some r).
    { intros p Hp. unfold queued in Hp.
      apply in_map_iff in Hp as (sub & <- & Hsub).
      apply filter_In in Hsub as [Hsub Hscope].
      apply filter_In in Hsub as [Hsub _].
      destruct (Hsubs sub Hsub Hscope) as [[e He] | [r Hr]].
      - rewrite walker_unfold, He.
        destruct (max_depth <=? _)%Z; eauto.
      - exists r. rewrite <- Hr. apply walker_depth_irrelevant. }
    destruct (gather_map_total _ _ Hrun) as [results Hres].
    rewrite (walker_unfold (S fuel)), Hget, Hres.
    destruct (max_depth <=? compute_depth path base_path)%Z eqn:Hcmp.
    { apply Z.leb_le in Hcmp. lia. }
    eexists _, _. split; [reflexivity |]. cbn [node_name node_children].
    split; [reflexivity |]. split.
    + intros f Hf Hk Hscope. apply in_or_app. left. unfold appended.
      apply in_map. apply filter_In. split; [| exact Hscope].
      apply filter_In. auto.
    + intros sub Hsub Hscope.
      assert (Hq : In (item_path sub) (queued base_path c)).
      { unfold queued. apply in_map. apply filter_In. split; [| exact Hscope].
        apply filter_In. auto. }
      apply gather_map_Some in Hres.
      destruct (Forall2_In_l _ _ _ _ Hres Hq) as ([t' tr'] & Hin & Hrun').
      exists t', tr'. split; [| split].
      * rewrite <- Hrun'. apply walker_depth_irrelevant.
      * apply walker_returns_directory in Hrun'. now rewrite Hrun'.
      * apply in_or_app. right. now apply (in_map fst) in Hin.
Qed.

Lemma C3_listing_failure_is_contained_witness :
  _fetch_repo_structure_async 1 repo_partial "bad" 0 None =
    Some (Directory "bad" [], [EvWalk "bad"; EvList "bad"]) /\
  exists t tr,
    _fetch_repo_structure_async 2 repo_partial "" 0 None = Some (t, tr) /\
    In (FileEntry "README.md" "README.md") (node_children t) /\
    In (Directory "good" [FileEntry "a.py" "good/a.py"]) (node_children t) /\
    In (Directory "bad" []) (node_children t).
Proof.
  split.
  - apply (proj1 C3_listing_failure_is_contained 0%nat repo_partial "bad" 0%Z
             None
             (OtherException "502 Bad Gateway")); [reflexivity |].
    vm_compute; reflexivity.
  - destruct (proj2 C3_listing_failure_is_contained 0%nat repo_partial "" 0%Z
                None
                (Listing [entry "dir" "good" "good"; entry "dir" "bad" "bad";
                          entry "file" "README.md" "README.md"]))
      as (t & tr & Hrun & _ & _ & _).
    + reflexivity.
    + vm_compute; reflexivity.
    + intros sub [<- | [<- | [<- | []]]] Hscope.
      * right. eexists. vm_compute. reflexivity.
      * left. eexists. reflexivity.
      * discriminate Hscope.
    + exists t, tr. split; [exact Hrun |].
      vm_compute in Hrun. injection Hrun as <- <-.
      cbn [node_children In]. auto 6.
Defined.

(** Every call that returns has recorded its own entry first. *)
Lemma walker_trace_head (fuel : nat) (repo : Repository) (path : string)
    (d : Z) (base_path : option string) (t : node) (tr : list event) :
  _fetch_repo_structure_async fuel repo path d base_path = Some (t, tr) ->
  In (EvWalk path) tr.
Proof.
  destruct fuel as [|fuel]; [discriminate |].
  rewrite walker_unfold.
  destruct (max_depth <=? compute_depth path base_path)%Z.
  - intros [= <- <-]. now left.
  - destruct (get_contents repo path) as [c | e].
    + destruct (gather _) as [results |]; [| discriminate].
      intros [= <- <-]. now left.
    + intros [= <- <-]. now left.
Qed.

(** C5, as the code has it. In every tree the walker returns, no entry that
    is not a directory and whose name ends with an excluded extension
    occurs; and for a listing the walker processes, every directory entry
    that passes the scope guard (its path starts with [base_path] when
    [base_path] is set) is walked and its node is a child of the result,
    whatever its name. *)
Theorem C5_extension_filter_spares_directories :
  (forall (fuel : nat) (repo : Repository) (path : string) (d : Z)
          (base_path : option string) (t : node) (tr : list event),
     _fetch_repo_structure_async fuel repo path d base_path = Some (t, tr) ->
     forall (item : ContentFile) (ext : string),
       is_dir item = false ->
       In ext exclude_extensions ->
       Py.endswith (item_name item) ext = true ->
       ~ occurs (file_of item) t) /\
  (forall (fuel : nat) (repo : Repository) (path : string) (d : Z)
          (base_path : option string) (c : contents) (t : node)
          (tr : list event),
     get_contents repo path = Ret c ->
     (compute_depth path base_path < max_depth)%Z ->
     _fetch_repo_structure_async (S fuel) repo path d base_path
     = Some (t, tr) ->
     forall sub, In sub (as_list c) -> is_dir sub = true ->
       out_of_scope base_path sub = false ->
       exists t' tr',
         _fetch_repo_structure_async fuel repo (item_path sub) d base_path
         = Some (t', tr') /\
         In t' (node_children t) /\
         In (EvWalk (item_path sub)) tr).
Proof.
  split.
  - intros fuel repo path d base_path t tr Hrun item ext _ Hext Hend Hocc.
    pose proof (walker_files_kept _ _ _ _ _ _ _ Hrun _ _ Hocc) as Hkept.
    now rewrite (has_excluded_extension_endswith _ _ Hext Hend) in Hkept.
  - intros fuel repo path d base_path c t tr Hget Hdepth Hrun sub Hsub Hdir
      Hscope.
    rewrite walker_unfold, Hget in Hrun.
    destruct (max_depth <=? compute_depth path base_path)%Z eqn:Hcmp.
    { apply Z.leb_le in Hcmp. lia. }
    destruct (gather _) as [results |] eqn:Hres; [| discriminate].
    injection Hrun as <- <-.
    assert (Hq : In (item_path sub) (queued base_path c)).
    { unfold queued. apply in_map. apply filter_In. split.
      - apply filter_In. split; [exact Hsub |].
        unfold keep_item. now rewrite Hdir.
      - unfold in_scope_dir. now rewrite Hscope, Hdir. }
    apply gather_map_Some in Hres.
    destruct (Forall2_In_l _ _ _ _ Hres Hq) as ([t' tr'] & Hin & Hrun').
    exists t', tr'. split; [| split].
    + rewrite <- Hrun'. apply walker_depth_irrelevant.
    + cbn [node_children]. apply in_or_app. right.
      now apply (in_map fst) in Hin.
    + right. right. apply in_concat. exists tr'. split.
      * now apply (in_map snd) in Hin.
      * exact (walker_trace_head _ _ _ _ _ _ _ Hrun').
Qed.

Lemma C5_extension_filter_spares_directories_witness :
  exists t tr,
    _fetch_repo_structure_async 2 repo_media "" 0 None = Some (t, tr) /\
    ~ occurs (FileEntry "diagram.svg" "diagram.svg") t /\
    In (Directory "images.svg"
          [FileEntry "index.txt" "images.svg/index.txt"])
       (node_children t) /\
    In (EvWalk "images.svg") tr.
Proof.
  destruct (_fetch_repo_structure_async 2 repo_media "" 0 None)
    as [[t tr] |] eqn:Hrun; [| vm_compute in Hrun; discriminate].
  exists t, tr. split; [reflexivity |]. split.
  - apply (proj1 C5_extension_filter_spares_directories 2%nat repo_media ""
             0%Z None t tr Hrun (entry "file" "diagram.svg" "diagram.svg")
             "svg"); [reflexivity | | reflexivity].
    unfold exclude_extensions. cbn [In]. auto 12.
  - destruct (proj2 C5_extension_filter_spares_directories 1%nat repo_media
                "" 0%Z None _ t tr eq_refl) with
      (sub := entry "dir" "images.svg" "images.svg")
      as (t' & tr' & Hsub & Hin & Hev).
    + vm_compute; reflexivity.
    + exact Hrun.
    + cbn [as_list In]. auto.
    + reflexivity.
    + reflexivity.
    + vm_compute in Hsub. injection Hsub as <- <-. auto.
Defined.

(** The directory entry [src/lib] of the listing of [/src] is neither walked
    nor a child of the result: its path does not start with the base path
    [/src]. *)
Lemma C5_counterexample :
  get_contents repo_src "/src" =
    Ret (Listing [entry "dir" "lib" "src/lib";
                  entry "file" "main.py" "src/main.py"]) /\
  is_dir (entry "dir" "lib" "src/lib") = true /\
  (compute_depth "/src" (Some "/src") < max_depth)%Z /\
  _fetch_repo_structure_async 3 repo_src "/src" 0 (Some "/src") =
    Some (Directory "src" [], [EvWalk "/src"; EvList "/src"]).
Proof. repeat split. Qed.

(** C10. The suffix test asks for no "." in front of the extension: in every
    tree the walker returns, no file entry is named by an excluded
    extension with an arbitrary prefix in front of it, the empty prefix
    included; in particular none is named "png" or "mysvg". *)
Theorem C10_suffix_test_needs_no_dot (fuel : nat) (repo : Repository)
    (path : string) (d : Z) (base_path : option string) (t : node)
    (tr : list event) :
  _fetch_repo_structure_async fuel repo path d base_path = Some (t, tr) ->
  (forall (pre ext p : string), In ext exclude_extensions ->
     ~ occurs (FileEntry (pre +:+ ext) p) t) /\
  (forall p, ~ occurs (FileEntry "png" p) t) /\
  (forall p, ~ occurs (FileEntry "mysvg" p) t).
Proof.
  intros Hrun.
  assert (Hgen : forall name p, has_excluded_extension name = true ->
                 ~ occurs (FileEntry name p) t).
  { intros name p Hex Hocc.
    pose proof (walker_files_kept _ _ _ _ _ _ _ Hrun _ _ Hocc) as Hkept.
    now rewrite Hex in Hkept. }
  split; [| split].
  - intros pre ext p Hext. apply Hgen. now apply has_excluded_extension_app.
  - intros p. now apply Hgen.
  - intros p. now apply Hgen.
Qed.

Lemma C10_suffix_test_needs_no_dot_witness :
  _fetch_repo_structure_async 2 repo_media "" 0 None =
    Some (Directory "demo"
            [FileEntry "notes.txt" "notes.txt";
             Directory "images.svg"
               [FileEntry "index.txt" "images.svg/index.txt"]],
          [EvWalk ""; EvList ""; EvWalk "images.svg"; EvList "images.svg"]) /\
  ~ occurs (FileEntry "png" "png")
      (Directory "demo"
         [FileEntry "notes.txt" "notes.txt";
          Directory "images.svg"
            [FileEntry "index.txt" "images.svg/index.txt"]]).
Proof.
  split; [reflexivity |].
  apply (C10_suffix_test_needs_no_dot 2 repo_media "" 0 None _ _ eq_refl).
Defined.

(** ** The order on names *)

Lemma leb_cons (a b : ascii) (s t : string) :
  String.leb (String a s) (String b t) =
  match Ascii.compare a b with
  | Lt => true
  | Eq => String.leb s t
  | Gt => false
  end.
Proof.
  unfold String.leb. cbn [String.compare].
  destruct (Ascii.compare a b); reflexivity.
Qed.

Lemma leb_trans (s1 s2 s3 : string) :
  String.leb s1 s2 = true -> String.leb s2 s3 = true ->
  String.leb s1 s3 = true.
Proof.
  revert s2 s3.
  induction s1 as [|a s1 IH]; intros [|b s2] [|c s3]; try reflexivity;
    try discriminate.
  rewrite !leb_cons.
  destruct (Ascii.compare a b) eqn:Hab; [| | discriminate].
  - apply Ascii.compare_eq_iff in Hab as ->.
    destruct (Ascii.compare b c); [apply IH | reflexivity | discriminate].
  - intros _. destruct (Ascii.compare b c) eqn:Hbc; [| | discriminate].
    + apply Ascii.compare_eq_iff in Hbc as <-. now rewrite Hab.
    + intros _. unfold Ascii.compare in *.
      apply N.compare_lt_iff in Hab, Hbc.
      pose proof (N.lt_trans _ _ _ Hab Hbc) as Hac.
      apply N.compare_lt_iff in Hac. now rewrite Hac.
Qed.

(** ** [sorted_by] sorts, permutes, and is determined by the keys *)

Section SortedBy.

Context {A : Type} (key : A -> string).

Lemma insert_by_perm (x : A) (l : list A) :
  Permutation (x :: l) (insert_by key x l).
Proof.
  induction l as [|y l IH]; cbn [insert_by]; [reflexivity |].
  destruct (String.leb (key x) (key y)); [reflexivity |].
  rewrite perm_swap. now apply perm_skip.
Qed.

Lemma sorted_by_perm (l : list A) : Permutation l (sorted_by key l).
Proof.
  induction l as [|x l IH]; cbn [sorted_by]; [reflexivity |].
  rewrite <- insert_by_perm. now apply perm_skip.
Qed.

Lemma insert_by_sorted (x : A) (l : list A) :
  StronglySorted (key_le key) l -> StronglySorted (key_le key) (insert_by key x l).
Proof.
  induction 1 as [|y l Hl IH Hy]; cbn [insert_by].
  - repeat constructor.
  - destruct (String.leb (key x) (key y)) eqn:Hxy.
    + constructor; [now constructor |].
      constructor; [exact Hxy |].
      eapply List.Forall_impl; [| exact Hy].
      intros z Hz. exact (leb_trans _ _ _ Hxy Hz).
    + constructor; [exact IH |].
      eapply Permutation_Forall; [apply insert_by_perm |].
      constructor; [| exact Hy].
      destruct (String.leb_total (key x) (key y)) as [H | H];
        [congruence | exact H].
Qed.

Lemma sorted_by_sorted (l : list A) : StronglySorted (key_le key) (sorted_by key l).
Proof.
  induction l as [|x l IH]; cbn [sorted_by]; [constructor |].
  now apply insert_by_sorted.
Qed.

Lemma key_injective_on (l : list A) (a b : A) :
  List.NoDup (map key l) -> In a l -> In b l -> key a = key b -> a = b.
Proof.
  induction l as [|x l IH]; cbn [map]; [contradiction |].
  intros Hnd Ha Hb Hk. apply NoDup_cons_iff in Hnd as [Hx Hnd].
  destruct Ha as [-> | Ha], Hb as [-> | Hb]; auto.
  - exfalso. apply Hx. rewrite Hk. now apply in_map.
  - exfalso. apply Hx. rewrite <- Hk. now apply in_map.
Qed.

Lemma sorted_unique (l1 : list A) :
  forall l2, StronglySorted (key_le key) l1 -> StronglySorted (key_le key) l2 ->
  Permutation l1 l2 -> List.NoDup (map key l1) -> l1 = l2.
Proof.
  induction l1 as [|a l1 IH]; intros l2 H1 H2 Hp Hnd.
  - now apply Permutation_nil in Hp.
  - destruct l2 as [|b l2].
    { symmetry in Hp. now apply Permutation_nil in Hp. }
    apply StronglySorted_inv in H1 as [H1 Ha].
    apply StronglySorted_inv in H2 as [H2 Hb].
    assert (Hab : a = b).
    { assert (Hina : In a (b :: l2))
        by (eapply Permutation_in; [exact Hp | now left]).
      assert (Hinb : In b (a :: l1))
        by (eapply Permutation_in; [symmetry; exact Hp | now left]).
      destruct Hina as [-> | Hina]; [reflexivity |].
      destruct Hinb as [-> | Hinb]; [reflexivity |].
      apply (key_injective_on (a :: l1)); auto; [now left | now right |].
      apply String.leb_antisym.
      - rewrite List.Forall_forall in Ha. exact (Ha b Hinb).
      - rewrite List.Forall_forall in Hb. exact (Hb a Hina). }
    subst b. f_equal.
    apply IH; auto.
    + now apply Permutation_cons_inv in Hp.
    + cbn [map] in Hnd. now apply NoDup_cons_iff in Hnd as [_ Hnd].
Qed.

(** Two lists with the same elements and pairwise distinct keys sort to the
    same list. *)
Lemma sorted_by_permutation_invariant (l1 l2 : list A) :
  Permutation l1 l2 -> List.NoDup (map key l1) ->
  sorted_by key l1 = sorted_by key l2.
Proof.
  intros Hp Hnd. apply sorted_unique; try apply sorted_by_sorted.
  - rewrite <- !sorted_by_perm. exact Hp.
  - eapply Permutation_NoDup; [| exact Hnd].
    apply Permutation_map. apply sorted_by_perm.
Qed.

End SortedBy.

(** Sorting commutes with a relation that preserves keys. *)
Lemma insert_by_Forall2 {A B : Type} (ka : A -> string) (kb : B -> string)
    (R : A -> B -> Prop) (x : A) (y : B) (l : list A) (m : list B) :
  (forall a b, R a b -> ka a = kb b) ->
  R x y -> Forall2 R l m ->
  Forall2 R (insert_by ka x l) (insert_by kb y m).
Proof.
  intros Hk Hxy. induction 1 as [|a b l m Hab Hlm IH]; cbn [insert_by].
  - repeat constructor. exact Hxy.
  - rewrite (Hk _ _ Hxy), (Hk _ _ Hab).
    destruct (String.leb (kb y) (kb b)); repeat constructor; auto.
Qed.

Lemma sorted_by_Forall2 {A B : Type} (ka : A -> string) (kb : B -> string)
    (R : A -> B -> Prop) (l : list A) (m : list B) :
  (forall a b, R a b -> ka a = kb b) ->
  Forall2 R l m -> Forall2 R (sorted_by ka l) (sorted_by kb m).
Proof.
  intros Hk. induction 1 as [|a b l m Hab Hlm IH]; cbn [sorted_by].
  - constructor.
  - now apply insert_by_Forall2.
Qed.

Lemma sorted_by_map {A B : Type} (key : A -> string) (f : A -> B)
    (l : list A) :
  sorted_by fst (map (fun x => (key x, f x)) l) =
  map (fun x => (key x, f x)) (sorted_by key l).
Proof.
  induction l as [|x l IH]; cbn [map sorted_by]; [reflexivity |].
  rewrite IH. generalize (sorted_by key l) as m. intros m.
  induction m as [|y m IHm]; cbn [map insert_by]; [reflexivity |].
  cbn [fst]. destruct (String.leb (key x) (key y)); [reflexivity |].
  now rewrite IHm.
Qed.

(** ** The formatter *)

(** [_format_node] as the source writes it: the children are sorted by name
    and each is formatted one level deeper. *)
Lemma _format_node_children (name : string) (children : list node)
    (depth : nat) :
  _format_node (Directory name children) depth =
  own_line (Directory name children) depth ++
  flat_map (fun child => _format_node child (S depth))
    (sorted_by node_name children).
Proof.
  cbn [_format_node]. unfold own_line. f_equal.
  rewrite sorted_by_map, map_map. cbn [snd].
  now rewrite flat_map_concat_map.
Qed.

Lemma _format_node_file (name path : string) (depth : nat) :
  _format_node (FileEntry name path) depth =
  own_line (FileEntry name path) depth.
Proof. reflexivity. Qed.

(** Below the root, the lines of a node start with the node's own line. *)
Lemma _format_node_head (n : node) (depth : nat) :
  exists rest,
    _format_node n (S depth) = (indent (S depth) +:+ node_name n) :: rest.
Proof.
  destruct n as [name children | name path].
  - rewrite _format_node_children. unfold own_line. cbn [Nat.ltb Nat.leb].
    eexists. reflexivity.
  - rewrite _format_node_file. unfold own_line. cbn [Nat.ltb Nat.leb].
    eexists. reflexivity.
Qed.

Lemma reordered_name (t t' : node) :
  reordered t t' -> node_name t = node_name t'.
Proof. destruct 1; reflexivity. Qed.

Lemma all_distinct_NoDup (l : list string) :
  all_distinct l = true -> List.NoDup l.
Proof.
  induction l as [|x l IH]; cbn [all_distinct]; intros H; constructor.
  - apply andb_true_iff in H as [H _]. intros Hin.
    apply negb_true_iff in H.
    assert (existsb (String.eqb x) l = true); [| congruence].
    apply existsb_exists. exists x. split; [exact Hin |].
    apply String.eqb_refl.
  - apply andb_true_iff in H as [_ H]. now apply IH.
Qed.

Lemma Forall2_same_names (l m : list node) :
  Forall2 reordered l m -> map node_name l = map node_name m.
Proof.
  induction 1 as [|a b l m Hab _ IH]; cbn [map]; [reflexivity |].
  now rewrite IH, (reordered_name _ _ Hab).
Qed.

Lemma flat_map_Forall2 {A B : Type} (f : A -> list B) (l m : list A) :
  Forall2 (fun a b => f a = f b) l m -> flat_map f l = flat_map f m.
Proof.
  induction 1 as [|a b l m Hab _ IH]; cbn [flat_map]; [reflexivity |].
  now rewrite Hab, IH.
Qed.

(** Reordering children does not change the lines when sibling names are
    distinct. *)
Lemma _format_node_reordered (t : node) :
  forall (t' : node) (depth : nat),
  distinct_siblings t = true -> reordered t t' ->
  _format_node t depth = _format_node t' depth.
Proof.
  induction t as [name children IH | name path] using node_ind';
    intros t' depth Hd Hr.
  2:{ inversion Hr; subst. reflexivity. }
  inversion Hr as [| name' cs mid children' Hmid Hperm]; subst.
  cbn [distinct_siblings] in Hd. apply andb_true_iff in Hd as [Hnames Hsub].
  apply all_distinct_NoDup in Hnames.
  rewrite !_format_node_children. unfold own_line. cbn [node_name]. f_equal.
  assert (Hsame : sorted_by node_name mid = sorted_by node_name children').
  { apply sorted_by_permutation_invariant; [exact Hperm |].
    now rewrite <- (Forall2_same_names _ _ Hmid). }
  rewrite <- Hsame. apply flat_map_Forall2.
  pose (R := fun a b : node =>
               reordered a b /\
               forall d, _format_node a d = _format_node b d).
  assert (HR : Forall2 R children mid).
  { rewrite forallb_forall in Hsub. clear Hnames Hr Hperm Hsame.
    induction Hmid as [|a b l m Hab Hlm IHl]; constructor.
    - split; [exact Hab |]. intros d.
      apply List.Forall_inv in IH. apply IH; [| exact Hab].
      apply Hsub. now left.
    - apply IHl.
      + now apply List.Forall_inv_tail in IH.
      + intros x Hx. apply Hsub. now right. }
  apply (sorted_by_Forall2 node_name node_name R) in HR.
  - eapply Forall2_impl; [exact HR |]. intros a b [_ H]. apply H.
  - intros a b [H _]. now apply reordered_name.
Qed.

Lemma leb_refl (s : string) : String.leb s s = true.
Proof.
  induction s as [|a s IH]; [reflexivity |]. rewrite leb_cons.
  destruct (Ascii.compare a a) eqn:Ha; [exact IH | reflexivity |].
  pose proof (Ascii.compare_antisym a a) as H. rewrite Ha in H.
  discriminate H.
Qed.

(** [sorted] is stable: the elements with a given key come out in the order
    they went in. *)
Lemma insert_by_stable {A : Type} (key : A -> string) (k : string) (x : A)
    (l : list A) :
  List.filter (fun a => String.eqb (key a) k) (insert_by key x l) =
  List.filter (fun a => String.eqb (key a) k) (x :: l).
Proof.
  induction l as [|y l IH]; [reflexivity |].
  cbn [insert_by]. destruct (String.leb (key x) (key y)) eqn:Hle;
    [reflexivity |].
  cbn [List.filter] in *. rewrite IH.
  destruct (String.eqb (key x) k) eqn:Hx; [| reflexivity].
  destruct (String.eqb (key y) k) eqn:Hy; [| reflexivity].
  apply String.eqb_eq in Hx. apply String.eqb_eq in Hy.
  rewrite Hx, Hy, leb_refl in Hle. discriminate.
Qed.

Lemma sorted_by_stable {A : Type} (key : A -> string) (k : string)
    (l : list A) :
  List.filter (fun a => String.eqb (key a) k) (sorted_by key l) =
  List.filter (fun a => String.eqb (key a) k) l.
Proof.
  induction l as [|x l IH]; [reflexivity |].
  cbn [sorted_by]. rewrite insert_by_stable. cbn [List.filter].
  now rewrite IH.
Qed.

(** C4, as the code has it. The lines of a directory are its own line, none
    for the root, followed by the lines of its children taken in ascending
    order of name, children of the same name in the order of the children
    list, each child's lines starting with the child's own line; the
    formatted text does not depend on the root's name; and when the
    children of every node carry pairwise distinct names, the formatted text
    is the same for every reordering of the children lists. *)
Theorem C4_formatter_orders_siblings :
  (forall (name : string) (children : list node) (depth : nat),
     exists ordered,
       Permutation children ordered /\
       StronglySorted
         (fun a b => String.leb (node_name a) (node_name b) = true) ordered /\
       (forall n : string,
          List.filter (fun c => String.eqb (node_name c) n) ordered =
          List.filter (fun c => String.eqb (node_name c) n) children) /\
       _format_node (Directory name children) depth =
       (if (0 <? depth)%nat then [indent depth +:+ name] else []) ++
       flat_map (fun child => _format_node child (S depth)) ordered /\
       forall child, In child ordered ->
         exists rest, _format_node child (S depth) =
                      (indent (S depth) +:+ node_name child) :: rest) /\
  (forall (name name' : string) (children : list node),
     _format_tree_structure (Directory name children) =
     _format_tree_structure (Directory name' children)) /\
  (forall (name path : string),
     _format_tree_structure (FileEntry name path) = "") /\
  (forall (t t' : node),
     distinct_siblings t = true -> reordered t t' ->
     _format_tree_structure t = _format_tree_structure t').
Proof.
  split; [| split; [| split]].
  - intros name children depth. exists (sorted_by node_name children).
    split; [apply sorted_by_perm |].
    split; [apply (sorted_by_sorted node_name) |].
    split; [intros n; apply sorted_by_stable |].
    split; [apply _format_node_children |].
    intros child _. apply _format_node_head.
  - intros name name' children. unfold _format_tree_structure.
    now rewrite !_format_node_children.
  - reflexivity.
  - intros t t' Hd Hr. unfold _format_tree_structure.
    now rewrite (_format_node_reordered t t' 0 Hd Hr).
Qed.

Lemma tree_relisted_reordered : reordered tree_listed tree_relisted.
Proof.
  unfold tree_listed, tree_relisted.
  eapply reordered_directory with
    (mid := [FileEntry "b.txt" "b.txt";
             Directory "a" [FileEntry "m.py" "a/m.py";
                            FileEntry "z.py" "a/z.py"]]).
  - constructor; [constructor |].
    constructor; [| constructor].
    eapply reordered_directory with
      (mid := [FileEntry "z.py" "a/z.py"; FileEntry "m.py" "a/m.py"]).
    + repeat constructor.
    + apply perm_swap.
  - apply perm_swap.
Qed.

Lemma C4_formatter_orders_siblings_witness :
  distinct_siblings tree_listed = true /\
  reordered tree_listed tree_relisted /\
  _format_tree_structure tree_listed = _format_tree_structure tree_relisted.
Proof.
  split; [reflexivity |]. split; [exact tree_relisted_reordered |].
  apply (proj2 (proj2 (proj2 C4_formatter_orders_siblings))
           tree_listed tree_relisted);
    [reflexivity | exact tree_relisted_reordered].
Defined.

(** Two siblings named "a", a directory and a file: swapping them changes
    the formatted text, because equally named siblings keep their input
    order. *)
Lemma C4_counterexample :
  reordered tree_dir_first tree_file_first /\
  _format_tree_structure tree_dir_first <>
  _format_tree_structure tree_file_first.
Proof.
  split.
  - unfold tree_dir_first, tree_file_first.
    eapply reordered_directory with
      (mid := [Directory "a" [FileEntry "x" "a/x"]; FileEntry "a" "a"]).
    + constructor.
      * eapply reordered_directory with (mid := [FileEntry "x" "a/x"]).
        -- repeat constructor.
        -- reflexivity.
      * repeat constructor.
    + apply perm_swap.
  - vm_compute. discriminate.
Qed.

(** ** The orchestrator *)

(** A non-empty cached text is returned at once, whatever the project
    table, the credential resolver and the repository would answer. *)
Lemma cache_hit (fuel : nat) (env : Env) (cache : gmap string string)
    (project_id : string) (path : option string) (text : string) :
  cache !! cache_key project_id path = Some text ->
  Py.truthy text = true ->
  get_project_structure_async fuel env cache project_id path =
  Some (Ret text, cache, [EvCacheGet (cache_key project_id path)]).
Proof.
  intros Hget Htext. unfold get_project_structure_async.
  rewrite Hget. cbn [Py.truthy_opt]. now rewrite Htext.
Qed.

(** What a request that misses the cache does. *)
Lemma cache_miss (fuel : nat) (env : Env) (cache : gmap string string)
    (project_id : string) (path : option string) :
  Py.truthy_opt (cache !! cache_key project_id path) = false ->
  get_project_structure_async fuel env cache project_id path =
  match get_project_from_db_by_id env project_id with
  | None =>
      Some (Raise (HTTPException 404 "Project not found"), cache,
            lookup_events project_id path)
  | Some project =>
      if negb (Py.truthy (default "" (project_name project))) then
        Some (Raise (HTTPException 400
                       "Project has no associated GitHub repository"),
              cache, lookup_events project_id path)
      else
        match try_body fuel env cache (cache_key project_id path)
                (default "" (project_name project)) path with
        | None => None
        | Some (o, cache', trace) =>
            Some (except_clauses o, cache',
                  lookup_events project_id path ++ trace)
        end
  end.
Proof.
  intros Hmiss. unfold get_project_structure_async. now rewrite Hmiss.
Qed.

(** A request that returns a non-empty text leaves it in the cache under
    its key, and the next request for the same project and path returns it
    from there with no other interaction. *)
Lemma second_call_served_from_cache (fuel fuel' : nat) (env env' : Env)
    (cache cache' : gmap string string) (project_id : string)
    (path : option string) (text : string) (trace : list event) :
  get_project_structure_async fuel env cache project_id path =
    Some (Ret text, cache', trace) ->
  Py.truthy text = true ->
  get_project_structure_async fuel' env' cache' project_id path =
    Some (Ret text, cache', [EvCacheGet (cache_key project_id path)]).
Proof.
  intros Hfirst Htext. apply cache_hit; [| exact Htext].
  destruct (Py.truthy_opt (cache !! cache_key project_id path)) eqn:Hc.
  - unfold get_project_structure_async in Hfirst. rewrite Hc in Hfirst.
    injection Hfirst as <- <- _.
    destruct (cache !! cache_key project_id path); [reflexivity |].
    discriminate Hc.
  - rewrite (cache_miss _ _ _ _ _ Hc) in Hfirst.
    destruct (get_project_from_db_by_id env project_id) as [project |];
      [| discriminate].
    destruct (negb _); [discriminate |].
    destruct (try_body _ _ _ _ _ _) as [[[o c] tr] |] eqn:Hbody;
      [| discriminate].
    injection Hfirst as Ho <- _.
    unfold try_body in Hbody.
    destruct (get_repo env _) as [repo | e]; [| injection Hbody as <- _ _;
      destruct e; discriminate].
    destruct (if Py.truthy_opt path then _ else None) as [e |].
    { injection Hbody as <- _ _. destruct e; discriminate. }
    destruct (_fetch_repo_structure_async _ _ _ _ _) as [[structure w] |];
      [| discriminate].
    destruct (setex_error env).
    { injection Hbody as <- _ _. discriminate. }
    injection Hbody as <- <- _. injection Ho as <-.
    apply lookup_insert_eq.
Qed.

(** ** Claims about the orchestrator *)

(** C6, as the code has it. On a cache miss, the request fails with status
    404 when there is no project row, and with status 400 when the row has
    no repository name; in both cases nothing but the cache and the project
    table has been consulted. *)
Theorem C6_missing_project_or_repository (fuel : nat) (env : Env)
    (cache : gmap string string) (project_id : string)
    (path : option string) :
  Py.truthy_opt (cache !! cache_key project_id path) = false ->
  (get_project_from_db_by_id env project_id = None ->
   get_project_structure_async fuel env cache project_id path =
   Some (Raise (HTTPException 404 "Project not found"), cache,
         lookup_events project_id path)) /\
  (forall project,
     get_project_from_db_by_id env project_id = Some project ->
     Py.truthy (default "" (project_name project)) = false ->
     get_project_structure_async fuel env cache project_id path =
     Some (Raise (HTTPException 400
                    "Project has no associated GitHub repository"),
           cache, lookup_events project_id path)).
Proof.
  intros Hmiss. rewrite (cache_miss _ _ _ _ _ Hmiss). split.
  - now intros ->.
  - intros project -> Hname. now rewrite Hname.
Qed.

Lemma C6_missing_project_or_repository_witness :
  get_project_structure_async 1 env_no_project ∅ "p1" None =
    Some (Raise (HTTPException 404 "Project not found"), ∅,
          lookup_events "p1" None) /\
  get_project_structure_async 1 env_unlinked ∅ "p1" None =
    Some (Raise (HTTPException 400
                   "Project has no associated GitHub repository"), ∅,
          lookup_events "p1" None).
Proof.
  assert (Hmiss : Py.truthy_opt
                    ((∅ : gmap string string) !! cache_key "p1" None)
                  = false) by (vm_compute; reflexivity).
  split.
  - apply (proj1 (C6_missing_project_or_repository 1 env_no_project ∅ "p1"
                    None Hmiss)).
    reflexivity.
  - apply (proj2 (C6_missing_project_or_repository 1 env_unlinked ∅ "p1"
                    None Hmiss) (mkProject None)); reflexivity.
Defined.

(** A project row without a repository name, on an empty cache: the request
    fails with status 400, not 404. And with no project row at all, a
    request that finds its text in the cache does not fail. *)
Lemma C6_counterexample :
  (get_project_from_db_by_id env_unlinked "p1" = Some (mkProject None) /\
   exists r,
     get_project_structure_async 1 env_unlinked ∅ "p1" None = Some r /\
     raised_status (fst (fst r)) = Some 400%Z /\
     raised_status (fst (fst r)) <> Some 404%Z) /\
  (get_project_from_db_by_id env_no_project "p1" = None /\
   get_project_structure_async 1 env_no_project {[ key_p1 := "  a" ]} "p1"
     None =
   Some (Ret "  a", {[ key_p1 := "  a" ]}, [EvCacheGet key_p1])).
Proof.
  split; split; try (vm_compute; reflexivity).
  eexists. split; [vm_compute; reflexivity |].
  split; [reflexivity | discriminate].
Qed.

(** C7. On a cache miss for a project with a repository name, what the
    [try] block raises reaches the caller as follows: an [HTTPException] is
    raised again with the same status and detail; any other exception
    becomes an [HTTPException] with status 500 whose detail ends with the
    message of the original exception. A returned text is returned. *)
Theorem C7_structured_errors_pass_others_wrapped (fuel : nat) (env : Env)
    (cache cache' : gmap string string) (project_id : string)
    (path : option string) (project : Project) (o : outcome string)
    (trace : list event) :
  Py.truthy_opt (cache !! cache_key project_id path) = false ->
  get_project_from_db_by_id env project_id = Some project ->
  Py.truthy (default "" (project_name project)) = true ->
  try_body fuel env cache (cache_key project_id path)
    (default "" (project_name project)) path = Some (o, cache', trace) ->
  exists o',
    get_project_structure_async fuel env cache project_id path =
    Some (o', cache', lookup_events project_id path ++ trace) /\
    (forall text, o = Ret text -> o' = Ret text) /\
    (forall status detail,
       o = Raise (HTTPException status detail) ->
       o' = Raise (HTTPException status detail)) /\
    (forall message,
       o = Raise (OtherException message) ->
       exists front,
         o' = Raise (HTTPException 500 (front +:+ message)) /\
         front = "Failed to fetch project structure: ").
Proof.
  intros Hmiss Hproject Hname Hbody.
  exists (except_clauses o). split.
  - rewrite (cache_miss _ _ _ _ _ Hmiss), Hproject, Hname, Hbody.
    reflexivity.
  - split; [| split].
    + now intros text ->.
    + now intros status detail ->.
    + intros message ->. eexists. split; reflexivity.
Qed.

Lemma C7_structured_errors_pass_others_wrapped_witness :
  exists cache' trace,
    get_project_structure_async 2 env_cache_down ∅ "p1" None =
    Some (Raise (HTTPException 500
                   "Failed to fetch project structure: Connection refused"),
          cache', trace).
Proof.
  destruct (try_body 2 env_cache_down ∅ (cache_key "p1" None) "acme/demo"
              None) as [[[o cache'] trace] |] eqn:Hbody;
    [| vm_compute in Hbody; discriminate].
  assert (Hmiss : Py.truthy_opt
                    ((∅ : gmap string string) !! cache_key "p1" None)
                  = false) by (vm_compute; reflexivity).
  destruct (C7_structured_errors_pass_others_wrapped 2 env_cache_down ∅
              cache' "p1" None (mkProject (Some "acme/demo")) o trace
              Hmiss eq_refl eq_refl Hbody)
    as (o' & Hrun & _ & _ & Hother).
  exists cache', (lookup_events "p1" None ++ trace).
  rewrite Hrun. f_equal. f_equal. f_equal.
  assert (Ho : o = Raise (OtherException "Connection refused"))
    by (vm_compute in Hbody; congruence).
  destruct (Hother _ Ho) as (front & -> & ->). reflexivity.
Defined.

(** An [HTTPException] of an inner step reaches the caller as it was
    raised: the 404 of [get_repo] when neither credential opens the
    repository. *)
Example structured_error_of_get_repo :
  get_project_structure_async 1 env_locked ∅ "p1" None =
  Some (Raise (HTTPException 404
                 "Repository acme/private not found or inaccessible on GitHub"),
        ∅, lookup_events "p1" None ++ [EvResolve "acme/private"]).
Proof. vm_compute. reflexivity. Qed.

(** C8 at an empty repository. The first request walks, formats the empty
    text and stores it; the second request finds the entry, takes the empty
    text for a miss, and resolves the repository and walks again. *)
Lemma C8_empty_structure_is_walked_again :
  get_project_structure_async 1 env_empty_repo ∅ "p1" None =
    Some (Ret "", {[ key_p1 := "" ]},
          [EvCacheGet key_p1; EvProjectLookup "p1"; EvResolve "acme/empty";
           EvWalk ""; EvList ""; EvCacheSet key_p1 3600]) /\
  ({[ key_p1 := "" ]} : gmap string string) !! key_p1 = Some "" /\
  get_project_structure_async 1 env_empty_repo {[ key_p1 := "" ]} "p1" None =
    Some (Ret "", {[ key_p1 := "" ]},
          [EvCacheGet key_p1; EvProjectLookup "p1"; EvResolve "acme/empty";
           EvWalk ""; EvList ""; EvCacheSet key_p1 3600]).
Proof. repeat split; vm_compute; reflexivity. Qed.

(** C9 at an empty cache entry. The entry under the key holds the empty
    text; the request takes it for a miss, looks the project up, and fails
    with 404 because the row is gone. *)
Lemma C9_empty_entry_is_not_served :
  ({[ key_p1 := "" ]} : gmap string string) !! key_p1 = Some "" /\
  get_project_structure_async 1 env_no_project {[ key_p1 := "" ]} "p1" None =
    Some (Raise (HTTPException 404 "Project not found"),
          {[ key_p1 := "" ]}, lookup_events "p1" None).
Proof. repeat split; vm_compute; reflexivity. Qed.

(** ** Termination of the walk *)

Lemma compute_depth_nonneg (path : string) (base_path : option string) :
  (0 <= compute_depth path base_path)%Z.
Proof.
  unfold compute_depth.
  destruct base_path as [base |]; [destruct (Py.truthy base) |];
    cbv zeta; repeat match goal with
                     | |- context [if ?b then _ else _] => destruct b
                     end; lia.
Qed.

(** On a handle that descends, the walker returns as soon as the fuel
    exceeds the distance to the depth limit. *)
Lemma walker_total (repo : Repository) (base_path : option string) :
  descends repo base_path ->
  forall (fuel : nat) (path : string) (d : Z),
    (1 <= fuel)%nat ->
    (max_depth - compute_depth path base_path < Z.of_nat fuel)%Z ->
    exists r, _fetch_repo_structure_async fuel repo path d base_path = Some r.
Proof.
  intros Hdesc fuel.
  induction fuel as [|fuel IH]; intros path d Hpos Hfuel; [lia |].
  rewrite walker_unfold.
  destruct (max_depth <=? compute_depth path base_path)%Z eqn:Hcmp;
    [eauto |].
  apply Z.leb_gt in Hcmp.
  destruct (get_contents repo path) as [c | e] eqn:Hget; [| eauto].
  destruct (gather_map_total
              (fun p => _fetch_repo_structure_async fuel repo p
                          (compute_depth path base_path) base_path)
              (queued base_path c)) as [results ->]; [| eauto].
  intros p Hp. unfold queued in Hp.
  apply in_map_iff in Hp as (sub & <- & Hsub).
  apply filter_In in Hsub as [Hsub Hscope].
  apply filter_In in Hsub as [Hsub _].
  pose proof (Hdesc path c sub Hget Hsub Hscope) as Hdeeper.
  apply IH; lia.
Qed.

(** Five units of fuel are enough for every call on a handle that
    descends. *)
Lemma walker_returns (repo : Repository) (base_path : option string)
    (path : string) (d : Z) :
  descends repo base_path ->
  exists r, _fetch_repo_structure_async 5 repo path d base_path = Some r.
Proof.
  intros Hdesc. apply walker_total; [exact Hdesc | lia |].
  pose proof (compute_depth_nonneg path base_path). unfold max_depth. lia.
Qed.

Example repo_partial_descends : descends repo_partial None.
Proof.
  intros path c sub Hget Hsub Hscope.
  unfold repo_partial in Hget. cbn [get_contents] in Hget.
  destruct (String.eqb_spec path "") as [-> |].
  - injection Hget as <-.
    destruct Hsub as [<- | [<- | [<- | []]]];
      [reflexivity | reflexivity | discriminate Hscope].
  - destruct (String.eqb_spec path "good") as [-> |]; [| discriminate].
    injection Hget as <-.
    destruct Hsub as [<- | []]. discriminate Hscope.
Qed.

(** * Further properties of the walker, the formatter and the cache *)

(** ** The walker *)

(** X1. Every listing the walker issues is at a path it has entered and
    whose computed depth is below the limit of 4: no directory at depth 4
    or more is ever listed. *)
Theorem X1_listings_stay_below_limit (fuel : nat) :
  forall (repo : Repository) (path : string) (d : Z)
         (base_path : option string) (t : node) (tr : list event),
  _fetch_repo_structure_async fuel repo path d base_path = Some (t, tr) ->
  forall p, In (EvList p) tr ->
    (compute_depth p base_path < 4)%Z /\ In (EvWalk p) tr.
Proof.
  induction fuel as [|fuel IH]; intros repo path d base_path t tr;
    [discriminate |].
  rewrite walker_unfold.
  destruct (max_depth <=? compute_depth path base_path)%Z eqn:Hcmp.
  { intros [= <- <-] p [[=] | []]. }
  apply Z.leb_gt in Hcmp. unfold max_depth in Hcmp.
  destruct (get_contents repo path) as [c | e].
  2:{ intros [= <- <-] p [[=] | [[= <-] | []]].
      split; [exact Hcmp | now left]. }
  destruct (gather _) as [results |] eqn:Hg; [| discriminate].
  intros [= <- <-] p [[=] | [[= <-] | Hin]].
  { split; [exact Hcmp | now left]. }
  apply in_concat in Hin as (tr' & Htr' & Hp).
  apply in_map_iff in Htr' as ([t' tr''] & <- & Hr).
  apply gather_map_Some in Hg.
  destruct (Forall2_In_r _ _ _ _ Hg Hr) as (q & _ & Hrun).
  destruct (IH _ _ _ _ _ _ Hrun p Hp) as [Hdepth Hwalk].
  split; [exact Hdepth |].
  right. right. apply in_concat. exists tr''. split; [| exact Hwalk].
  now apply (in_map snd) in Hr.
Qed.

Lemma X1_listings_stay_below_limit_witness :
  (compute_depth "good" None < 4)%Z /\
  In (EvWalk "good")
     [EvWalk ""; EvList ""; EvWalk "good"; EvList "good";
      EvWalk "bad"; EvList "bad"].
Proof.
  apply (X1_listings_stay_below_limit 2 repo_partial "" 0%Z None
           (Directory "demo"
              [FileEntry "README.md" "README.md";
               Directory "good" [FileEntry "a.py" "good/a.py"];
               Directory "bad" []])
           [EvWalk ""; EvList ""; EvWalk "good"; EvList "good";
            EvWalk "bad"; EvList "bad"]).
  - reflexivity.
  - cbn [In]. auto 6.
Defined.

Lemma filter_filter_and {A : Type} (f g : A -> bool) (l : list A) :
  List.filter f (List.filter g l) = List.filter (fun x => g x && f x) l.
Proof.
  induction l as [|x l IH]; [reflexivity |].
  cbn [List.filter]. destruct (g x); cbn [andb List.filter]; [| exact IH].
  destruct (f x); now rewrite IH.
Qed.

(** X2. When a listing succeeds below the depth limit, the children of the
    returned node are first the file entries of the listing that pass the
    extension filter and the scope guard, in listing order, then one
    directory node per directory entry that passes the scope guard, in
    listing order, each named by the last segment of the entry's path (by
    the repository's name when that segment is empty). *)
Theorem X2_children_are_files_then_directories (fuel : nat)
    (repo : Repository) (path : string) (d : Z)
    (base_path : option string) (c : contents) (t : node)
    (tr : list event) :
  get_contents repo path = Ret c ->
  (compute_depth path base_path < 4)%Z ->
  _fetch_repo_structure_async (S fuel) repo path d base_path = Some (t, tr) ->
  exists dirs,
    node_children t =
      map file_of
        (List.filter
           (fun item => negb (is_dir item)
                        && negb (has_excluded_extension (item_name item))
                        && negb (out_of_scope base_path item))
           (as_list c))
      ++ dirs /\
    forallb is_directory dirs = true /\
    map node_name dirs =
      map (fun item => structure_name repo (item_path item))
        (List.filter
           (fun item => is_dir item && negb (out_of_scope base_path item))
           (as_list c)).
Proof.
  intros Hget Hdepth. rewrite walker_unfold, Hget.
  destruct (max_depth <=? compute_depth path base_path)%Z eqn:Hcmp.
  { apply Z.leb_le in Hcmp. unfold max_depth in Hcmp. lia. }
  destruct (gather _) as [results |] eqn:Hg; [| discriminate].
  intros [= <- <-]. exists (map fst results). cbn [node_children].
  apply gather_map_Some in Hg.
  split; [| split].
  - f_equal. unfold appended. f_equal. rewrite filter_filter_and.
    apply List.filter_ext. intros item.
    unfold keep_item, in_scope_file.
    destruct (is_dir item), (has_excluded_extension (item_name item)),
      (out_of_scope base_path item); reflexivity.
  - apply forallb_forall. intros sub Hsub.
    apply in_map_iff in Hsub as ([t' tr'] & <- & Hr).
    destruct (Forall2_In_r _ _ _ _ Hg Hr) as (q & _ & Hrun).
    apply walker_returns_directory in Hrun. cbn [fst]. now rewrite Hrun.
  - assert (Hnames : map node_name (map fst results) =
                     map (structure_name repo) (queued base_path c)).
    { clear -Hg. induction Hg as [|q [t' tr'] qs rs Hrun _ IH];
        [reflexivity |].
      cbn [map fst]. rewrite IH. f_equal.
      apply walker_returns_directory in Hrun. now rewrite Hrun. }
    rewrite Hnames. unfold queued. rewrite map_map. f_equal.
    rewrite filter_filter_and.
    apply List.filter_ext. intros item.
    unfold keep_item, in_scope_dir.
    destruct (is_dir item), (has_excluded_extension (item_name item)),
      (out_of_scope base_path item); reflexivity.
Qed.

Lemma X2_children_are_files_then_directories_witness :
  exists dirs,
    [FileEntry "README.md" "README.md";
     Directory "good" [FileEntry "a.py" "good/a.py"];
     Directory "bad" []] =
    [FileEntry "README.md" "README.md"] ++ dirs /\
    forallb is_directory dirs = true /\
    map node_name dirs = ["good"; "bad"].
Proof.
  apply (X2_children_are_files_then_directories 1 repo_partial "" 0%Z None
           (Listing [entry "dir" "good" "good"; entry "dir" "bad" "bad";
                     entry "file" "README.md" "README.md"])
           (Directory "demo"
              [FileEntry "README.md" "README.md";
               Directory "good" [FileEntry "a.py" "good/a.py"];
               Directory "bad" []])
           [EvWalk ""; EvList ""; EvWalk "good"; EvList "good";
            EvWalk "bad"; EvList "bad"]); reflexivity.
Defined.

Lemma list_sum_cons (x : nat) (l : list nat) :
  list_sum (x :: l) = (x + list_sum l)%nat.
Proof. reflexivity. Qed.

Lemma walk_count_app (a b : list event) :
  walk_count (a ++ b) = (walk_count a + walk_count b)%nat.
Proof. unfold walk_count. now rewrite List.filter_app, List.length_app. Qed.

Lemma walk_count_concat (trs : list (list event)) :
  walk_count (concat trs) = list_sum (map walk_count trs).
Proof.
  induction trs as [|tr trs IH]; [reflexivity |].
  cbn [concat map list_sum]. now rewrite walk_count_app, IH.
Qed.

Lemma directory_count_files (items : list ContentFile) :
  list_sum (map directory_count (map file_of items)) = 0%nat.
Proof. induction items as [|i items IH]; [reflexivity | exact IH]. Qed.

(** X3. The tree the walker returns has exactly one directory node per entry
    into the walker: every call contributes its own node, and no node comes
    from anywhere else. *)
Theorem X3_one_directory_node_per_walk (fuel : nat) :
  forall (repo : Repository) (path : string) (d : Z)
         (base_path : option string) (t : node) (tr : list event),
  _fetch_repo_structure_async fuel repo path d base_path = Some (t, tr) ->
  walk_count tr = directory_count t.
Proof.
  induction fuel as [|fuel IH]; intros repo path d base_path t tr;
    [discriminate |].
  rewrite walker_unfold.
  destruct (max_depth <=? compute_depth path base_path)%Z.
  { now intros [= <- <-]. }
  destruct (get_contents repo path) as [c | e]; [| now intros [= <- <-]].
  destruct (gather _) as [results |] eqn:Hg; [| discriminate].
  intros [= <- <-]. apply gather_map_Some in Hg.
  cbn [directory_count]. unfold appended.
  rewrite map_app, list_sum_app, directory_count_files.
  change (walk_count (EvWalk path :: EvList path :: concat (map snd results)))
    with (S (walk_count (concat (map snd results)))).
  rewrite walk_count_concat. cbn [Nat.add]. f_equal.
  clear -Hg IH. induction Hg as [|q [t' tr'] qs rs Hrun _ IHg];
    [reflexivity |].
  cbn [map fst snd]. rewrite !list_sum_cons.
  now rewrite IHg, (IH _ _ _ _ _ _ Hrun).
Qed.

Lemma X3_one_directory_node_per_walk_witness :
  walk_count [EvWalk ""; EvList ""; EvWalk "good"; EvList "good";
              EvWalk "bad"; EvList "bad"] =
  directory_count
    (Directory "demo"
       [FileEntry "README.md" "README.md";
        Directory "good" [FileEntry "a.py" "good/a.py"];
        Directory "bad" []]).
Proof.
  apply (X3_one_directory_node_per_walk 2 repo_partial "" 0%Z None).
  reflexivity.
Defined.

(** ** The formatter *)

Lemma length_flat_map_sum {A B : Type} (f : A -> list B) (l : list A) :
  length (flat_map f l) = list_sum (map (fun x => length (f x)) l).
Proof.
  induction l as [|x l IH]; [reflexivity |].
  cbn [flat_map map list_sum]. now rewrite List.length_app, IH.
Qed.

Lemma list_sum_perm (l l' : list nat) :
  Permutation l l' -> list_sum l = list_sum l'.
Proof.
  induction 1; rewrite ?list_sum_cons; lia.
Qed.

Lemma _format_node_length (t : node) :
  forall depth,
    (length (_format_node t depth) + (if (0 <? depth)%nat then 0 else 1))%nat
    = node_count t.
Proof.
  induction t as [name children IH | name path] using node_ind';
    intros depth.
  2:{ rewrite _format_node_file. unfold own_line.
      destruct (0 <? depth)%nat; reflexivity. }
  rewrite _format_node_children, List.length_app, length_flat_map_sum.
  cbn [node_count].
  assert (Hsum : list_sum (map (fun c => length (_format_node c (S depth)))
                             (sorted_by node_name children))
                 = list_sum (map node_count children)).
  { rewrite (list_sum_perm (map node_count children)
               (map node_count (sorted_by node_name children)))
      by (apply Permutation_map, sorted_by_perm).
    f_equal. apply map_ext_in. intros c Hc.
    assert (Hin : In c children)
      by (eapply Permutation_in; [symmetry; apply sorted_by_perm | exact Hc]).
    rewrite List.Forall_forall in IH.
    specialize (IH c Hin (S depth)). cbn [Nat.ltb Nat.leb] in IH. lia. }
  rewrite Hsum. unfold own_line.
  destruct (0 <? depth)%nat; cbn [length]; lia.
Qed.

(** X4. The formatter emits one line per node of the tree except the root:
    formatting a tree from depth 0 yields as many lines as the tree has
    nodes, less one, whatever the order of the children. *)
Theorem X4_one_line_per_node_below_root (t : node) :
  length (_format_node t 0) = (node_count t - 1)%nat.
Proof.
  pose proof (_format_node_length t 0) as H. cbn [Nat.ltb Nat.leb] in H. lia.
Qed.

Lemma concat_head_nonempty (sep : string) (c : ascii) (x : string)
    (rest : list string) :
  exists tail, String.concat sep (String c x :: rest) = String c tail.
Proof.
  destruct rest as [|y rest]; cbn [String.concat].
  - now exists x.
  - rewrite append_cons. eexists. reflexivity.
Qed.

(** X5. The formatted text is empty exactly when the root has no children:
    any child, file or directory, contributes a line that starts with the
    two-space indent. *)
Theorem X5_empty_text_iff_no_children (t : node) :
  _format_tree_structure t = "" <-> node_children t = [].
Proof.
  destruct t as [name children | name path]; [| split; reflexivity].
  cbn [node_children]. unfold _format_tree_structure, Py.join_lines.
  rewrite _format_node_children. unfold own_line. cbn [Nat.ltb Nat.leb app].
  split.
  - intros Hempty.
    destruct (sorted_by node_name children) as [|c cs] eqn:Hs.
    + pose proof (sorted_by_perm node_name children) as Hp. rewrite Hs in Hp.
      symmetry in Hp. now apply Permutation_nil in Hp.
    + exfalso. cbn [flat_map] in Hempty.
      destruct (_format_node_head c 0) as [rest Hhead].
      rewrite Hhead in Hempty. cbn [app] in Hempty.
      change (indent 1 +:+ node_name c)
        with (String " " (String " " (node_name c))) in Hempty.
      destruct (concat_head_nonempty Py.newline " "
                  (String " " (node_name c))
                  (rest ++ flat_map (fun ch => _format_node ch 1) cs))
        as [tail Htail].
      rewrite Htail in Hempty. discriminate Hempty.
  - now intros ->.
Qed.

(** ** The cache *)






(** What a request does to the cache: nothing, or one write of the text it
    returns under its own key. *)
Lemma response_cases (fuel : nat) (env : Env) (cache cache' : gmap string string)
    (project_id : string) (path : option string) (o : outcome string)
    (trace : list event) :
  get_project_structure_async fuel env cache project_id path =
    Some (o, cache', trace) ->
  (cache' = cache /\
   forall text, o = Ret text ->
     cache !! cache_key project_id path = Some text) \/
  (exists text,
     o = Ret text /\ cache' = <[cache_key project_id path := text]> cache).
Proof.
  intros Hrun.
  destruct (Py.truthy_opt (cache !! cache_key project_id path)) eqn:Hc.
  - unfold get_project_structure_async in Hrun. rewrite Hc in Hrun.
    injection Hrun as <- <- _. left. split; [reflexivity |].
    intros text [= <-].
    destruct (cache !! cache_key project_id path); [reflexivity |].
    discriminate Hc.
  - rewrite (cache_miss _ _ _ _ _ Hc) in Hrun.
    destruct (get_project_from_db_by_id env project_id) as [project |].
    2:{ injection Hrun as <- <- _. left. split; [reflexivity | discriminate]. }
    destruct (negb _).
    { injection Hrun as <- <- _. left. split; [reflexivity | discriminate]. }
    destruct (try_body _ _ _ _ _ _) as [[[o0 c0] tr0] |] eqn:Hbody;
      [| discriminate].
    injection Hrun as <- <- _.
    unfold try_body in Hbody.
    destruct (get_repo env _) as [repo | e].
    2:{ injection Hbody as <- <- _. left. split; [reflexivity |].
        destruct e; discriminate. }
    destruct (if Py.truthy_opt path then _ else None) as [e |].
    { injection Hbody as <- <- _. left. split; [reflexivity |].
      destruct e; discriminate. }
    destruct (_fetch_repo_structure_async _ _ _ _ _) as [[structure w] |];
      [| discriminate].
    destruct (setex_error env).
    { injection Hbody as <- <- _. left. split; [reflexivity | discriminate]. }
    injection Hbody as <- <- _. right. eexists. split; reflexivity.
Qed.

(** X7. A request touches the cache only under its own key and only when it
    returns a text: every other key keeps its entry, a request that raises
    leaves the cache as it was, and after a request that returns a text the
    entry under its key is that text. *)
Theorem X7_cache_written_only_on_success (fuel : nat) (env : Env)
    (cache cache' : gmap string string) (project_id : string)
    (path : option string) (o : outcome string) (trace : list event) :
  get_project_structure_async fuel env cache project_id path =
    Some (o, cache', trace) ->
  (forall key, key <> cache_key project_id path ->
     cache' !! key = cache !! key) /\
  (forall e, o = Raise e -> cache' = cache) /\
  (forall text, o = Ret text ->
     cache' !! cache_key project_id path = Some text).
Proof.
  intros Hrun.
  destruct (response_cases _ _ _ _ _ _ _ _ Hrun)
    as [[-> Hhit] | (text & -> & ->)].
  - split; [reflexivity |]. split; [reflexivity | exact Hhit].
  - split; [| split].
    + intros key Hkey. now apply lookup_insert_ne.
    + discriminate.
    + intros text' [= <-]. apply lookup_insert_eq.
Qed.

Lemma X7_cache_written_only_on_success_witness :
  exists text cache' trace,
    get_project_structure_async 2 env_partial {[ "other" := "kept" ]} "p1"
      None = Some (Ret text, cache', trace) /\
    cache' !! "other" = Some "kept" /\
    cache' !! key_p1 = Some text.
Proof.
  destruct (get_project_structure_async 2 env_partial {[ "other" := "kept" ]}
              "p1" None) as [[[o cache'] trace] |] eqn:Hrun;
    [| vm_compute in Hrun; discriminate].
  destruct (X7_cache_written_only_on_success _ _ _ _ _ _ _ _ Hrun)
    as (Hother & _ & Htext).
  assert (Ho : exists text, o = Ret text).
  { vm_compute in Hrun. injection Hrun as <- _ _. eexists. reflexivity. }
  destruct Ho as [text ->].
  exists text, cache', trace. split; [reflexivity |]. split.
  - rewrite Hother; [vm_compute; reflexivity | vm_compute; discriminate].
  - now apply Htext.
Defined.

(** X8. A scope path the repository cannot list fails the request with
    status 404 and the path in the detail, before any walk: the only
    interactions are the cache read, the project lookup, the credential
    resolution and the probe, and the cache is left as it was. *)
Theorem X8_unknown_scope_path_is_rejected_before_the_walk (fuel : nat)
    (env : Env) (cache : gmap string string) (project_id : string)
    (p : string) (project : Project) (repo : Repository) (e : exn) :
  Py.truthy_opt (cache !! cache_key project_id (Some p)) = false ->
  get_project_from_db_by_id env project_id = Some project ->
  Py.truthy (default "" (project_name project)) = true ->
  get_repo env (default "" (project_name project)) = Ret repo ->
  Py.truthy p = true ->
  get_contents repo p = Raise e ->
  get_project_structure_async fuel env cache project_id (Some p) =
  Some (Raise (HTTPException 404
                 ("Path " +:+ p +:+ " not found in repository")),
        cache,
        lookup_events project_id (Some p)
        ++ [EvResolve (default "" (project_name project)); EvProbe p]).
Proof.
  intros Hmiss Hproject Hname Hrepo Hp Hprobe.
  rewrite (cache_miss _ _ _ _ _ Hmiss), Hproject, Hname. cbn [negb].
  unfold try_body. rewrite Hrepo. cbn [Py.truthy_opt default].
  rewrite Hp. change (get_contents repo (id p)) with (get_contents repo p).
  rewrite Hprobe. reflexivity.
Qed.

Lemma X8_unknown_scope_path_is_rejected_before_the_walk_witness :
  get_project_structure_async 0 env_partial ∅ "p1" (Some "nowhere") =
  Some (Raise (HTTPException 404 "Path nowhere not found in repository"),
        ∅,
        lookup_events "p1" (Some "nowhere")
        ++ [EvResolve "acme/demo"; EvProbe "nowhere"]).
Proof.
  apply (X8_unknown_scope_path_is_rejected_before_the_walk 0 env_partial ∅
           "p1" "nowhere" (mkProject (Some "acme/demo")) repo_partial
           (OtherException "502 Bad Gateway"));
    try reflexivity; vm_compute; reflexivity.
Defined.

Lemma drop_chars_all (s : string) : Py.drop_chars (String.length s) s = "".
Proof. induction s as [|c s IH]; [reflexivity | exact IH]. Qed.

(** X9. With a scope path, depth is counted from that path: the scope
    directory itself has depth 0 however many segments it has, so the
    walker lists it instead of cutting it at the depth limit that applies
    to the same directory in a walk from the root. *)
Theorem X9_scope_directory_has_depth_zero (p : string) :
  Py.truthy p = true ->
  compute_depth p (Some p) = 0%Z /\
  forall (fuel : nat) (repo : Repository) (d : Z) (t : node)
         (tr : list event),
    _fetch_repo_structure_async fuel repo p d (Some p) = Some (t, tr) ->
    In (EvList p) tr.
Proof.
  intros Hp.
  assert (Hdepth : compute_depth p (Some p) = 0%Z).
  { unfold compute_depth. rewrite Hp. cbv zeta.
    now rewrite drop_chars_all. }
  split; [exact Hdepth |].
  intros [|fuel] repo d t tr; [discriminate |].
  rewrite walker_unfold, Hdepth. cbn [Z.leb Z.compare max_depth].
  destruct (get_contents repo p) as [c | e].
  - destruct (gather _) as [results |]; [| discriminate].
    intros [= <- <-]. right. now left.
  - intros [= <- <-]. right. now left.
Qed.

Lemma X9_scope_directory_has_depth_zero_witness :
  compute_depth "a/b/c/d/e" (Some "a/b/c/d/e") = 0%Z /\
  compute_depth "a/b/c/d/e" None = 5%Z.
Proof.
  split; [| reflexivity].
  apply (X9_scope_directory_has_depth_zero "a/b/c/d/e"). reflexivity.
Defined.

(** * Properties of the token pool *)

Lemma append_nil_l (t : string) : "" +:+ t = t.
Proof. reflexivity. Qed.

Lemma lstrip_starts_clean (s : string) :
  starts_clean (PyStr.lstrip s) = true.
Proof.
  induction s as [|c s IH]; [reflexivity |].
  cbn [PyStr.lstrip]. destruct (PyStr.is_space c) eqn:Hc; [exact IH |].
  cbn [starts_clean]. now rewrite Hc.
Qed.

Lemma lstrip_of_starts_clean (s : string) :
  starts_clean s = true -> PyStr.lstrip s = s.
Proof.
  destruct s as [|c s]; [reflexivity |]. cbn [starts_clean PyStr.lstrip].
  now destruct (PyStr.is_space c).
Qed.

Lemma rstrip_starts_clean (s : string) :
  starts_clean s = true -> starts_clean (PyStr.rstrip s) = true.
Proof.
  destruct s as [|c s]; [reflexivity |]. cbn [starts_clean PyStr.rstrip].
  intros Hc. apply negb_true_iff in Hc. rewrite Hc. cbn [andb starts_clean].
  now rewrite Hc.
Qed.

Lemma rstrip_idempotent (s : string) :
  PyStr.rstrip (PyStr.rstrip s) = PyStr.rstrip s.
Proof.
  induction s as [|c s IH]; [reflexivity |]. cbn [PyStr.rstrip].
  destruct (PyStr.is_space c && negb (Py.truthy (PyStr.rstrip s))) eqn:Hc;
    [reflexivity |].
  cbn [PyStr.rstrip]. now rewrite IH, Hc.
Qed.

Lemma strip_idempotent (s : string) :
  PyStr.strip (PyStr.strip s) = PyStr.strip s.
Proof.
  unfold PyStr.strip.
  rewrite (lstrip_of_starts_clean (PyStr.rstrip (PyStr.lstrip s)))
    by apply rstrip_starts_clean, lstrip_starts_clean.
  apply rstrip_idempotent.
Qed.

Lemma has_char_lstrip (c : ascii) (s : string) :
  has_char c s = false -> has_char c (PyStr.lstrip s) = false.
Proof.
  induction s as [|x s IH]; [trivial |]. cbn [has_char PyStr.lstrip].
  intros H. apply orb_false_iff in H as [Hx Hs].
  destruct (PyStr.is_space x); [now apply IH |].
  cbn [has_char]. now rewrite Hx, Hs.
Qed.

Lemma has_char_rstrip (c : ascii) (s : string) :
  has_char c s = false -> has_char c (PyStr.rstrip s) = false.
Proof.
  induction s as [|x s IH]; [trivial |]. cbn [has_char PyStr.rstrip].
  intros H. apply orb_false_iff in H as [Hx Hs].
  destruct (PyStr.is_space x && negb (Py.truthy (PyStr.rstrip s)));
    [reflexivity |].
  cbn [has_char]. now rewrite Hx, (IH Hs).
Qed.

Lemma has_char_strip (c : ascii) (s : string) :
  has_char c s = false -> has_char c (PyStr.strip s) = false.
Proof. intros H. now apply has_char_rstrip, has_char_lstrip. Qed.

Lemma split_on_nonempty (sep : ascii) (s : string) :
  PyStr.split_on sep s <> [].
Proof.
  induction s as [|c s IH]; cbn [PyStr.split_on]; [discriminate |].
  destruct (Ascii.eqb c sep); [discriminate |].
  destruct (PyStr.split_on sep s); [contradiction | discriminate].
Qed.

(** No piece of a split holds the separator. *)
Lemma split_on_pieces (sep : ascii) (s : string) :
  forall piece, In piece (PyStr.split_on sep s) ->
  has_char sep piece = false.
Proof.
  induction s as [|c s IH]; cbn [PyStr.split_on].
  - intros piece [<- | []]. reflexivity.
  - destruct (Ascii.eqb c sep) eqn:Hc.
    + intros piece [<- | Hin]; [reflexivity | now apply IH].
    + destruct (PyStr.split_on sep s) as [|h t] eqn:Hs.
      * intros piece [<- | []]. cbn [has_char]. now rewrite Hc.
      * intros piece [<- | Hin].
        -- cbn [has_char]. rewrite Hc. apply IH. now left.
        -- apply IH. now right.
Qed.

(** Splitting undoes joining when no joined string holds the separator. *)
Lemma split_on_single (sep : ascii) (x : string) :
  has_char sep x = false -> PyStr.split_on sep x = [x].
Proof.
  induction x as [|c x IH]; [reflexivity |]. cbn [has_char PyStr.split_on].
  intros H. apply orb_false_iff in H as [Hc Hx].
  now rewrite Hc, (IH Hx).
Qed.

Lemma split_on_app (sep : ascii) (x rest : string) :
  has_char sep x = false ->
  PyStr.split_on sep (x +:+ String sep rest) = x :: PyStr.split_on sep rest.
Proof.
  induction x as [|c x IH].
  - intros _. rewrite append_nil_l. cbn [PyStr.split_on].
    now rewrite Ascii.eqb_refl.
  - cbn [has_char]. intros H. apply orb_false_iff in H as [Hc Hx].
    rewrite append_cons. cbn [PyStr.split_on]. now rewrite Hc, (IH Hx).
Qed.

Lemma split_on_join (sep : ascii) (l : list string) :
  l <> [] ->
  (forall x, In x l -> has_char sep x = false) ->
  PyStr.split_on sep (PyStr.join (String sep "") l) = l.
Proof.
  unfold PyStr.join.
  induction l as [|x l IH]; [contradiction |]. intros _ Hall.
  destruct l as [|y l]; cbn [String.concat].
  - apply split_on_single, Hall. now left.
  - rewrite append_cons, append_nil_l.
    rewrite split_on_app by (apply Hall; now left).
    f_equal. apply IH; [discriminate |].
    intros z Hz. apply Hall. now right.
Qed.

Lemma clean_token_inv (t : string) :
  clean_token t = true ->
  Py.truthy t = true /\ PyStr.strip t = t /\ has_char ","%char t = false.
Proof.
  unfold clean_token. intros H.
  apply andb_true_iff in H as [H Hcomma].
  apply andb_true_iff in H as [Ht Hstrip].
  apply String.eqb_eq in Hstrip. apply negb_true_iff in Hcomma. auto.
Qed.

Lemma parse_tokens_clean (token_string : string) :
  forallb clean_token (parse_tokens token_string) = true.
Proof.
  apply forallb_forall. intros t Ht. unfold parse_tokens in Ht.
  apply in_map_iff in Ht as (piece & <- & Hpiece).
  apply filter_In in Hpiece as [Hpiece Htruthy].
  unfold clean_token.
  rewrite Htruthy, strip_idempotent, String.eqb_refl.
  now rewrite (has_char_strip _ _ (split_on_pieces _ _ _ Hpiece)).
Qed.

(** X10. The token list that [initialize_tokens] installs holds only clean
    tokens: none is empty, none carries white space at either end, none
    holds a comma. The call returns exactly when that list is not empty;
    otherwise it raises the [ValueError], having already replaced the list
    by the empty one. An unset variable behaves as the empty string. *)
Theorem X10_initialize_tokens_installs_clean_tokens
    (GH_TOKEN_LIST : option string) :
  forallb clean_token (snd (initialize_tokens GH_TOKEN_LIST)) = true /\
  snd (initialize_tokens GH_TOKEN_LIST)
    = parse_tokens (default "" GH_TOKEN_LIST) /\
  (fst (initialize_tokens GH_TOKEN_LIST) = Ret tt <->
   snd (initialize_tokens GH_TOKEN_LIST) <> []) /\
  (snd (initialize_tokens GH_TOKEN_LIST) = [] ->
   fst (initialize_tokens GH_TOKEN_LIST) =
   Raise (OtherException
            "GitHub token list is empty or not set in environment variables")) /\
  initialize_tokens None = initialize_tokens (Some "").
Proof.
  unfold initialize_tokens.
  pose proof (parse_tokens_clean (default "" GH_TOKEN_LIST)) as Hclean.
  destruct (parse_tokens (default "" GH_TOKEN_LIST)) as [|t l];
    cbn [fst snd].
  - repeat split; try reflexivity; try discriminate; try contradiction.
  - repeat split; try reflexivity; try discriminate; try exact Hclean.
Qed.

(** X11. Joining clean tokens with commas and parsing the result gives the
    tokens back, in the same order: [initialize_tokens] installs exactly
    the list that was joined. *)
Theorem X11_tokens_round_trip (tokens : list string) :
  forallb clean_token tokens = true ->
  parse_tokens (PyStr.join "," tokens) = tokens /\
  snd (initialize_tokens (Some (PyStr.join "," tokens))) = tokens.
Proof.
  intros Hclean. rewrite forallb_forall in Hclean.
  assert (Hparse : parse_tokens (PyStr.join "," tokens) = tokens).
  { destruct tokens as [|t l]; [reflexivity |].
    unfold parse_tokens.
    rewrite split_on_join;
      [| discriminate
       | intros x Hx; now destruct (clean_token_inv _ (Hclean x Hx))
                                    as (_ & _ & ?)].
    generalize (t :: l) Hclean. clear. intros l Hclean.
    induction l as [|x l IH]; [reflexivity |].
    destruct (clean_token_inv _ (Hclean x (or_introl eq_refl)))
      as (Ht & Hs & _).
    cbn [List.filter]. rewrite Hs, Ht. cbn [map]. rewrite Hs. f_equal.
    apply IH. intros y Hy. apply Hclean. now right. }
  split; [exact Hparse |].
  unfold initialize_tokens. cbn [default]. change (id ?x) with x.
  rewrite Hparse. now destruct tokens.
Qed.

Lemma X11_tokens_round_trip_witness :
  parse_tokens "ghp_one,ghp_two,ghp three" =
    ["ghp_one"; "ghp_two"; "ghp three"] /\
  snd (initialize_tokens (Some "ghp_one,ghp_two,ghp three")) =
    ["ghp_one"; "ghp_two"; "ghp three"].
Proof.
  apply (X11_tokens_round_trip ["ghp_one"; "ghp_two"; "ghp three"]).
  reflexivity.
Defined.

(** X12. [get_public_github_instance] builds its client with a token of the
    pool. A non-empty pool is used as it is; an empty pool is first filled
    from the environment, and the call raises only if it is still empty
    after that. *)
Theorem X12_public_instance_uses_a_pool_token
    (GH_TOKEN_LIST : option string) (r : nat) (pool pool' : list string)
    (o : outcome string) :
  get_public_github_instance GH_TOKEN_LIST r pool = (o, pool') ->
  (pool <> [] -> pool' = pool) /\
  (pool = [] -> pool' = parse_tokens (default "" GH_TOKEN_LIST)) /\
  (forall token, o = Ret token -> In token pool') /\
  (forall e, o = Raise e -> pool = [] /\ pool' = []).
Proof.
  assert (Hpick : forall l : list string, l <> [] -> In (random_choice r l) l).
  { intros l Hl. unfold random_choice. apply nth_In.
    apply Nat.mod_upper_bound. destruct l; [contradiction | discriminate]. }
  unfold get_public_github_instance.
  destruct pool as [|t l].
  - unfold initialize_tokens.
    destruct (parse_tokens (default "" GH_TOKEN_LIST)) as [|t l] eqn:Hp.
    + intros [= <- <-]. split; [contradiction |].
      split; [reflexivity |]. split; [discriminate |]. now split.
    + intros [= <- <-]. split; [contradiction |].
      split; [reflexivity |]. split; [| discriminate].
      intros token [= <-]. now apply Hpick.
  - intros [= <- <-]. split; [reflexivity |].
    split; [discriminate |]. split; [| discriminate].
    intros token [= <-]. now apply Hpick.
Qed.

Lemma X12_public_instance_uses_a_pool_token_witness :
  In "b" ["a"; "b"; "c"].
Proof.
  apply (X12_public_instance_uses_a_pool_token (Some "a, b ,c") 4 []
           ["a"; "b"; "c"] (Ret "b")); reflexivity.
Defined.

(** * Properties of repository resolution and of the branch list *)

Lemma get_repo_raise (env : Env) (repo_name : string) (e : exn) :
  get_repo env repo_name = Raise e ->
  e = HTTPException 404
        ("Repository " +:+ repo_name
         +:+ " not found or inaccessible on GitHub") /\
  (exists e1, authenticated_repo env repo_name = Raise e1) /\
  (exists e2, public_repo env repo_name = Raise e2).
Proof.
  unfold get_repo.
  destruct (authenticated_repo env repo_name) as [r | e1]; [discriminate |].
  destruct (public_repo env repo_name) as [r | e2]; [discriminate |].
  intros [= <-]. eauto.
Qed.

(** X13. [get_repo] raises exactly when both the authenticated access and
    the public access of the call raise, and then always the same 404 that
    names the repository, whatever the two accesses raised. The
    authenticated handle is returned whenever the authenticated access
    succeeds; the public handle only when the authenticated access
    raised. *)
Theorem X13_get_repo_fails_only_with_404 (env : Env) (repo_name : string) :
  (forall e, get_repo env repo_name = Raise e ->
     e = HTTPException 404
           ("Repository " +:+ repo_name
            +:+ " not found or inaccessible on GitHub") /\
     (exists e1, authenticated_repo env repo_name = Raise e1) /\
     (exists e2, public_repo env repo_name = Raise e2)) /\
  (forall repo, authenticated_repo env repo_name = Ret repo ->
     get_repo env repo_name = Ret repo) /\
  (forall e1 repo, authenticated_repo env repo_name = Raise e1 ->
     public_repo env repo_name = Ret repo ->
     get_repo env repo_name = Ret repo) /\
  (forall e1 e2, authenticated_repo env repo_name = Raise e1 ->
     public_repo env repo_name = Raise e2 ->
     get_repo env repo_name =
     Raise (HTTPException 404
              ("Repository " +:+ repo_name
               +:+ " not found or inaccessible on GitHub"))).
Proof.
  split; [| split; [| split]].
  - intros e He. exact (get_repo_raise _ _ _ He).
  - intros repo H. unfold get_repo. now rewrite H.
  - intros e1 repo H1 H2. unfold get_repo. now rewrite H1, H2.
  - intros e1 e2 H1 H2. unfold get_repo. now rewrite H1, H2.
Qed.

Lemma X13_get_repo_fails_only_with_404_witness :
  get_repo env_locked "acme/private" =
  Raise (HTTPException 404
           ("Repository " +:+ "acme/private"
            +:+ " not found or inaccessible on GitHub")).
Proof.
  apply (proj2 (proj2 (proj2 (X13_get_repo_fails_only_with_404 env_locked
                                "acme/private")))
           (OtherException "401 Bad credentials")
           (OtherException "401 Bad credentials")); reflexivity.
Defined.

Lemma random_choice_In (r : nat) (l : list string) :
  l <> [] -> In (random_choice r l) l.
Proof.
  intros Hl. unfold random_choice. apply nth_In.
  apply Nat.mod_upper_bound. destruct l; [contradiction | discriminate].
Qed.

(** X30. [check_public_repo] raises nothing. It answers [True] only when a
    token of the pool opens the repository. With an empty pool that the
    environment cannot fill, the [ValueError] of [initialize_tokens] is
    swallowed and the answer is [False]. With a non-empty pool the answer
    does not depend on the draw when all tokens are refused, or all
    accepted. *)
Theorem X30_check_public_repo_answers_false_on_failure
    (GH_TOKEN_LIST : option string) (r : nat) (pool : list string)
    (open_repo : string -> string -> outcome Repository)
    (repo_name : string) :
  (fst (check_public_repo GH_TOKEN_LIST r pool open_repo repo_name) = true ->
   exists token repo,
     In token
        (snd (check_public_repo GH_TOKEN_LIST r pool open_repo repo_name)) /\
     open_repo token repo_name = Ret repo) /\
  (pool = [] -> parse_tokens (default "" GH_TOKEN_LIST) = [] ->
   check_public_repo GH_TOKEN_LIST r pool open_repo repo_name
   = (false, [])) /\
  (pool <> [] ->
   (forall token, In token pool ->
      exists e, open_repo token repo_name = Raise e) ->
   check_public_repo GH_TOKEN_LIST r pool open_repo repo_name
   = (false, pool)) /\
  (pool <> [] ->
   (forall token, In token pool ->
      exists repo, open_repo token repo_name = Ret repo) ->
   check_public_repo GH_TOKEN_LIST r pool open_repo repo_name
   = (true, pool)).
Proof.
  assert (Hfull : pool <> [] ->
            get_public_github_instance GH_TOKEN_LIST r pool
            = (Ret (random_choice r pool), pool)).
  { intros Hne. unfold get_public_github_instance.
    destruct pool; [contradiction | reflexivity]. }
  split; [| split; [| split]].
  - unfold check_public_repo, get_public_github_instance.
    destruct pool as [|t l].
    + unfold initialize_tokens.
      destruct (parse_tokens (default "" GH_TOKEN_LIST)) as [|t l] eqn:Hp;
        cbn [fst snd]; [discriminate |].
      destruct (open_repo (random_choice r (t :: l)) repo_name)
        as [repo | e] eqn:Hopen; [| discriminate].
      intros _. exists (random_choice r (t :: l)), repo.
      split; [now apply random_choice_In | exact Hopen].
    + cbn [fst snd].
      destruct (open_repo (random_choice r (t :: l)) repo_name)
        as [repo | e] eqn:Hopen; [| discriminate].
      intros _. exists (random_choice r (t :: l)), repo.
      split; [now apply random_choice_In | exact Hopen].
  - intros -> Hempty.
    unfold check_public_repo, get_public_github_instance, initialize_tokens.
    now rewrite Hempty.
  - intros Hne Hall. unfold check_public_repo. rewrite (Hfull Hne).
    destruct (Hall _ (random_choice_In r pool Hne)) as [e ->]. reflexivity.
  - intros Hne Hall. unfold check_public_repo. rewrite (Hfull Hne).
    destruct (Hall _ (random_choice_In r pool Hne)) as [repo ->].
    reflexivity.
Qed.

Lemma X30_check_public_repo_answers_false_on_failure_witness :
  check_public_repo None 3 [] demo_open_repo "acme/demo" = (false, []) /\
  check_public_repo None 3 ["ghp_old"; "ghp_revoked"] demo_open_repo
    "acme/demo" = (false, ["ghp_old"; "ghp_revoked"]).
Proof.
  split.
  - apply (proj1 (proj2 (X30_check_public_repo_answers_false_on_failure
                           None 3 [] demo_open_repo "acme/demo")));
      reflexivity.
  - apply (proj1 (proj2 (proj2
             (X30_check_public_repo_answers_false_on_failure
                None 3 ["ghp_old"; "ghp_revoked"] demo_open_repo
                "acme/demo")))).
    + discriminate.
    + intros token [<- | [<- | []]]; eexists; reflexivity.
Defined.

(** X14. Provided the GitHub client raises no [HTTPException] of its own,
    whatever goes wrong in [get_branch_list] - the repository cannot be
    resolved, reading the default branch raises, listing the branches
    raises - the caller sees an [HTTPException] with status 404. *)
Theorem X14_branch_list_fails_only_with_404 (env : Env) (api : BranchApi)
    (repo_name : string) (e : exn) :
  (forall repo status detail,
     default_branch api repo <> Raise (HTTPException status detail) /\
     get_branches api repo <> Raise (HTTPException status detail)) ->
  get_branch_list env api repo_name = Raise e ->
  exists detail, e = HTTPException 404 detail.
Proof.
  intros Hclient. unfold get_branch_list, bind.
  destruct (get_repo env repo_name) as [repo | e0] eqn:Hrepo.
  - destruct (default_branch api repo) as [d | [s dt | m]] eqn:Hd;
      cbn [branch_except].
    + destruct (get_branches api repo) as [bs | [s dt | m]] eqn:Hb;
        cbn [branch_except].
      * discriminate.
      * now destruct (proj2 (Hclient repo s dt)).
      * intros [= <-]. eauto.
    + now destruct (proj1 (Hclient repo s dt)).
    + intros [= <-]. eauto.
  - destruct (get_repo_raise _ _ _ Hrepo) as (-> & _). cbn [branch_except].
    intros [= <-]. eauto.
Qed.

Lemma X14_branch_list_fails_only_with_404_witness :
  exists detail,
    HTTPException 404
      "Repository not found or error fetching branches: 403 rate limit"
    = HTTPException 404 detail.
Proof.
  apply (X14_branch_list_fails_only_with_404 env_partial
           (branches_of (Ret "main") (Raise (OtherException "403 rate limit")))
           "acme/demo").
  - intros repo status detail. split; discriminate.
  - reflexivity.
Defined.

(** X15. When the repository is resolved and both reads succeed, the
    branch list starts with the default branch, which occurs in it exactly
    once; the other names are the listed branches different from the
    default one, in listing order. So a name is in the result exactly when
    it is the default branch or a listed branch, and a listing without
    repetition gives a result without repetition. *)
Theorem X15_default_branch_first_and_once (env : Env) (api : BranchApi)
    (repo_name : string) (repo : Repository) (default : string)
    (branches : list string) :
  get_repo env repo_name = Ret repo ->
  default_branch api repo = Ret default ->
  get_branches api repo = Ret branches ->
  exists others,
    get_branch_list env api repo_name = Ret (default :: others) /\
    others = List.filter (fun name => negb (String.eqb name default))
               branches /\
    count_occ string_dec (default :: others) default = 1%nat /\
    (forall name, In name (default :: others) <->
                  name = default \/ In name branches) /\
    (List.NoDup branches -> List.NoDup (default :: others)).
Proof.
  intros Hrepo Hd Hb. eexists. split.
  { unfold get_branch_list, bind. rewrite Hrepo, Hd, Hb. reflexivity. }
  split; [reflexivity |].
  set (others := List.filter _ branches).
  assert (Hnot : ~ In default others).
  { unfold others. intros Hin. apply filter_In in Hin as [_ H].
    now rewrite String.eqb_refl in H. }
  split; [| split].
  - cbn [count_occ]. destruct (string_dec default default); [| contradiction].
    f_equal. now apply count_occ_not_In.
  - intros name. cbn [In]. unfold others. rewrite filter_In. split.
    + intros [<- | [Hin _]]; auto.
    + intros [-> | Hin]; [now left |].
      destruct (String.eqb_spec name default) as [-> | Hne]; [now left |].
      right. split; [exact Hin |].
      destruct (String.eqb name default) eqn:E; [| reflexivity].
      apply String.eqb_eq in E. contradiction.
  - intros Hnd. constructor; [exact Hnot |].
    unfold others. now apply List.NoDup_filter.
Qed.

Lemma X15_default_branch_first_and_once_witness :
  exists others,
    get_branch_list env_partial
      (branches_of (Ret "main") (Ret ["dev"; "main"; "fix"])) "acme/demo"
    = Ret ("main" :: others) /\
    others = ["dev"; "fix"].
Proof.
  destruct (X15_default_branch_first_and_once env_partial
              (branches_of (Ret "main") (Ret ["dev"; "main"; "fix"]))
              "acme/demo" repo_partial "main" ["dev"; "main"; "fix"]
              eq_refl eq_refl eq_refl) as (others & Hrun & Hothers & _).
  exists others. split; [exact Hrun | rewrite Hothers; reflexivity].
Defined.

(** * Properties of [get_file_content] *)

(** A slice with bounds that are not negative is a plain window. *)
Lemma slice_window {A : Type} (l : list A) (a b : Z) :
  (0 <= a)%Z -> (0 <= b)%Z ->
  PyStr.slice l a (Some b) =
  firstn (Z.to_nat (b - a)) (skipn (Z.to_nat a) l).
Proof.
  intros Ha Hb. unfold PyStr.slice.
  destruct (a <? 0)%Z eqn:Ea; [apply Z.ltb_lt in Ea; lia |].
  destruct (b <? 0)%Z eqn:Eb; [apply Z.ltb_lt in Eb; lia |].
  set (len := Z.of_nat (length l)).
  destruct (Z_lt_le_dec a len) as [Hlt | Hge].
  - rewrite (Z.min_l a len) by lia.
    destruct (Z_le_gt_dec b len) as [Hble | Hbgt].
    + now rewrite (Z.min_l b len) by lia.
    + rewrite (Z.min_r b len) by lia.
      rewrite !firstn_all2; [reflexivity | |];
        rewrite List.length_skipn; unfold len in *; lia.
  - rewrite (Z.min_r a len) by lia.
    rewrite !skipn_all2 by (unfold len in *; lia).
    now rewrite !firstn_nil.
Qed.

Lemma slice_to_end {A : Type} (l : list A) (a : Z) :
  (0 <= a)%Z -> PyStr.slice l a None = skipn (Z.to_nat a) l.
Proof.
  intros Ha. unfold PyStr.slice.
  destruct (a <? 0)%Z eqn:Ea; [apply Z.ltb_lt in Ea; lia |].
  set (len := Z.of_nat (length l)).
  destruct (Z_lt_le_dec a len) as [Hlt | Hge].
  - rewrite (Z.min_l a len) by lia.
    apply firstn_all2. rewrite List.length_skipn. unfold len in *. lia.
  - rewrite (Z.min_r a len) by lia.
    rewrite !skipn_all2 by (unfold len in *; lia). apply firstn_nil.
Qed.

Lemma fetch_file_raise (env : Env) (api : FileApi)
    (repo_name file_path branch_name : string) (e : exn) :
  fetch_file env api repo_name file_path branch_name = Raise e ->
  e = HTTPException 404
        ("Repository or file not found or inaccessible: "
         +:+ repo_name +:+ "/" +:+ file_path).
Proof.
  unfold fetch_file.
  destruct (bind (get_repo env repo_name) _); [discriminate |].
  destruct (bind (public_repo env repo_name) _); [discriminate |].
  now intros [= <-].
Qed.

(** X16. [get_file_content] fails in three ways only: with 404 naming
    repository and path when neither attempt to read the file succeeds;
    with 400 when the path is a directory; with 500 and a detail that
    starts with "Error processing file content: " for everything raised
    while the content is decoded and cut. *)
Theorem X16_file_content_error_statuses (env : Env) (api : FileApi)
    (repo_name file_path : string) (start_line end_line : option Z)
    (branch_name project_id : string) (e : exn) :
  get_file_content env api repo_name file_path start_line end_line
    branch_name project_id = Raise e ->
  (e = HTTPException 404
         ("Repository or file not found or inaccessible: "
          +:+ repo_name +:+ "/" +:+ file_path) /\
   exists e', fetch_file env api repo_name file_path branch_name = Raise e')
  \/
  (e = HTTPException 400 "Provided path is a directory, not a file" /\
   fetch_file env api repo_name file_path branch_name
   = Ret DirectoryContents)
  \/
  (exists cause decoded,
     e = HTTPException 500
           ("Error processing file content: " +:+ exception_str api cause) /\
     fetch_file env api repo_name file_path branch_name
     = Ret (FileContents decoded) /\
     process_content api decoded start_line end_line = Raise cause).
Proof.
  unfold get_file_content, bind at 1.
  destruct (fetch_file env api repo_name file_path branch_name)
    as [[| decoded] | e0] eqn:Hfetch.
  - intros [= <-]. right. left. auto.
  - destruct (process_content api decoded start_line end_line)
      as [text | cause] eqn:Hp; [discriminate |].
    intros [= <-]. right. right. eauto.
  - intros [= <-]. left. split; [| eauto].
    exact (fetch_file_raise _ _ _ _ _ _ Hfetch).
Qed.

Lemma X16_file_content_error_statuses_witness :
  get_file_content env_partial file_api_demo "acme/demo" "src" (Some 1%Z)
    (Some 2%Z) "dev" "p1"
  = Raise (HTTPException 400 "Provided path is a directory, not a file").
Proof.
  destruct (get_file_content env_partial file_api_demo "acme/demo" "src"
              (Some 1%Z) (Some 2%Z) "dev" "p1") as [text | e] eqn:Hrun;
    [vm_compute in Hrun; discriminate |].
  destruct (X16_file_content_error_statuses _ _ _ _ _ _ _ _ _ Hrun)
    as [[_ [e' He']] | [[-> _] | (cause & decoded & _ & Hf & _)]].
  - vm_compute in He'. discriminate.
  - reflexivity.
  - vm_compute in Hf. discriminate.
Defined.

(** X17. When the encoding of a file cannot be determined - no encoding
    detected, or confidence below 0.5 - the 400 raised by
    [_detect_encoding] does not reach the caller: it is caught with
    everything else and reported with status 500. *)
Theorem X17_undetected_encoding_is_reported_as_500 (env : Env)
    (api : FileApi) (repo_name file_path : string)
    (start_line end_line : option Z) (branch_name project_id : string)
    (content_bytes : string) :
  fetch_file env api repo_name file_path branch_name
    = Ret (FileContents (Ret content_bytes)) ->
  Py.truthy_opt (encoding (chardet_detect api content_bytes)) = false \/
  low_confidence (chardet_detect api content_bytes) = true ->
  get_file_content env api repo_name file_path start_line end_line
    branch_name project_id =
  Raise (HTTPException 500
           ("Error processing file content: "
            +:+ http_exception_str api 400
                  "Unable to determine file encoding or low confidence")).
Proof.
  intros Hfetch Hdet. unfold get_file_content, bind at 1. rewrite Hfetch.
  unfold process_content, bind, _detect_encoding.
  assert (Hcond : negb (Py.truthy_opt (encoding (chardet_detect api
                                                   content_bytes)))
                  || low_confidence (chardet_detect api content_bytes)
                  = true).
  { destruct Hdet as [-> | ->]; [reflexivity | apply orb_true_r]. }
  now rewrite Hcond.
Qed.

Lemma X17_undetected_encoding_is_reported_as_500_witness :
  get_file_content env_partial file_api_demo "acme/demo" "empty.bin"
    (Some 0%Z) (Some 0%Z) "main" "p1" =
  Raise (HTTPException 500
           ("Error processing file content: "
            +:+ "400: Unable to determine file encoding or low confidence")).
Proof.
  apply (X17_undetected_encoding_is_reported_as_500 env_partial
           file_api_demo "acme/demo" "empty.bin" (Some 0%Z) (Some 0%Z)
           "main" "p1" "").
  - reflexivity.
  - left. reflexivity.
Defined.

Lemma select_lines_window (api : FileApi) (text : string) (s e : Z) :
  s <> e \/ e <> 0%Z -> (0 <= e)%Z ->
  select_lines api text (Some s) (Some e) =
  Ret (PyStr.join Py.newline
         (firstn (Z.to_nat (e - Z.max (s - 2) 0))
            (skipn (Z.to_nat (Z.max (s - 2) 0)) (splitlines api text)))).
Proof.
  intros Hne He. unfold select_lines.
  assert (Hz : ((s =? e)%Z && (e =? 0)%Z) = false).
  { destruct (s =? e)%Z eqn:E1; [| reflexivity].
    destruct (e =? 0)%Z eqn:E2; [| reflexivity].
    apply Z.eqb_eq in E1, E2. lia. }
  rewrite Hz. cbv zeta.
  assert (Hstart : (if (0 <? s - 2)%Z then (s - 2)%Z else 0%Z)
                   = Z.max (s - 2) 0).
  { destruct (0 <? s - 2)%Z eqn:E; [apply Z.ltb_lt in E | apply Z.ltb_ge in E];
      lia. }
  rewrite Hstart, slice_window by lia. reflexivity.
Qed.

(** X18. For a file that is read and decoded, and a line range other than
    (0, 0) with a non-negative end, the text returned is the newline-joined
    window of the file's lines that starts [max (start_line - 2) 0] lines
    into the file and ends after line [end_line]. For
    [2 <= start_line <= end_line + 1] and [end_line] within the file that
    is [end_line - start_line + 2] lines: the line before [start_line],
    then the lines [start_line] to [end_line]. *)
Theorem X18_selected_lines_form_a_window (env : Env) (api : FileApi)
    (repo_name file_path branch_name project_id : string)
    (content_bytes enc text : string) (s e : Z) :
  fetch_file env api repo_name file_path branch_name
    = Ret (FileContents (Ret content_bytes)) ->
  _detect_encoding api content_bytes = Ret enc ->
  decode api content_bytes enc = Ret text ->
  s <> e \/ e <> 0%Z ->
  (0 <= e)%Z ->
  exists selected,
    get_file_content env api repo_name file_path (Some s) (Some e)
      branch_name project_id = Ret (PyStr.join Py.newline selected) /\
    selected =
      firstn (Z.to_nat (e - Z.max (s - 2) 0))
        (skipn (Z.to_nat (Z.max (s - 2) 0)) (splitlines api text)) /\
    ((2 <= s)%Z -> (s - 1 <= e)%Z ->
     (e <= Z.of_nat (length (splitlines api text)))%Z ->
     length selected = Z.to_nat (e - s + 2) /\
     forall k, (k < Z.to_nat (e - s + 2))%nat ->
       nth_error selected k =
       nth_error (splitlines api text) (Z.to_nat (s - 2) + k)).
Proof.
  intros Hfetch Hdet Hdec Hne He. eexists. split; [| split].
  - unfold get_file_content, bind at 1. rewrite Hfetch.
    unfold process_content, bind. rewrite Hdet, Hdec.
    rewrite (select_lines_window api text s e Hne He). reflexivity.
  - reflexivity.
  - intros Hs Hse Hlen. rewrite (Z.max_l (s - 2) 0) by lia.
    replace (e - (s - 2))%Z with (e - s + 2)%Z by lia. split.
    + rewrite List.length_firstn, List.length_skipn. lia.
    + intros k Hk. rewrite nth_error_firstn, nth_error_skipn.
      destruct (Nat.ltb_spec k (Z.to_nat (e - s + 2))); [reflexivity | lia].
Qed.

Lemma X18_selected_lines_form_a_window_witness :
  get_file_content env_partial file_api_any_ref "acme/demo" "main.py"
    (Some 3%Z) (Some 4%Z) "main" "p1" =
  Ret (PyStr.join Py.newline ["l2"; "l3"; "l4"]).
Proof.
  assert (H1 : (3 <> 4 \/ 4 <> 0)%Z) by (left; discriminate).
  assert (H2 : (0 <= 4)%Z) by discriminate.
  destruct (X18_selected_lines_form_a_window env_partial file_api_any_ref
              "acme/demo" "main.py" "main" "p1" five_lines "utf-8"
              five_lines 3 4 eq_refl eq_refl eq_refl H1 H2)
    as (selected & Hrun & -> & _).
  rewrite Hrun. reflexivity.
Defined.

(** X19. For a file that is read and decoded, the range (0, 0) and the
    range (None, None) return the decoded text as it is, without splitting
    and re-joining its lines; with [end_line = None] and a start line the
    text runs from line [max (start_line - 1) 1] to the end of the file;
    and with [start_line = None] and an end line the request fails with
    status 500. *)
Theorem X19_whole_file_and_open_ranges (env : Env) (api : FileApi)
    (repo_name file_path branch_name project_id : string)
    (content_bytes enc text : string) :
  fetch_file env api repo_name file_path branch_name
    = Ret (FileContents (Ret content_bytes)) ->
  _detect_encoding api content_bytes = Ret enc ->
  decode api content_bytes enc = Ret text ->
  get_file_content env api repo_name file_path (Some 0%Z) (Some 0%Z)
    branch_name project_id = Ret text /\
  get_file_content env api repo_name file_path None None
    branch_name project_id = Ret text /\
  (forall s,
     get_file_content env api repo_name file_path (Some s) None
       branch_name project_id =
     Ret (PyStr.join Py.newline
            (skipn (Z.to_nat (s - 2)) (splitlines api text)))) /\
  (forall e, exists detail,
     get_file_content env api repo_name file_path None (Some e)
       branch_name project_id = Raise (HTTPException 500 detail)).
Proof.
  intros Hfetch Hdet Hdec.
  assert (Hrun : forall a b,
    get_file_content env api repo_name file_path a b branch_name project_id
    = match select_lines api text a b with
      | Ret t => Ret t
      | Raise e =>
          Raise (HTTPException 500
                   ("Error processing file content: "
                    +:+ exception_str api e))
      end).
  { intros a b. unfold get_file_content, bind at 1. rewrite Hfetch.
    unfold process_content, bind. now rewrite Hdet, Hdec. }
  split; [| split; [| split]].
  - now rewrite Hrun.
  - now rewrite Hrun.
  - intros s. rewrite Hrun. unfold select_lines. cbv zeta.
    destruct (0 <? s - 2)%Z eqn:E.
    + apply Z.ltb_lt in E. rewrite slice_to_end by lia. reflexivity.
    + apply Z.ltb_ge in E. rewrite slice_to_end by lia.
      replace (Z.to_nat (s - 2)) with 0%nat by lia. reflexivity.
  - intros e. rewrite Hrun. eexists. reflexivity.
Qed.

Lemma X19_whole_file_and_open_ranges_witness :
  get_file_content env_partial file_api_any_ref "acme/demo" "main.py"
    (Some 0%Z) (Some 0%Z) "main" "p1" = Ret five_lines.
Proof.
  apply (X19_whole_file_and_open_ranges env_partial file_api_any_ref
           "acme/demo" "main.py" "main" "p1" five_lines "utf-8" five_lines);
    reflexivity.
Defined.



(** * Properties of the repository lists *)

(** ** Dictionaries *)

Lemma dict_get_set {V : Type} (k k' : Z) (v : V) (d : list (Z * V)) :
  dict_get k' (dict_set k v d) =
  if (k =? k')%Z then Some v else dict_get k' d.
Proof.
  induction d as [|[k0 v0] d IH]; cbn [dict_set dict_get].
  - reflexivity.
  - destruct (k0 =? k)%Z eqn:E0; cbn [dict_get].
    + apply Z.eqb_eq in E0. subst k0.
      now destruct (k =? k')%Z.
    + destruct (k0 =? k')%Z eqn:E1; [| exact IH].
      apply Z.eqb_eq in E1. subst k0. now rewrite Z.eqb_sym, E0.
Qed.

Lemma dict_set_keys {V : Type} (k k' : Z) (v : V) (d : list (Z * V)) :
  In k' (map fst (dict_set k v d)) <-> k' = k \/ In k' (map fst d).
Proof.
  induction d as [|[k0 v0] d IH]; cbn [dict_set map fst In].
  - intuition.
  - destruct (k0 =? k)%Z eqn:E0; cbn [map fst In].
    + apply Z.eqb_eq in E0. subst k0. intuition.
    + rewrite IH. intuition.
Qed.

Lemma dict_set_NoDup {V : Type} (k : Z) (v : V) (d : list (Z * V)) :
  List.NoDup (map fst d) -> List.NoDup (map fst (dict_set k v d)).
Proof.
  induction d as [|[k0 v0] d IH]; cbn [dict_set map fst]; intros Hnd.
  - repeat constructor. intros [].
  - apply NoDup_cons_iff in Hnd as [Hk0 Hnd].
    destruct (k0 =? k)%Z eqn:E0; cbn [map fst].
    + apply Z.eqb_eq in E0. subst k0. now constructor.
    + constructor; [| now apply IH].
      rewrite dict_set_keys. intros [-> | Hin]; [| contradiction].
      now rewrite Z.eqb_refl in E0.
Qed.

Lemma dict_get_In {V : Type} (k : Z) (v : V) (d : list (Z * V)) :
  List.NoDup (map fst d) -> (In (k, v) d <-> dict_get k d = Some v).
Proof.
  induction d as [|[k0 v0] d IH]; cbn [map fst dict_get In]; intros Hnd.
  - split; [contradiction | discriminate].
  - apply NoDup_cons_iff in Hnd as [Hk0 Hnd].
    destruct (k0 =? k)%Z eqn:E0.
    + apply Z.eqb_eq in E0. subst k0. split.
      * intros [[= ->] | Hin]; [reflexivity |].
        exfalso. apply Hk0. now apply (in_map fst) in Hin.
      * intros [= ->]. now left.
    + rewrite <- (IH Hnd). split; [| tauto].
      intros [[= -> _] | Hin]; [| exact Hin].
      now rewrite Z.eqb_refl in E0.
Qed.

Lemma dict_set_filed (repo : GithubRepo) (d : list (Z * GithubRepo)) :
  filed_by_id d -> filed_by_id (dict_set (gh_id repo) repo d).
Proof.
  unfold filed_by_id.
  induction d as [|[k0 v0] d IH]; cbn [dict_set]; intros H.
  - now repeat constructor.
  - pose proof (List.Forall_inv H) as H0.
    pose proof (List.Forall_inv_tail H) as Ht.
    destruct (k0 =? gh_id repo)%Z; constructor; auto.
Qed.

Lemma enter_repos_invariants (repos : list GithubRepo) :
  forall d, List.NoDup (map fst d) -> filed_by_id d ->
  List.NoDup (map fst (enter_repos repos d)) /\
  filed_by_id (enter_repos repos d).
Proof.
  unfold enter_repos.
  induction repos as [|r repos IH]; intros d Hnd Hf; cbn [fold_left].
  - auto.
  - apply IH; [now apply dict_set_NoDup | now apply dict_set_filed].
Qed.

Lemma find_snoc {A : Type} (f : A -> bool) (l : list A) (x : A) :
  List.find f (l ++ [x]) =
  match List.find f l with
  | Some y => Some y
  | None => if f x then Some x else None
  end.
Proof.
  induction l as [|y l IH]; cbn [app List.find]; [reflexivity |].
  now destruct (f y).
Qed.

Lemma enter_repos_get (k : Z) (repos : list GithubRepo) :
  forall d,
  dict_get k (enter_repos repos d) =
  match last_with_id k repos with
  | Some r => Some r
  | None => dict_get k d
  end.
Proof.
  unfold enter_repos, last_with_id.
  induction repos as [|r repos IH]; intros d; cbn [fold_left rev].
  - reflexivity.
  - rewrite IH, find_snoc, dict_get_set.
    destruct (List.find _ (rev repos)); [reflexivity |].
    cbn beta. now destruct (gh_id r =? k)%Z.
Qed.

Lemma enter_repos_keys (k : Z) (repos : list GithubRepo) :
  forall d,
  In k (map fst (enter_repos repos d)) <->
  In k (map gh_id repos) \/ In k (map fst d).
Proof.
  unfold enter_repos.
  induction repos as [|r repos IH]; intros d; cbn [fold_left map In].
  - tauto.
  - rewrite IH, dict_set_keys. intuition.
Qed.

Lemma filed_values (d : list (Z * GithubRepo)) :
  filed_by_id d -> map gh_id (map snd d) = map fst d.
Proof.
  induction 1 as [|[k v] d Hk _ IH]; cbn [map fst snd]; [reflexivity |].
  cbn [fst snd] in Hk. now rewrite IH, Hk.
Qed.

Lemma unique_repos_invariants (repos : list GithubRepo) :
  List.NoDup (map fst (enter_repos repos [])) /\
  filed_by_id (enter_repos repos []).
Proof. apply enter_repos_invariants; constructor. Qed.

Lemma unique_repos_ids (repos : list GithubRepo) :
  map gh_id (unique_repos repos) = map fst (enter_repos repos []).
Proof.
  unfold unique_repos. fold (enter_repos repos []).
  apply filed_values, unique_repos_invariants.
Qed.

Lemma unique_repos_NoDup (repos : list GithubRepo) :
  List.NoDup (map gh_id (unique_repos repos)).
Proof. rewrite unique_repos_ids. apply unique_repos_invariants. Qed.

Lemma unique_repos_last (repos : list GithubRepo) (r : GithubRepo) :
  In r (unique_repos repos) <-> last_with_id (gh_id r) repos = Some r.
Proof.
  destruct (unique_repos_invariants repos) as [Hnd Hf].
  unfold unique_repos. fold (enter_repos repos []).
  rewrite in_map_iff. split.
  - intros ([k v] & <- & Hin). cbn [snd].
    assert (Hk : k = gh_id v).
    { unfold filed_by_id in Hf. rewrite List.Forall_forall in Hf.
      exact (Hf _ Hin). }
    subst k. apply (dict_get_In _ _ _ Hnd) in Hin.
    rewrite enter_repos_get in Hin.
    destruct (last_with_id (gh_id v) repos); [exact Hin | discriminate].
  - intros Hlast. exists (gh_id r, r). split; [reflexivity |].
    apply (dict_get_In _ _ _ Hnd). now rewrite enter_repos_get, Hlast.
Qed.

Lemma unique_repos_subset (repos : list GithubRepo) (r : GithubRepo) :
  In r (unique_repos repos) -> In r repos.
Proof.
  rewrite unique_repos_last. unfold last_with_id. intros H.
  apply List.find_some in H as [H _]. now apply in_rev.
Qed.

(** X21. The list of unique repositories holds each id once; an id occurs
    in it exactly when it occurs among the fetched repositories; and the
    repository kept for an id is the last one fetched with that id. *)
Theorem X21_unique_repos_keeps_last_per_id (repos : list GithubRepo) :
  List.NoDup (map gh_id (unique_repos repos)) /\
  (forall k, In k (map gh_id (unique_repos repos)) <->
             In k (map gh_id repos)) /\
  (forall r, In r (unique_repos repos) <->
             last_with_id (gh_id r) repos = Some r).
Proof.
  split; [apply unique_repos_NoDup |]. split.
  - intros k. rewrite unique_repos_ids, enter_repos_keys.
    cbn [map In]. tauto.
  - apply unique_repos_last.
Qed.

(** ** [get_repos_for_user] *)

Lemma truthy_default (o : option string) :
  Py.truthy (default "" o) = Py.truthy_opt o.
Proof. now destruct o. Qed.

(** X22. Whatever goes wrong while the repositories of a user are listed,
    the caller sees status 500 with a detail that starts with
    [Failed to fetch repositories: ]. The 404 of an unknown user and the
    400 of a user without a GitHub user name are raised inside the [try]
    block, so they too arrive as a 500 whose detail quotes them. *)
Theorem X22_repository_list_fails_only_with_500 (api : UserApi)
    (user_id : string) :
  (forall e, get_repos_for_user api user_id = Raise e ->
     exists detail,
       e = HTTPException 500 ("Failed to fetch repositories: " +:+ detail)) /\
  (find_user api user_id = None ->
     get_repos_for_user api user_id =
     Raise (HTTPException 500
              ("Failed to fetch repositories: "
               +:+ user_http_exception_str api 404 "User not found"))) /\
  (forall user,
     find_user api user_id = Some user ->
     Py.truthy_opt (provider_username user) = false ->
     get_repos_for_user api user_id =
     Raise (HTTPException 500
              ("Failed to fetch repositories: "
               +:+ user_http_exception_str api 400
                     "GitHub username not found for this user"))).
Proof.
  split; [| split].
  - intros e. unfold get_repos_for_user.
    destruct (repos_try_body api user_id); [discriminate |].
    intros [= <-]. eauto.
  - intros Hfind. unfold get_repos_for_user, repos_try_body.
    now rewrite Hfind.
  - intros user Hfind Hname. unfold get_repos_for_user, repos_try_body.
    rewrite Hfind. cbn [bind]. now rewrite truthy_default, Hname.
Qed.

Lemma X22_repository_list_fails_only_with_500_witness :
  get_repos_for_user user_api_demo "nobody" =
  Raise (HTTPException 500
           ("Failed to fetch repositories: "
            +:+ user_http_exception_str user_api_demo 404 "User not found")).
Proof.
  apply (proj1 (proj2
           (X22_repository_list_fails_only_with_500 user_api_demo "nobody"))).
  reflexivity.
Defined.

(** X23. For a user that exists and has a GitHub user name: when the
    provider information of the row holds no [access_token], the [KeyError]
    of the lookup is reported as status 500 with the quoted key as detail;
    when the stored token is the empty string, the 400 raised for it is
    reported as status 500 as well. *)
Theorem X23_missing_oauth_token_is_reported_as_500 (api : UserApi)
    (user_id : string) (user : User) :
  find_user api user_id = Some user ->
  uid user = user_id ->
  Py.truthy_opt (provider_username user) = true ->
  (provider_info user !! "access_token" = None ->
   get_repos_for_user api user_id =
   Raise (HTTPException 500
            ("Failed to fetch repositories: " +:+ "'access_token'"))) /\
  (provider_info user !! "access_token" = Some "" ->
   get_repos_for_user api user_id =
   Raise (HTTPException 500
            ("Failed to fetch repositories: "
             +:+ user_http_exception_str api 400
                   "GitHub OAuth token not found for this user"))).
Proof.
  intros Hfind Huid Hname.
  split; intros Htoken;
    unfold get_repos_for_user, repos_try_body;
    rewrite Hfind; cbn [bind]; rewrite truthy_default, Hname;
    cbn [require bind]; unfold get_github_oauth_token;
    rewrite Huid, Hfind, Htoken; reflexivity.
Qed.

Lemma X23_missing_oauth_token_is_reported_as_500_witness :
  get_repos_for_user user_api_demo "u2" =
  Raise (HTTPException 500
           ("Failed to fetch repositories: " +:+ "'access_token'")).
Proof.
  assert (Hmissing :
            provider_info (mkUser "u2" (Some "Bob") ∅) !! "access_token"
            = None) by (vm_compute; reflexivity).
  exact (proj1 (X23_missing_oauth_token_is_reported_as_500 user_api_demo
                  "u2" (mkUser "u2" (Some "Bob") ∅)
                  eq_refl eq_refl eq_refl) Hmissing).
Defined.

(** ** The repositories of the installations *)

Lemma contribution_ok (api : UserApi) (i : Installation)
    (rr : response_of (list GithubRepo)) :
  get_installation_repos api i = Ret rr ->
  (resp_status rr =? 200)%Z = true ->
  contribution api i = resp_json rr.
Proof. unfold contribution. now intros -> ->. Qed.

Lemma contribution_skipped (api : UserApi) (i : Installation)
    (rr : response_of (list GithubRepo)) :
  get_installation_repos api i = Ret rr ->
  (resp_status rr =? 200)%Z = false ->
  contribution api i = [].
Proof. unfold contribution. now intros -> ->. Qed.

Lemma contribution_In (api : UserApi) (i : Installation) (repo : GithubRepo) :
  In repo (contribution api i) <->
  exists rr, get_installation_repos api i = Ret rr /\
             resp_status rr = 200%Z /\ In repo (resp_json rr).
Proof.
  unfold contribution. split.
  - destruct (get_installation_repos api i) as [rr|e]; [| intros []].
    destruct (resp_status rr =? 200)%Z eqn:Hs; [| intros []].
    apply Z.eqb_eq in Hs. eauto.
  - intros (rr & -> & Hs & Hin). apply Z.eqb_eq in Hs. now rewrite Hs.
Qed.

Lemma collect_repos_returns (api : UserApi)
    (installations : list Installation) :
  forall repos,
  (forall i, In i installations ->
     exists rr, get_installation_repos api i = Ret rr) ->
  collect_repos api installations repos =
  Ret (repos ++ flat_map (contribution api) installations).
Proof.
  induction installations as [|i rest IH]; intros repos Hall;
    cbn [collect_repos flat_map].
  - now rewrite app_nil_r.
  - destruct (Hall i (or_introl eq_refl)) as [rr Hi].
    rewrite Hi. cbn [bind].
    destruct (resp_status rr =? 200)%Z eqn:Hs.
    + rewrite (contribution_ok _ _ _ Hi Hs), app_assoc.
      apply IH. intros j Hj. apply Hall. now right.
    + rewrite (contribution_skipped _ _ _ Hi Hs). cbn [app].
      apply IH. intros j Hj. apply Hall. now right.
Qed.

Lemma collect_repos_Ret (api : UserApi) (installations : list Installation) :
  forall repos out,
  collect_repos api installations repos = Ret out ->
  out = repos ++ flat_map (contribution api) installations.
Proof.
  induction installations as [|i rest IH]; intros repos out;
    cbn [collect_repos flat_map].
  - intros [= <-]. now rewrite app_nil_r.
  - destruct (get_installation_repos api i) as [rr|e] eqn:Hi;
      cbn [bind]; [| discriminate].
    destruct (resp_status rr =? 200)%Z eqn:Hs; intros H; apply IH in H.
    + now rewrite (contribution_ok _ _ _ Hi Hs), app_assoc.
    + now rewrite (contribution_skipped _ _ _ Hi Hs).
Qed.

(** X24. When every request for the repositories of an installation
    returns, the loop over the installations returns too, whatever the
    status codes: the repositories gathered are those gathered before
    followed, in the order of the installations, by the repositories of the
    responses with status 200; an installation answered with another status
    adds nothing and does not end the loop. *)
Theorem X24_failed_installations_are_skipped (api : UserApi)
    (installations : list Installation) (repos : list GithubRepo) :
  (forall i, In i installations ->
     exists rr, get_installation_repos api i = Ret rr) ->
  exists out,
    collect_repos api installations repos = Ret out /\
    out = repos ++ flat_map (contribution api) installations /\
    (forall repo, In repo out <->
       In repo repos \/
       exists i rr, In i installations /\
                    get_installation_repos api i = Ret rr /\
                    resp_status rr = 200%Z /\ In repo (resp_json rr)).
Proof.
  intros Hall. eexists. split; [now apply collect_repos_returns |].
  split; [reflexivity |]. intros repo.
  rewrite in_app_iff, in_flat_map. split.
  - intros [H | (i & Hi & Hin)]; [now left | right].
    apply contribution_In in Hin as (rr & Hrr & Hs & Hin). eauto 7.
  - intros [H | (i & rr & Hi & Hrr & Hs & Hin)]; [now left | right].
    exists i. split; [exact Hi |]. apply contribution_In. eauto.
Qed.

Lemma X24_failed_installations_are_skipped_witness :
  exists out,
    collect_repos user_api_demo demo_installations [] = Ret out /\
    out = [] ++ flat_map (contribution user_api_demo) demo_installations /\
    (forall repo, In repo out <->
       In repo [] \/
       exists i rr, In i demo_installations /\
                    get_installation_repos user_api_demo i = Ret rr /\
                    resp_status rr = 200%Z /\ In repo (resp_json rr)).
Proof.
  apply (X24_failed_installations_are_skipped user_api_demo
           demo_installations []).
  intros i _. unfold user_api_demo. cbn [get_installation_repos].
  destruct (installation_id i =? 1)%Z; [eauto |].
  destruct (installation_id i =? 2)%Z; eauto.
Defined.

(** ** The list of [get_repos_for_user] *)

Lemma NoDup_map_injective {A B : Type} (f : A -> B) (l : list A) :
  (forall x y, f x = f y -> x = y) ->
  List.NoDup l -> List.NoDup (map f l).
Proof.
  intros Hinj. induction 1 as [|x l Hx _ IH]; cbn [map]; constructor.
  - rewrite in_map_iff. intros (y & Hy & Hin).
    apply Hinj in Hy. now subst y.
  - exact IH.
Qed.

Lemma is_user_installation_true (api : UserApi) (github_username : string)
    (org_logins : list string) (i : Installation) :
  is_user_installation api github_username org_logins i = true ->
  (account_type i = "User" /\
   lower api (account_login i) = lower api github_username) \/
  (account_type i = "Organization" /\
   In (lower api (account_login i)) org_logins).
Proof.
  unfold is_user_installation. intros H.
  apply orb_true_iff in H as [H | H]; apply andb_true_iff in H as [Ht Hl];
    apply String.eqb_eq in Ht.
  - left. apply String.eqb_eq in Hl. auto.
  - right. split; [exact Ht |].
    apply existsb_exists in Hl as (x & Hin & Hx).
    apply String.eqb_eq in Hx. now rewrite Hx.
Qed.

(** X25. A list returned by [get_repos_for_user] holds every repository id
    once, and each entry is built from a repository that a 200 response
    lists for an installation of the App whose account is the user (same
    login up to case) or an organisation the user belongs to: repositories
    of other installations never appear. *)
Theorem X25_listed_repositories_belong_to_the_user (api : UserApi)
    (user_id : string) (repo_list : list RepoEntry) :
  get_repos_for_user api user_id = Ret repo_list ->
  List.NoDup (map entry_id repo_list) /\
  exists user token orgs jwt response,
    find_user api user_id = Some user /\
    get_github_oauth_token api (uid user) = Ret token /\
    user_org_logins api token = Ret orgs /\
    create_jwt api = Ret jwt /\
    get_installations api jwt = Ret response /\
    resp_status response = 200%Z /\
    forall entry, In entry repo_list ->
      exists installation rr repo,
        In installation (resp_json response) /\
        ((account_type installation = "User" /\
          lower api (account_login installation) =
          lower api (default "" (provider_username user))) \/
         (account_type installation = "Organization" /\
          In (lower api (account_login installation))
             (map (lower api) orgs))) /\
        get_installation_repos api installation = Ret rr /\
        resp_status rr = 200%Z /\
        In repo (resp_json rr) /\
        entry = repo_entry repo.
Proof.
  intros H. unfold get_repos_for_user in H.
  destruct (repos_try_body api user_id) as [l|e] eqn:Hbody; [| discriminate].
  injection H as ->. unfold repos_try_body in Hbody.
  destruct (find_user api user_id) as [user|] eqn:Hfind;
    cbn [bind] in Hbody; [| discriminate].
  destruct (Py.truthy (default "" (provider_username user)));
    cbn [require bind] in Hbody; [| discriminate].
  destruct (get_github_oauth_token api (uid user)) as [token|] eqn:Htoken;
    cbn [bind] in Hbody; [| discriminate].
  destruct (Py.truthy token); cbn [require bind] in Hbody; [| discriminate].
  destruct (user_org_logins api token) as [orgs|] eqn:Horgs;
    cbn [bind] in Hbody; [| discriminate].
  destruct (create_jwt api) as [jwt|] eqn:Hjwt;
    cbn [bind] in Hbody; [| discriminate].
  destruct (get_installations api jwt) as [response|] eqn:Hresp;
    cbn [bind] in Hbody; [| discriminate].
  destruct (resp_status response =? 200)%Z eqn:Hstatus;
    cbn [require bind] in Hbody; [| discriminate].
  destruct (collect_repos api _ []) as [repos|] eqn:Hcollect;
    cbn [bind] in Hbody; [| discriminate].
  injection Hbody as <-. apply collect_repos_Ret in Hcollect.
  cbn [app] in Hcollect. split.
  - replace (map entry_id (map repo_entry (unique_repos repos)))
      with (map IntId (map gh_id (unique_repos repos)))
      by (now rewrite !map_map).
    apply NoDup_map_injective; [now intros x y [= ->] |].
    apply unique_repos_NoDup.
  - exists user, token, orgs, jwt, response.
    apply Z.eqb_eq in Hstatus. repeat (split; [assumption || reflexivity |]).
    intros entry Hentry.
    apply in_map_iff in Hentry as (repo & <- & Hrepo).
    apply unique_repos_subset in Hrepo. rewrite Hcollect in Hrepo.
    apply in_flat_map in Hrepo as (installation & Hinst & Hrepo).
    apply filter_In in Hinst as [Hinst Hmine].
    apply is_user_installation_true in Hmine.
    apply contribution_In in Hrepo as (rr & Hrr & Hs & Hin).
    exists installation, rr, repo. auto 7.
Qed.

Lemma demo_repo_list_returned :
  get_repos_for_user user_api_demo "u1" = Ret demo_repo_list.
Proof. vm_compute. reflexivity. Qed.

Lemma X25_listed_repositories_belong_to_the_user_witness :
  List.NoDup (map entry_id demo_repo_list).
Proof.
  exact (proj1 (X25_listed_repositories_belong_to_the_user user_api_demo
                  "u1" demo_repo_list demo_repo_list_returned)).
Defined.

(** ** [get_combined_user_repos] *)

Lemma project_full_names (projects : list ProjectRow) :
  map entry_full_name (map project_entry projects) =
  map row_repo_name projects.
Proof. now rewrite map_map. Qed.

Lemma kept_full_names (repos : list RepoEntry) :
  map entry_full_name (map mark_private repos) = map entry_full_name repos.
Proof. now rewrite map_map. Qed.

Lemma get_combined_user_repos_Ret (api : UserApi) (user_id : string)
    (user_repos : list RepoEntry) :
  get_repos_for_user api user_id = Ret user_repos ->
  get_combined_user_repos api user_id =
  Ret (rev (map mark_private
              (kept_user_repos (user_projects api user_id) user_repos))
       ++ rev (map project_entry (user_projects api user_id))).
Proof.
  intros H. unfold get_combined_user_repos. rewrite H. cbn [bind].
  now rewrite project_full_names, rev_app_distr.
Qed.

Lemma kept_user_repos_In (projects : list ProjectRow)
    (user_repos : list RepoEntry) (r : RepoEntry) :
  In r (kept_user_repos projects user_repos) <->
  In r user_repos /\
  ~ In (entry_full_name r) (map row_repo_name projects).
Proof.
  unfold kept_user_repos. rewrite filter_In, negb_true_iff.
  split; intros [Hin H]; (split; [exact Hin |]).
  - intros Hmem.
    assert (Hex : existsb (String.eqb (entry_full_name r))
                    (map row_repo_name projects) = true).
    { apply existsb_exists. exists (entry_full_name r).
      split; [exact Hmem | apply String.eqb_refl]. }
    congruence.
  - destruct (existsb _ _) eqn:E; [| reflexivity].
    apply existsb_exists in E as (x & Hx & Heq).
    apply String.eqb_eq in Heq. subst x. contradiction.
Qed.

Lemma get_repos_for_user_Raise (api : UserApi) (user_id : string) (e : exn) :
  get_repos_for_user api user_id = Raise e ->
  exists detail,
    e = HTTPException 500 ("Failed to fetch repositories: " +:+ detail).
Proof.
  unfold get_repos_for_user.
  destruct (repos_try_body api user_id); [discriminate |].
  intros [= <-]. eauto.
Qed.

(** X26. When the repositories of the user can be listed, the combined
    list is the kept user repositories in reverse order followed by the
    projects in reverse order, and the flag [private] tells the origin of
    an entry: it is false exactly on the entries built from project rows
    and true exactly on the entries of user repositories, whatever GitHub
    reported for them. A user repository is kept exactly when no project
    has its full name as repository name. *)
Theorem X26_combined_list_marks_the_origin (api : UserApi)
    (user_id : string) (user_repos : list RepoEntry) :
  get_repos_for_user api user_id = Ret user_repos ->
  exists combined,
    get_combined_user_repos api user_id = Ret combined /\
    combined =
      rev (map mark_private
             (kept_user_repos (user_projects api user_id) user_repos))
      ++ rev (map project_entry (user_projects api user_id)) /\
    (forall entry, In entry combined -> entry_private entry = false ->
       exists p, In p (user_projects api user_id) /\
                 entry = project_entry p) /\
    (forall entry, In entry combined -> entry_private entry = true ->
       exists r, In r user_repos /\
                 ~ In (entry_full_name entry)
                      (map row_repo_name (user_projects api user_id)) /\
                 entry = mark_private r) /\
    (forall p, In p (user_projects api user_id) ->
       In (project_entry p) combined) /\
    (forall r, In r user_repos ->
       ~ In (entry_full_name r)
            (map row_repo_name (user_projects api user_id)) ->
       In (mark_private r) combined).
Proof.
  intros H. eexists.
  split; [exact (get_combined_user_repos_Ret _ _ _ H) |].
  split; [reflexivity |].
  assert (Hin : forall entry,
            In entry
              (rev (map mark_private
                      (kept_user_repos (user_projects api user_id)
                         user_repos))
               ++ rev (map project_entry (user_projects api user_id))) <->
            (exists r, In r user_repos /\
                       ~ In (entry_full_name r)
                            (map row_repo_name (user_projects api user_id)) /\
                       entry = mark_private r) \/
            (exists p, In p (user_projects api user_id) /\
                       entry = project_entry p)).
  { intros entry. rewrite in_app_iff, <- !in_rev, !in_map_iff. split.
    - intros [(r & <- & Hr) | (p & <- & Hp)].
      + apply kept_user_repos_In in Hr as [Hr Hn]. left. eauto.
      + right. eauto.
    - intros [(r & Hr & Hn & ->) | (p & Hp & ->)].
      + left. exists r. split; [reflexivity |].
        apply kept_user_repos_In. auto.
      + right. eauto. }
  repeat split.
  - intros entry Hentry Hflag.
    apply Hin in Hentry as [(r & _ & _ & ->) | Hp]; [discriminate | exact Hp].
  - intros entry Hentry Hflag.
    apply Hin in Hentry as [(r & Hr & Hn & ->) | (p & _ & ->)];
      [| discriminate].
    exists r. auto.
  - intros p Hp. apply Hin. right. eauto.
  - intros r Hr Hn. apply Hin. left. eauto.
Qed.

(** The combined list of [user_api_demo] for the user [u1]. *)
Lemma X26_combined_list_marks_the_origin_witness :
  exists combined,
    get_combined_user_repos user_api_demo "u1" = Ret combined /\
    combined =
      rev (map mark_private
             (kept_user_repos (user_projects user_api_demo "u1")
                demo_repo_list))
      ++ rev (map project_entry (user_projects user_api_demo "u1")) /\
    (forall entry, In entry combined -> entry_private entry = false ->
       exists p, In p (user_projects user_api_demo "u1") /\
                 entry = project_entry p) /\
    (forall entry, In entry combined -> entry_private entry = true ->
       exists r, In r demo_repo_list /\
                 ~ In (entry_full_name entry)
                      (map row_repo_name
                         (user_projects user_api_demo "u1")) /\
                 entry = mark_private r) /\
    (forall p, In p (user_projects user_api_demo "u1") ->
       In (project_entry p) combined) /\
    (forall r, In r demo_repo_list ->
       ~ In (entry_full_name r)
            (map row_repo_name (user_projects user_api_demo "u1")) ->
       In (mark_private r) combined).
Proof.
  exact (X26_combined_list_marks_the_origin user_api_demo "u1"
           demo_repo_list demo_repo_list_returned).
Defined.

(** X27. Given the rows the project query returned: when the listing of
    the user's repositories fails, the combined list fails with the same
    exception, which carries status 500 and a detail starting with
    [Failed to fetch repositories: ]. The projects read from the database
    are not returned on their own. *)
Theorem X27_combined_list_fails_with_the_listing (api : UserApi)
    (user_id : string) (e : exn) :
  get_repos_for_user api user_id = Raise e ->
  get_combined_user_repos api user_id = Raise e /\
  exists detail,
    e = HTTPException 500 ("Failed to fetch repositories: " +:+ detail).
Proof.
  intros H. split.
  - unfold get_combined_user_repos. now rewrite H.
  - exact (get_repos_for_user_Raise _ _ _ H).
Qed.

Lemma unknown_user_listing_fails :
  get_repos_for_user user_api_demo "nobody" =
  Raise (HTTPException 500
           ("Failed to fetch repositories: "
            +:+ user_http_exception_str user_api_demo 404 "User not found")).
Proof. reflexivity. Qed.

Lemma X27_combined_list_fails_with_the_listing_witness :
  get_combined_user_repos user_api_demo "nobody" =
  Raise (HTTPException 500
           ("Failed to fetch repositories: "
            +:+ user_http_exception_str user_api_demo 404 "User not found")).
Proof.
  exact (proj1 (X27_combined_list_fails_with_the_listing user_api_demo
                  "nobody" _ unknown_user_listing_fails)).
Defined.

Lemma NoDup_app_intro {A : Type} (l l' : list A) :
  List.NoDup l -> List.NoDup l' ->
  (forall x, In x l -> ~ In x l') ->
  List.NoDup (l ++ l').
Proof.
  induction 1 as [|x l Hx _ IH]; intros Hl' Hdisj; cbn [app].
  - exact Hl'.
  - constructor.
    + rewrite in_app_iff. intros [H | H]; [contradiction |].
      apply (Hdisj x); [now left | exact H].
    + apply IH; [exact Hl' |]. intros y Hy. apply Hdisj. now right.
Qed.

Lemma NoDup_rev_intro {A : Type} (l : list A) :
  List.NoDup l -> List.NoDup (rev l).
Proof.
  induction 1 as [|x l Hx _ IH]; cbn [rev]; [constructor |].
  apply NoDup_app_intro; [exact IH | |].
  - constructor; [intros [] | constructor].
  - intros y Hy [<- | []]. apply Hx. now apply in_rev.
Qed.

Lemma NoDup_map_filter {A B : Type} (f : A -> B) (p : A -> bool)
    (l : list A) :
  List.NoDup (map f l) -> List.NoDup (map f (List.filter p l)).
Proof.
  induction l as [|x l IH]; cbn [map List.filter]; intros H; [exact H |].
  apply NoDup_cons_iff in H as [Hx H].
  destruct (p x); cbn [map]; [| now apply IH].
  constructor; [| now apply IH].
  intros Hin. apply Hx. apply in_map_iff in Hin as (y & Hy & Hin).
  apply filter_In in Hin as [Hin _]. apply in_map_iff. eauto.
Qed.

(** X28. When the projects of the user have pairwise different repository
    names (the query keeps one project per repository name) and the listed
    user repositories have pairwise different full names, no full name
    occurs twice in the combined list. *)
Theorem X28_combined_list_has_no_duplicate_full_name (api : UserApi)
    (user_id : string) (user_repos : list RepoEntry) :
  List.NoDup (map row_repo_name (user_projects api user_id)) ->
  List.NoDup (map entry_full_name user_repos) ->
  get_repos_for_user api user_id = Ret user_repos ->
  exists combined,
    get_combined_user_repos api user_id = Ret combined /\
    List.NoDup (map entry_full_name combined).
Proof.
  intros Hprojects Hrepos H. eexists.
  split; [exact (get_combined_user_repos_Ret _ _ _ H) |].
  rewrite map_app, !map_rev, kept_full_names, project_full_names.
  apply NoDup_app_intro.
  - apply NoDup_rev_intro. unfold kept_user_repos.
    now apply NoDup_map_filter.
  - now apply NoDup_rev_intro.
  - intros name Hname Hproject.
    apply in_rev in Hname. apply in_rev in Hproject.
    apply in_map_iff in Hname as (r & <- & Hr).
    apply kept_user_repos_In in Hr as [_ Hn]. contradiction.
Qed.

Lemma demo_projects_distinct :
  List.NoDup (map row_repo_name (user_projects user_api_demo "u1")).
Proof.
  cbn. repeat constructor; cbn; intuition discriminate.
Qed.

Lemma demo_repo_list_distinct :
  List.NoDup (map entry_full_name demo_repo_list).
Proof.
  cbn. repeat constructor; cbn; intuition discriminate.
Qed.

Lemma X28_combined_list_has_no_duplicate_full_name_witness :
  exists combined,
    get_combined_user_repos user_api_demo "u1" = Ret combined /\
    List.NoDup (map entry_full_name combined).
Proof.
  exact (X28_combined_list_has_no_duplicate_full_name user_api_demo "u1"
           demo_repo_list demo_projects_distinct demo_repo_list_distinct
           demo_repo_list_returned).
Defined.

(** ** Owner and name of a project entry *)

Lemma split_slash_split_on (s : string) :
  Py.split_slash s = PyStr.split_on Py.slash s.
Proof.
  induction s as [|c s IH]; [reflexivity |].
  cbn [Py.split_slash PyStr.split_on]. now rewrite IH.
Qed.

Lemma last_app_nonempty {A : Type} (l1 l2 : list A) (d : A) :
  l2 <> [] -> List.last (l1 ++ l2) d = List.last l2 d.
Proof.
  intros Hne. induction l1 as [|x l1 IH]; [reflexivity |].
  cbn [app]. destruct (l1 ++ l2) as [|y t] eqn:E.
  - destruct l1; [cbn [app] in E; contradiction | discriminate].
  - exact IH.
Qed.

Lemma split_on_after_separator (sep : ascii) (name rest : string) :
  exists pre,
    pre <> [] /\
    PyStr.split_on sep (rest +:+ String sep name) =
    pre ++ PyStr.split_on sep name.
Proof.
  induction rest as [|c rest (pre & Hne & IH)].
  - rewrite append_nil_l. cbn [PyStr.split_on]. rewrite Ascii.eqb_refl.
    now exists [""].
  - rewrite append_cons. cbn [PyStr.split_on]. rewrite IH.
    destruct (Ascii.eqb c sep).
    + now exists ("" :: pre).
    + destruct pre as [|h t]; [contradiction |].
      now exists (String c h :: t).
Qed.

(** X29. Owner and name of a project entry are read off the repository
    name: the owner is the text before the first slash, the name the text
    after the last slash; a repository name without a slash is both owner
    and name. *)
Theorem X29_project_entry_owner_and_name (id : ident) :
  (forall owner rest,
     has_char Py.slash owner = false ->
     entry_owner
       (project_entry (mkProjectRow id (owner +:+ String Py.slash rest)))
     = owner) /\
  (forall rest name,
     has_char Py.slash name = false ->
     entry_name
       (project_entry (mkProjectRow id (rest +:+ String Py.slash name)))
     = name) /\
  (forall s,
     has_char Py.slash s = false ->
     entry_owner (project_entry (mkProjectRow id s)) = s /\
     entry_name (project_entry (mkProjectRow id s)) = s).
Proof.
  unfold project_entry, Py.last_segment.
  cbn [entry_owner entry_name row_repo_name]. split; [| split].
  - intros owner rest Howner.
    now rewrite split_slash_split_on, split_on_app.
  - intros rest name Hname. rewrite split_slash_split_on.
    destruct (split_on_after_separator Py.slash name rest)
      as (pre & _ & ->).
    rewrite last_app_nonempty by apply split_on_nonempty.
    now rewrite split_on_single.
  - intros s Hs. now rewrite split_slash_split_on, split_on_single.
Qed.

Lemma X29_project_entry_owner_and_name_witness :
  entry_owner (project_entry (mkProjectRow (StrId "p1") "acme/api")) = "acme"
  /\ entry_name (project_entry (mkProjectRow (StrId "p1") "acme/api")) = "api".
Proof.
  split.
  - exact (proj1 (X29_project_entry_owner_and_name (StrId "p1"))
             "acme" "api" eq_refl).
  - exact (proj1 (proj2 (X29_project_entry_owner_and_name (StrId "p1")))
             "acme" "api" eq_refl).
Defined.
